(** * CatLearn (atoml): connectivity graphs and the model-building pipeline

    A shallow embedding of [atoml/graph.py] and [atoml/model_build.py].

    - [Graph] embeds the neighbour list, the connection matrix and the
      generalized coordination of [graph.py].  Python floats are idealised
      as exact rationals ([Q]); a distance, the Euclidean norm of a rational
      vector, is kept exactly as the square root of a rational.
    - [ModelBuild] embeds the [ModelBuilder] class.  Its methods run in a
      small monad that threads the mutable object [self], may raise a Python
      exception, and records every call made to a collaborator that lives
      outside the two modules (screening, ridge, lasso, the predictor, the
      descriptor database, ...).  The collaborators are an interface
      ([Collaborators]) the development is parametric in. *)

From stdpp Require Import gmap strings list pretty.
From Stdlib Require Import QArith ZArith Lia.

Close Scope Q_scope.

(** ** Python exceptions and fallible results *)

Inductive exn : Type :=
| AssertionError
| UnboundLocalError
| TypeError
| IndexError
| KeyError
| ValueError
| AxisError
| ZeroDivisionError
| CollaboratorError (msg : string).

Inductive res (A : Type) : Type :=
| Ok (a : A)
| Raise (e : exn).
Arguments Ok {A} a.
Arguments Raise {A} e.

Definition res_bind {A B} (r : res A) (f : A -> res B) : res B :=
  match r with
  | Ok a => f a
  | Raise e => Raise e
  end.

Definition is_ok {A} (r : res A) : bool :=
  match r with Ok _ => true | Raise _ => false end.

(** [for x in l: acc = body(acc, x)], stopping at the first exception. *)
Fixpoint res_foldl {A B} (body : A -> B -> res A) (acc : A) (l : list B) : res A :=
  match l with
  | [] => Ok acc
  | x :: l' => res_bind (body acc x) (fun acc' => res_foldl body acc' l')
  end.

(** [j in l], for a list of indices. *)
Definition mem_nat (j : nat) (l : list nat) : bool := existsb (Nat.eqb j) l.

Module Graph.

Local Open Scope Q_scope.

(** *** Numbers *)

Definition vec3 : Type := Q * Q * Q.

Definition vsub (p q : vec3) : vec3 :=
  let '(px, py, pz) := p in
  let '(qx, qy, qz) := q in
  (px - qx, py - qy, pz - qz).

(** The non-negative real number [sqrt radicand]. *)
Record dist : Type := Sqrt { radicand : Q }.

(** [np.linalg.norm] of a 3-vector. *)
Definition norm (v : vec3) : dist :=
  let '(x, y, z) := v in Sqrt (x * x + y * y + z * z).

Definition Qltb (a b : Q) : bool := negb (Qle_bool b a).

(** [d > m] for [d] a square root: every bound below zero is exceeded, a
    bound [m >= 0] is exceeded when its square is below the radicand. *)
Definition dist_gt (d : dist) (m : Q) : bool :=
  Qltb m 0 || Qltb (m * m) (radicand d).

(** [d < m]: only a positive bound whose square is above the radicand. *)
Definition dist_lt (d : dist) (m : Q) : bool :=
  Qltb 0 m && Qltb (radicand d) (m * m).

(** *** Structures *)

(** One atom as the iteration [for atomi in atoms] yields it. *)
Record Atom : Type := { index : nat; position : vec3; number : nat }.

(** [atoms.info['key_value_pairs']], of which only the optional
    ['neighborlist'] entry is read. *)
Record key_value_pairs : Type :=
  { neighborlist : option (gmap nat (list nat)) }.

(** An [ase] atoms object: positions and atomic numbers in order, and the
    [info] dictionary, which may or may not hold ['key_value_pairs']. *)
Record Atoms : Type :=
  { sites : list (vec3 * nat);
    info_key_value_pairs : option key_value_pairs }.

Definition iter_atoms (atoms : Atoms) : list Atom :=
  imap (fun i s => {| index := i; position := fst s; number := snd s |})
       (sites atoms).

Section WithRadii.

(** [ase.data.covalent_radii], indexed by atomic number. *)
Variable covalent_radii : nat -> Q.

Definition d_max1 (neighbor_number : Z) (cri crj dx : Q) : Q :=
  if (neighbor_number =? 1)%Z then 0
  else (inject_Z (neighbor_number - 1) * (crj + cri)) + dx.

Definition d_max2 (neighbor_number : Z) (cri crj dx : Q) : Q :=
  (inject_Z neighbor_number * (crj + cri)) + dx.

(** The test of the inner loop body: is [atomj] appended to the list of
    [atomi]? *)
Definition is_neighbor (dx : Q) (neighbor_number : Z) (atomi atomj : Atom) : bool :=
  if negb (index atomi =? index atomj)%nat then
    let d := norm (vsub (position atomi) (position atomj)) in
    let cri := covalent_radii (number atomi) in
    let crj := covalent_radii (number atomj) in
    dist_gt d (d_max1 neighbor_number cri crj dx)
    && dist_lt d (d_max2 neighbor_number cri crj dx)
  else false.

Definition get_neighborlist (atoms : Atoms) (dx : Q) (neighbor_number : Z)
  : gmap nat (list nat) :=
  foldl (fun conn atomi =>
           let conn_this_atom :=
             foldl (fun acc atomj =>
                      if is_neighbor dx neighbor_number atomi atomj
                      then acc ++ [index atomj] else acc)
                   [] (iter_atoms atoms) in
           <[index atomi := conn_this_atom]> conn)
        ∅ (iter_atoms atoms).

Definition connection_matrix (atoms : Atoms) (dx : Q) : res (list (list Q)) :=
  match info_key_value_pairs atoms with
  | None => Raise KeyError
  | Some kvp =>
      let nl := match neighborlist kvp with
                | Some nl => nl
                | None => get_neighborlist atoms dx 1
                end in
      let r := seq 0 (length (sites atoms)) in
      res_foldl (fun cm i =>
        res_bind
          (res_foldl (fun x j =>
             match nl !! i with
             | None => Raise KeyError
             | Some nli => Ok (x ++ [if mem_nat j nli then 1 else 0])
             end) [] r)
          (fun x => Ok (cm ++ [x]))) [] r
  end.

End WithRadii.

(** Python's [sum]. *)
Definition sum (l : list Q) : Q := foldl Qplus 0 l.

Definition generalized_matrix (cm : list (list Q)) : list Q :=
  map (fun i =>
         let tot :=
           foldl (fun tot j =>
                    if negb (Qeq_bool (nth j i 0) 0) then tot + sum i else tot)
                 0 (seq 0 (length i)) in
         tot / 12) cm.

(** The generalized coordination as the specification words it: the sum of
    the connected atoms' own connectivity degree, over 12. *)
Definition spec_generalized (cm : list (list Q)) : list Q :=
  map (fun i =>
         let tot :=
           foldl (fun tot j =>
                    if negb (Qeq_bool (nth j i 0) 0)
                    then tot + sum (nth j cm []) else tot)
                 0 (seq 0 (length i)) in
         tot / 12) cm.

Definition nonzero (x : Q) : bool := negb (Qeq_bool x 0).

(** The coordination (degree) of an atom: the number of non-zero entries of
    its row. *)
Definition coordination (row : list Q) : nat :=
  length (List.filter (fun x => negb (Qeq_bool x 0)) row).

(** Every entry is 0 or 1, as in the matrix [connection_matrix] builds. *)
Definition binary (cm : list (list Q)) : Prop :=
  Forall (Forall (fun x => x == 0 \/ x == 1)) cm.

Definition square (cm : list (list Q)) : Prop :=
  Forall (fun row => length row = length cm) cm.

(** The fully connected cluster of [n] atoms: every atom is connected to the
    [n - 1] others. *)
Definition complete_graph (n : nat) : list (list Q) :=
  map (fun i => map (fun j => if (i =? j)%nat then 0 else 1) (seq 0 n))
      (seq 0 n).

(** The entry [cm[i][j]], when it exists. *)
Definition entry (cm : list (list Q)) (i j : nat) : option Q :=
  match cm !! i with
  | Some row => row !! j
  | None => None
  end.

(** A chain of three atoms. *)
Definition chain3 : list (list Q) := [[0; 1; 0]; [1; 0; 1]; [0; 1; 0]].

(** Three atoms on a line, at 0, 1 and 3 length units, with no cached
    neighbour list. *)
Definition line3 : Atoms :=
  {| sites := [((0, 0, 0), 1%nat); ((1, 0, 0), 1%nat); ((3, 0, 0), 8%nat)];
     info_key_value_pairs := Some {| neighborlist := None |} |}.

Definition half_radii (z : nat) : Q := 1 # 2.

(** Four atoms at (0,0,0), (1,2,0), (2,4,0), (3,6,0), all of covalent
    radius 1: consecutive atoms are sqrt(5) apart. *)
Definition diagonal4 : Atoms :=
  {| sites := [((0, 0, 0), 1%nat); ((1, 2, 0), 1%nat); ((2, 4, 0), 8%nat);
               ((3, 6, 0), 8%nat)];
     info_key_value_pairs := Some {| neighborlist := None |} |}.

Definition unit_radii (z : nat) : Q := 1.

(** *** Fingerprints *)

Definition element_list (an : list nat) (no : nat) : list Q :=
  foldl (fun hm n => if (n =? no)%nat then hm ++ [1] else hm ++ [0]) [] an.

(** [el[0]] is read anew at every comparison; [el[1]] never is. *)
Definition heteroatomic_matrix (an el : list nat) : res (list (list Q)) :=
  res_foldl (fun hm i =>
    match el !! 0%nat with
    | None => Raise IndexError
    | Some e0 =>
        if (i =? e0)%nat then
          res_bind
            (res_foldl (fun x j =>
               match el !! 0%nat with
               | None => Raise IndexError
               | Some e0 => if negb (j =? e0)%nat then Ok (x ++ [1])
                            else Ok (x ++ [0])
               end) [] an)
            (fun x => Ok (hm ++ [x]))
        else Ok (hm ++ [replicate (length an) 0])
    end) [] an.

(** What [get_features], [property_matrix] and [base_f] take from numpy, from
    the Python runtime and from the periodic-table packages: the array
    operations (which may reject the shapes they are given), the order in
    which a [set] is iterated, the symbol of an atomic number and the
    look-up [element(symbol).property]. *)
Class Runtime : Type :=
  { set_iter : list nat -> list nat;
    set_iter_symbols : list string -> list string;
    np_mul : list Q -> list Q -> res (list Q);
    np_mul2 : list (list Q) -> list (list Q) -> res (list (list Q));
    np_sum : list Q -> Q;
    np_sum_axis1 : list (list Q) -> res (list Q);
    np_square : list Q -> list Q;
    np_sqrt : list Q -> list Q;
    chemical_symbol : nat -> string;
    element_property : string -> string -> res Q }.

Section Fingerprint.
Context `{Runtime}.

(** [np.sum(x)], [np.sum(x ** 2)], [np.sum(x ** 0.5)] *)
Definition level_sums (x : list Q) : list Q :=
  [np_sum x; np_sum (np_square x); np_sum (np_sqrt x)].

(** [np.sum(np.sum(a * cm, axis=1))] *)
Definition bond_count (a cm : list (list Q)) : res Q :=
  res_bind (np_mul2 a cm)
    (fun p => res_bind (np_sum_axis1 p) (fun rows => Ok (np_sum rows))).

(** The loop state is the pair of [fp] and [done]. *)
Definition get_features (an : list nat) (cm : list (list Q))
    (sum_cm gen_cm : list Q) : res (list Q) :=
  res_bind
    (res_foldl (fun (st : list Q * list nat) e =>
       let fp := fst st in
       let done := snd st in
       let el := element_list an e in
       res_bind (np_mul sum_cm el) (fun x =>
       let fp := fp ++ level_sums x in
       let pt := replicate (length an) el in
       res_bind (bond_count pt cm) (fun em =>
       let fp := fp ++ [em] in
       let done := if mem_nat e done then done else done ++ [e] in
       res_bind
         (res_foldl (fun fp eo =>
            if mem_nat eo done then Ok fp
            else
              res_bind (heteroatomic_matrix an [e; eo]) (fun hm =>
              res_bind (bond_count hm cm) (fun b => Ok (fp ++ [b]))))
            fp (set_iter an)) (fun fp =>
       res_bind (np_mul gen_cm el) (fun x =>
       Ok (fp ++ level_sums x, done))))))
       ([], []) (set_iter an))
    (fun st => Ok (fst st)).

Definition get_atomic_numbers (atoms : Atoms) : list nat := map snd (sites atoms).

Definition get_chemical_symbols (atoms : Atoms) : list string :=
  map chemical_symbol (get_atomic_numbers atoms).

Definition property_matrix (atoms : Atoms) (property : string)
  : res (list (list Q)) :=
  let sy := get_chemical_symbols atoms in
  res_bind
    (res_foldl (fun (ce : gmap string Q) s =>
       res_bind (element_property s property) (fun v => Ok (<[s := v]> ce)))
       ∅ (set_iter_symbols sy)) (fun ce =>
  res_bind
    (res_foldl (fun x s =>
       match ce !! s with
       | None => Raise KeyError
       | Some v => Ok (x ++ [v])
       end) [] sy) (fun x =>
  Ok (replicate (length (sites atoms)) x))).

Section WithRadii.
Variable covalent_radii : nat -> Q.

Definition base_f (atoms : Atoms) (property : option (list string))
  : res (list Q) :=
  let fp := [] in
  let an := get_atomic_numbers atoms in
  res_bind (connection_matrix covalent_radii atoms (2 # 10)) (fun cm_store =>
  res_bind (np_sum_axis1 cm_store) (fun sum_cm =>
  let gen_cm := generalized_matrix cm_store in
  res_bind (get_features an cm_store sum_cm gen_cm) (fun f =>
  let fp := fp ++ f in
  match property with
  | None => Ok fp
  | Some props =>
      res_foldl (fun fp p =>
        res_bind (property_matrix atoms p) (fun pm =>
        res_bind (np_mul2 cm_store pm) (fun cm =>
        res_bind (np_sum_axis1 cm) (fun sum_cm =>
        let gen_cm := generalized_matrix cm in
        res_bind (get_features an cm sum_cm gen_cm) (fun f =>
        Ok (fp ++ f)))))) fp props
  end))).

End WithRadii.

End Fingerprint.

Definition has_key (nl : gmap nat (list nat)) (i : nat) : bool :=
  match nl !! i with Some _ => true | None => false end.

(** The length of the fingerprint of a structure with [t] atom types: per
    type three level-one sums, one homoatomic count, one heteroatomic count
    for each type not yet visited and three level-three sums. *)
Definition features_length (t : nat) : nat := 7 * t + t * (t - 1) / 2.

(** The same length, block by block: with [r] types still to visit, the
    next block has 7 entries and one for each of the [r - 1] others. *)
Fixpoint blocks_length (r : nat) : nat :=
  match r with
  | O => O
  | S r' => 7 + r' + blocks_length r'
  end.

End Graph.

(** ** A concrete runtime

    Array operations on lists of equal shape, sets iterated in order of
    first occurrence, and a periodic table of two elements.  The square
    root is replaced by the identity: the instance only serves to run the
    fingerprint on small structures. *)

Module FingerprintDemo.
Import Graph.
Local Open Scope Q_scope.

Definition same_shape (a b : list (list Q)) : bool :=
  (length a =? length b)%nat
  && forallb (fun p => (length (fst p) =? length (snd p))%nat) (zip a b).

#[export] Instance runtime : Runtime :=
  {| set_iter := remove_dups;
     set_iter_symbols := remove_dups;
     np_mul := fun a b =>
       if (length a =? length b)%nat then Ok (zip_with Qmult a b)
       else Raise ValueError;
     np_mul2 := fun a b =>
       if same_shape a b then Ok (zip_with (zip_with Qmult) a b)
       else Raise ValueError;
     np_sum := sum;
     np_sum_axis1 := fun m => Ok (map sum m);
     np_square := map (fun x => x * x);
     np_sqrt := map (fun x => x);
     chemical_symbol := fun z =>
       if (z =? 1)%nat then "H" else if (z =? 8)%nat then "O" else "X";
     element_property := fun s p =>
       if String.eqb s "H" then Ok 1
       else if String.eqb s "O" then Ok 8
       else Raise KeyError |}.

(** Two hydrogens and an oxygen, the oxygen between them. *)
Definition water : Atoms :=
  {| sites := [((0, 0, 0), 1%nat); ((1, 0, 0), 8%nat); ((2, 0, 0), 1%nat)];
     info_key_value_pairs := Some {| neighborlist := None |} |}.

(** A structure with an atom the periodic table above does not know. *)
Definition unknown : Atoms :=
  {| sites := [((0, 0, 0), 1%nat); ((1, 0, 0), 5%nat)];
     info_key_value_pairs := Some {| neighborlist := None |} |}.

(** A structure with a cached neighbour list that is not symmetric. *)
Definition cached : Atoms :=
  {| sites := [((0, 0, 0), 1%nat); ((9, 0, 0), 1%nat)];
     info_key_value_pairs :=
       Some {| neighborlist := Some (<[1%nat := []]> (<[0%nat := [1%nat]]> ∅)) |} |}.

End FingerprintDemo.

Module ModelBuild.

(** *** Arrays *)

Section Arrays.
Context {F : Type}.

(** A feature matrix: one row per candidate, one column per feature. *)
Definition Matrix : Type := list (list F).

(** What a [test_matrix] variable can hold: [None], the 0-d object array
    [np.asarray(None)], or a feature matrix. *)
Inductive pyarray : Type :=
| PyNone
| Arr0d
| Arr2d (m : Matrix).

Definition shape0 (m : Matrix) : nat := length m.

(** [np.shape(m)[1]] and [len(m[0])]: both index past the end on no rows. *)
Definition shape1 (m : Matrix) : res nat :=
  match m with
  | [] => Raise IndexError
  | r :: _ => Ok (length r)
  end.

Definition np_asarray (a : pyarray) : pyarray :=
  match a with
  | PyNone => Arr0d
  | Arr0d => Arr0d
  | Arr2d m => Arr2d m
  end.

End Arrays.
Arguments Matrix F : clear implicits.
Arguments pyarray F : clear implicits.

(** The entries of [l], numbered from [i], whose number is not in [obj]. *)
Fixpoint delete_from {A} (i : nat) (obj : list nat) (l : list A) : list A :=
  match l with
  | [] => []
  | x :: l' =>
      if mem_nat i obj then delete_from (S i) obj l'
      else x :: delete_from (S i) obj l'
  end.

(** [np.delete(l, obj, axis=0)], for a list [obj] of non-negative indices;
    an index past the end is an [IndexError] (numpy 1.19 and later). *)
Definition np_delete {A} (l : list A) (obj : list nat) : res (list A) :=
  if forallb (fun i => i <? length l) obj then Ok (delete_from 0 obj l)
  else Raise IndexError.

(** [np.delete(m, obj, axis=1)]; an array without a second axis is an
    [AxisError]. *)
Definition np_delete_cols {F} (m : Matrix F) (obj : list nat) : res (Matrix F) :=
  match m with
  | [] => Raise AxisError
  | r :: _ =>
      if forallb (fun i => i <? length r) obj
      then Ok (map (delete_from 0 obj) m)
      else Raise IndexError
  end.

Definition np_delete_cols_py {F} (a : pyarray F) (obj : list nat) : res (pyarray F) :=
  match a with
  | Arr2d m => res_bind (np_delete_cols m obj) (fun m' => Ok (Arr2d m'))
  | _ => Raise AxisError
  end.

(** [np.concatenate((a, b), axis=1)]: the row counts must agree. *)
Definition concat_cols {A} (a b : list (list A)) : res (list (list A)) :=
  if length a =? length b then Ok (zip_with app a b) else Raise ValueError.

(** The slice [l[k:]], with [k] possibly [None] or negative. *)
Definition slice_from {A} (k : option Z) (l : list A) : list A :=
  match k with
  | None => l
  | Some k =>
      if (k <? 0)%Z then drop (Z.to_nat (Z.of_nat (length l) + k)) l
      else drop (Z.to_nat k) l
  end.

(** [l[:-1]] and [l[-1:]] *)
Definition all_but_last {A} (l : list A) : list A := take (length l - 1) l.
Definition last_slice {A} (l : list A) : list A := drop (length l - 1) l.

Fixpoint zip3 {A B C} (a : list A) (b : list B) (c : list C) : list (A * B * C) :=
  match a, b, c with
  | x :: a', y :: b', z :: c' => (x, y, z) :: zip3 a' b' c'
  | _, _, _ => []
  end.

(** *** Floats and the collaborators *)

(** The float operations the two methods with arithmetic of their own
    ([ridge_regression], [hyp_opt], the step size of [screening]) use. *)
Class FloatOps (F : Type) : Type :=
  { fzero : F;
    fone : F;
    finf : F;
    fadd : F -> F -> F;
    fsub : F -> F -> F;
    fmul : F -> F -> F;
    fdiv : F -> F -> F;
    fsqrt : F -> F;
    fabs : F -> F;
    fltb : F -> F -> bool;
    of_nat : nat -> F;
    flog : F -> F;
    round_int : F -> Z }.

Record screen_result : Type :=
  { accepted : list nat; rejected : list nat }.

Record lasso_result (F : Type) : Type :=
  { linear_error : list F; min_features : nat; order : list nat }.
Arguments linear_error {F} _.
Arguments min_features {F} _.
Arguments order {F} _.

(** The prediction dictionary; only [p['validation_rmse']['average']] is read. *)
Record prediction (F : Type) : Type :=
  { validation_rmse_average : option F }.
Arguments validation_rmse_average {F} _.

(** [self.width] and [self.regularization]: a float, or an array once
    [hyp_opt] has assigned them. *)
Inductive hyper (F : Type) : Type :=
| Scalar (x : F)
| Vector (l : list F).
Arguments Scalar {F} x.
Arguments Vector {F} l.

(** A cell of the array written to the descriptor database. *)
Inductive cell (F : Type) : Type :=
| CId (s : string)
| CNum (x : F).
Arguments CId {F} s.
Arguments CNum {F} x.

(** The functions imported from the rest of the package, from numpy and from
    scipy.  Each may fail. *)
Class Collaborators (F : Type) : Type :=
  { clean_zero : Matrix F -> pyarray F -> res (Matrix F * pyarray F * list nat);
    standardize : Matrix F -> pyarray F -> res (Matrix F * pyarray F);
    get_predictions :
      hyper F -> hyper F -> Matrix F -> pyarray F -> list F ->
      option (list F) -> res (prediction F);
    iterative_screening :
      list F -> Matrix F -> pyarray F -> nat -> Z -> string -> string ->
      option (list string) -> res screen_result;
    rr_screen : list F -> Matrix F -> nat -> string -> res screen_result;
    sure_screen : list F -> Matrix F -> nat -> res screen_result;
    find_optimal_regularization : Matrix F -> list F -> res F;
    RR : Matrix F -> list F -> F -> res (list F);
    lasso :
      nat -> list F -> Matrix F -> pyarray F -> Q -> Q -> option (list F) ->
      option nat -> res (lasso_result F);
    pca : nat -> Matrix F -> pyarray F -> res (Matrix F * pyarray F);
    minimize : list F -> Matrix F * pyarray F -> list F -> nat -> res (list F);
    get_order_2 : Matrix F -> res (Matrix F);
    get_div_order_2 : Matrix F -> res (Matrix F);
    get_order_2ab : Matrix F -> nat -> nat -> res (Matrix F);
    get_ablog : Matrix F -> nat -> nat -> res (Matrix F);
    get_labels_order_2 : option (list string) -> bool -> res (list string);
    get_labels_order_2ab : option (list string) -> nat -> nat -> res (list string);
    get_labels_ablog : option (list string) -> nat -> nat -> res (list string);
    np_dot : list F -> list F -> res F;
    create_db : string -> string -> list string -> res unit;
    fill_db : string -> string -> list string -> list (list (cell F)) -> res unit }.

(** A call to a collaborator, as recorded. *)
Inductive event : Type :=
| CleanZero
| Standardize
| GetPredictions
| IterativeScreening (size : nat) (step : Z) (method corr : string)
| RRScreen (size : nat) (corr : string)
| SureScreen (size : nat)
| FindOptimalRegularization
| RidgeRR
| Lasso
| Pca (components : nat)
| Minimize
| FpmOperation (name : string)
| CreateDb (db table : string)
| FillDb (db table : string).

(** *** The object and the monad *)

Record self (F : Type) : Type :=
  { update_train_db : bool;
    update_test_db : bool;
    db_name : string;
    screening_method : string;
    screening_correlation : string;
    initial_prediction : bool;
    clean_features : bool;
    expand : bool;
    optimize : bool;
    size : option Z;
    width : hyper F;
    regularization : hyper F }.
Arguments update_train_db {F} _.
Arguments update_test_db {F} _.
Arguments db_name {F} _.
Arguments screening_method {F} _.
Arguments screening_correlation {F} _.
Arguments initial_prediction {F} _.
Arguments clean_features {F} _.
Arguments expand {F} _.
Arguments optimize {F} _.
Arguments size {F} _.
Arguments width {F} _.
Arguments regularization {F} _.

(** [self.width, self.regularization = w, r] *)
Definition set_hyper {F} (w r : hyper F) (s : self F) : self F :=
  {| update_train_db := update_train_db s;
     update_test_db := update_test_db s;
     db_name := db_name s;
     screening_method := screening_method s;
     screening_correlation := screening_correlation s;
     initial_prediction := initial_prediction s;
     clean_features := clean_features s;
     expand := expand s;
     optimize := optimize s;
     size := size s;
     width := w;
     regularization := r |}.

Record outcome (F A : Type) : Type :=
  { result : res A; final : self F; emitted : list event }.
Arguments result {F A} _.
Arguments final {F A} _.
Arguments emitted {F A} _.

Definition M (F A : Type) : Type := self F -> outcome F A.

Definition ret {F A} (a : A) : M F A :=
  fun s => {| result := Ok a; final := s; emitted := [] |}.

Definition raise {F A} (e : exn) : M F A :=
  fun s => {| result := Raise e; final := s; emitted := [] |}.

Definition bind {F A B} (m : M F A) (f : A -> M F B) : M F B :=
  fun s =>
    let o := m s in
    match result o with
    | Ok a =>
        let o' := f a (final o) in
        {| result := result o'; final := final o';
           emitted := emitted o ++ emitted o' |}
    | Raise e => {| result := Raise e; final := final o; emitted := emitted o |}
    end.

Definition get {F} : M F (self F) :=
  fun s => {| result := Ok s; final := s; emitted := [] |}.

Definition modify {F} (f : self F -> self F) : M F unit :=
  fun s => {| result := Ok tt; final := f s; emitted := [] |}.

(** A fallible computation without effects. *)
Definition lift {F A} (r : res A) : M F A :=
  fun s => {| result := r; final := s; emitted := [] |}.

(** A call to a collaborator: recorded, then its result or exception. *)
Definition call {F A} (ev : event) (r : res A) : M F A :=
  fun s => {| result := r; final := s; emitted := [ev] |}.

(** Reading a local variable that may not have been assigned. *)
Definition deref {F A} (x : option A) : M F A :=
  match x with
  | Some a => ret a
  | None => raise UnboundLocalError
  end.

Definition assert {F} (b : bool) : M F unit :=
  if b then ret tt else raise AssertionError.

Declare Scope py_scope.
Delimit Scope py_scope with py.
Notation "x <- c1 ;; c2" := (bind c1 (fun x => c2))
  (at level 100, c1 at next level, right associativity) : py_scope.
Notation "c1 ;; c2" := (bind c1 (fun _ => c2))
  (at level 100, right associativity) : py_scope.

Local Open Scope py_scope.

(** [for x in l: acc = body(x, acc)] *)
Fixpoint for_each {F A S} (l : list A) (body : A -> S -> M F S) (acc : S) : M F S :=
  match l with
  | [] => ret acc
  | x :: l' => acc' <- body x acc ;; for_each l' body acc'
  end.

(** [quiet P m]: running [m] leaves [self] as it was, and every recorded
    call satisfies [P]. *)
Definition quiet {F A} (P : event -> Prop) (m : M F A) : Prop :=
  forall s, final (m s) = s /\ Forall P (emitted (m s)).

(** [m] has the rows of [fm], each possibly extended to the right. *)
Definition extends {A} (d : nat) (fm m : list (list A)) : Prop :=
  length m = length fm /\ map (take d) m = fm.

Definition is_screening (ev : event) : bool :=
  match ev with
  | IterativeScreening _ _ _ _ | RRScreen _ _ | SureScreen _ => true
  | _ => false
  end.

Definition is_iterative (ev : event) : bool :=
  match ev with
  | IterativeScreening _ _ _ _ => true
  | _ => false
  end.

(** *** The methods of [ModelBuilder] *)

Section Pipeline.
Context {F : Type} `{FloatOps F} `{Collaborators F}.

Local Abbreviation M := (M F).

(** [p['validation_rmse']['average']] *)
Definition validation_average (p : prediction F) : M F :=
  match validation_rmse_average p with
  | Some v => ret v
  | None => raise KeyError
  end.

(** Python's [min] of a list of floats. *)
Definition py_min (l : list F) : res F :=
  match l with
  | [] => Raise ValueError
  | x :: l' => Ok (foldl (fun m y => if fltb y m then y else m) x l')
  end.

(** [sorted(l, key=lambda x: x[0], reverse=True)]: descending in the key,
    entries with equal keys in their original order. *)
Fixpoint insert_desc {A} (x : F * A) (l : list (F * A)) : list (F * A) :=
  match l with
  | [] => [x]
  | y :: l' =>
      if fltb (fst y) (fst x) then x :: y :: l'
      else y :: insert_desc x l'
  end.

Definition sorted_desc {A} (l : list (F * A)) : list (F * A) :=
  foldl (fun acc x => insert_desc x acc) [] l.

(** Binding the keyword arguments of a call against the parameter names of
    the callee: an unexpected keyword is a [TypeError], raised before the
    body runs. *)
Definition call_kw {A} (params kwargs : list string) (body : M A) : M A :=
  if forallb (fun k => existsb (String.eqb k) params) kwargs
  then body
  else raise TypeError.

Definition hyp_opt_params : list string := ["features"; "train_target"].

(** [np.ones(m) * w] *)
Definition ones_times (m : nat) (w : hyper F) : res (list F) :=
  match w with
  | Scalar x => Ok (map (fun o => fmul o x) (replicate m fone))
  | Vector [x] => Ok (map (fun o => fmul o x) (replicate m fone))
  | Vector l =>
      if length l =? m then Ok (zip_with fmul (replicate m fone) l)
      else Raise ValueError
  end.

(** [np.append(sigma, r)] *)
Definition np_append_hyper (sigma : list F) (r : hyper F) : list F :=
  match r with
  | Scalar x => sigma ++ [x]
  | Vector l => sigma ++ l
  end.

Definition hyp_opt (features : Matrix F * pyarray F) (train_target : list F)
  : M (hyper F * hyper F) :=
  m <- lift (shape1 (fst features)) ;;
  self <- get ;;
  sigma <- lift (ones_times m (width self)) ;;
  let theta := np_append_hyper sigma (regularization self) in
  let a := (features, train_target) in
  popt <- call Minimize (minimize theta (fst a) (snd a) (m + 1)) ;;
  ret (Vector (all_but_last popt), Vector (last_slice popt)).

Definition make_prediction (train_matrix : Matrix F) (test_matrix : pyarray F)
    (train_target : list F) (test_target : option (list F)) (opt_h : bool)
  : M (prediction F) :=
  let sf := (train_matrix, test_matrix) in
  (if opt_h then
     wr <- call_kw hyp_opt_params ["features"; "train_target"; "width"; "reg"]
                   (hyp_opt sf train_target) ;;
     modify (set_hyper (fst wr) (snd wr))
   else ret tt) ;;
  self <- get ;;
  call GetPredictions
       (get_predictions (width self) (regularization self) train_matrix
                        test_matrix train_target test_target).

Definition expand_matrix (feature_matrix : Matrix F)
    (feature_names : option (list string)) (return_names : bool)
  : M (Matrix F * option (list string)) :=
  order_2 <- call (FpmOperation "get_order_2") (get_order_2 feature_matrix) ;;
  div_order_2 <- call (FpmOperation "get_div_order_2")
                      (get_div_order_2 feature_matrix) ;;
  order_2ab <- call (FpmOperation "get_order_2ab")
                    (get_order_2ab feature_matrix 2 4) ;;
  ablog <- call (FpmOperation "get_ablog") (get_ablog feature_matrix 2 4) ;;
  m1 <- lift (concat_cols feature_matrix order_2) ;;
  m2 <- lift (concat_cols m1 div_order_2) ;;
  m3 <- lift (concat_cols m2 order_2ab) ;;
  feature_matrix <- lift (concat_cols m3 ablog) ;;
  if return_names then
    order_2 <- call (FpmOperation "get_labels_order_2")
                    (get_labels_order_2 feature_names false) ;;
    div_order_2 <- call (FpmOperation "get_labels_order_2")
                        (get_labels_order_2 feature_names true) ;;
    order_2ab <- call (FpmOperation "get_labels_order_2ab")
                      (get_labels_order_2ab feature_names 2 4) ;;
    ablog <- call (FpmOperation "get_labels_ablog")
                  (get_labels_ablog feature_names 2 4) ;;
    match feature_names with
    | None => raise TypeError
    | Some names =>
        ret (feature_matrix,
             Some (names ++ (order_2 ++ div_order_2 ++ order_2ab ++ ablog)))
    end
  else ret (feature_matrix, feature_names).

(** The step [s] is computed before the branch: [d/n] divides by zero on no
    rows, [log] rejects 0, and the square root of a negative logarithm is a
    complex number [round] rejects.  The comparisons [is 'rrcs'] and
    [is 'sis'] are taken as string equality, as they behave on the interned
    literals a caller passes; with any other method [screen] stays
    unassigned. *)
Definition screening (train_matrix : Matrix F) (train_target : list F)
    (feature_names : option (list string)) (test_matrix : pyarray F)
    (test_target : option (list F))
  : M (Matrix F * pyarray F * option (list string)) :=
  let n := shape0 train_matrix in
  d <- lift (shape1 train_matrix) ;;
  s <- (if n =? 0 then raise ZeroDivisionError
        else if d =? 0 then raise ValueError
        else if d <? n then raise TypeError
        else ret (round_int (fsqrt (flog (fdiv (of_nat d) (of_nat n)))))) ;;
  let s := if (s =? 0)%Z then 1%Z else s in
  self <- get ;;
  screen <-
    (if 2 * n <? d then
       x <- call (IterativeScreening n s (screening_method self)
                                     (screening_correlation self))
                 (iterative_screening train_target train_matrix test_matrix n s
                    (screening_method self) (screening_correlation self)
                    feature_names) ;;
       ret (Some x)
     else if String.eqb (screening_method self) "rrcs" then
       x <- call (RRScreen n (screening_correlation self))
                 (rr_screen train_target train_matrix n
                            (screening_correlation self)) ;;
       ret (Some x)
     else if String.eqb (screening_method self) "sis" then
       x <- call (SureScreen n) (sure_screen train_target train_matrix n) ;;
       ret (Some x)
     else ret None) ;;
  screen <- deref screen ;;
  train_matrix <- lift (np_delete_cols train_matrix (rejected screen)) ;;
  test_matrix <-
    match test_matrix with
    | PyNone => ret PyNone
    | _ => lift (np_delete_cols_py test_matrix (rejected screen))
    end ;;
  feature_names <-
    match feature_names with
    | None => raise AxisError
    | Some names => lift (np_delete names (rejected screen))
    end ;;
  ret (train_matrix, np_asarray test_matrix, Some feature_names).

(** The step of the iterative screening: [round(sqrt(log(d/n)))], or 1
    when that is 0. *)
Definition screening_step (d n : nat) : Z :=
  let s := round_int (fsqrt (flog (fdiv (of_nat d) (of_nat n)))) in
  if (s =? 0)%Z then 1%Z else s.

(** The call [screening] records, for [n] candidates and [d] features. *)
Definition screening_event (s : self F) (n d : nat) : event :=
  if 2 * n <? d then
    IterativeScreening n (screening_step d n) (screening_method s)
                       (screening_correlation s)
  else if String.eqb (screening_method s) "rrcs" then
    RRScreen n (screening_correlation s)
  else SureScreen n.

(** The result of the screening primitive that call stands for. *)
Definition screening_primitive (s : self F) (train_matrix : Matrix F)
    (train_target : list F) (feature_names : option (list string))
    (test_matrix : pyarray F) (n d : nat) : res screen_result :=
  if 2 * n <? d then
    iterative_screening train_target train_matrix test_matrix n
      (screening_step d n) (screening_method s) (screening_correlation s)
      feature_names
  else if String.eqb (screening_method s) "rrcs" then
    rr_screen train_target train_matrix n (screening_correlation s)
  else sure_screen train_target train_matrix n.

Definition pca_opt (max_comp : nat) (train_matrix : Matrix F)
    (test_matrix : pyarray F) (train_target : list F)
    (test_target : option (list F)) : M (F * nat * nat) :=
  st <- for_each (seq 1 (max_comp - 1))
          (fun c (st : F * option (nat * nat)) =>
             comp <- call (Pca c) (pca c train_matrix test_matrix) ;;
             pc <- make_prediction (fst comp) (snd comp) train_target
                                   test_target false ;;
             v <- validation_average pc ;;
             if fltb v (fst st) then ret (v, Some (c, max_comp)) else ret st)
          (finf, None) ;;
  ccs <- deref (snd st) ;;
  ret (fst st, fst ccs, snd ccs).

(** The three lists [sort_list] holds, or no list at all when the sorted
    sequence is empty (unzipping nothing yields nothing). *)
Definition unzip_sorted (l : list (F * (nat * string)))
  : option (list F * list nat * list string) :=
  match l with
  | [] => None
  | _ => Some (map fst l, map (fun x => fst (snd x)) l,
               map (fun x => snd (snd x)) l)
  end.

(** [error] is assigned only under [if test_matrix is not None]; there
    [zip] iterates the test matrix, which a 0-d array does not allow, and
    the targets.  The mean over no test rows divides the float [0.] by the
    integer 0. *)
Definition ridge_regression (train_matrix : Matrix F) (train_target : list F)
    (feature_names : option (list string)) (test_matrix : pyarray F)
    (test_target : option (list F))
  : M (option (list F * list nat * list string) * F) :=
  let target := train_target in
  b <- call FindOptimalRegularization
            (find_optimal_regularization train_matrix target) ;;
  coef <- call RidgeRR (RR train_matrix target b) ;;
  error <-
    match test_matrix with
    | PyNone => ret None
    | Arr0d => raise TypeError
    | Arr2d tm =>
        match test_target with
        | None => raise TypeError
        | Some targets =>
            sumd <- lift (res_foldl
                            (fun sumd ij =>
                               res_bind (np_dot coef (fst ij))
                                 (fun dot =>
                                    let r := fsub dot (snd ij) in
                                    Ok (fadd sumd (fmul r r))))
                            fzero (zip tm targets)) ;;
            if length tm =? 0 then raise ZeroDivisionError
            else ret (Some (fsqrt (fdiv sumd (of_nat (length tm)))))
        end
    end ;;
  let order := seq 0 (length coef) in
  sort_list <-
    match feature_names with
    | None => raise TypeError
    | Some names =>
        ret (unzip_sorted
               (sorted_desc (map (fun x => (fst (fst x), (snd (fst x), snd x)))
                                 (zip3 (map fabs coef) order names))))
    end ;;
  error <- deref error ;;
  ret (sort_list, error).

Definition lasso_opt (size : nat) (train_target : list F)
    (train_matrix : Matrix F) (test_matrix : pyarray F)
    (test_target : option (list F)) (alpha max_iter : Q) (steps : option nat)
  : M (F * nat * list nat) :=
  las <- call Lasso (lasso size train_target train_matrix test_matrix alpha
                           max_iter test_target steps) ;;
  ml <- lift (py_min (linear_error las)) ;;
  ret (ml, min_features las, order las).

(** The loop state of the size search: [best_p1], [best_size] and the
    result [pcar] of the last projection sweep, if any was run. *)
Definition search_state : Type := F * option Z * option (F * nat * nat).

Definition reduce_matrix (train_matrix : Matrix F) (train_target : list F)
    (feature_names : option (list string)) (test_matrix : pyarray F)
    (test_target : option (list F)) (limit : option nat)
  : M (list string * Matrix F * pyarray F) :=
  let n := shape0 train_matrix in
  d <- lift (shape1 train_matrix) ;;
  match limit with
  | Some l => assert (l <=? d)
  | None => ret tt
  end ;;
  sf <- (if n <? d then
           screening train_matrix train_target feature_names test_matrix
                     test_target
         else ret (train_matrix, test_matrix, feature_names)) ;;
  let train_matrix := fst (fst sf) in
  let test_matrix := snd (fst sf) in
  let feature_names := snd sf in
  linear <- ridge_regression train_matrix train_target feature_names
                             test_matrix test_target ;;
  sort_list <- match fst linear with
               | Some l => ret l
               | None => raise IndexError
               end ;;
  let coefs := fst (fst sort_list) in
  let linear_error := snd linear in
  let order := snd (fst sort_list) in
  let feature_names := snd sort_list in
  las <- lasso_opt d train_target train_matrix test_matrix test_target
                   (1 # 10)%Q 1000000%Q (Some 20) ;;
  let ml := fst (fst las) in
  let mf := snd (fst las) in
  let mo := snd las in
  self <- get ;;
  let best_size := size self in
  best_size <-
    (if optimize self then
       let limit := match limit with Some l => l | None => n end in
       let best_p1 := finf in
       st <- for_each (seq 1 limit)
               (fun s (st : search_state) =>
                  let remove_features := slice_from (Some (Z.of_nat s)) mo in
                  reduced_train <- lift (np_delete_cols train_matrix
                                                        remove_features) ;;
                  reduced_test <- lift (np_delete_cols_py test_matrix
                                                          remove_features) ;;
                  p <- make_prediction reduced_train reduced_test train_target
                                       test_target false ;;
                  v <- validation_average p ;;
                  let st1 := if fltb v (fst (fst st))
                             then (v, Some (Z.of_nat s), snd st) else st in
                  if 1 <? s then
                    pcar <- pca_opt s reduced_train reduced_test train_target
                                    test_target ;;
                    ret (fst st1, Some pcar)
                  else ret st1)
               (best_p1, best_size, None) ;;
       _ <- lift (shape1 train_matrix) ;;
       _ <- deref (snd st) ;;
       ret (snd (fst st))
     else ret best_size) ;;
  let remove_features := slice_from best_size mo in
  train_matrix <- lift (np_delete_cols train_matrix remove_features) ;;
  test_matrix <-
    match test_matrix with
    | PyNone => ret PyNone
    | _ => lift (np_delete_cols_py test_matrix remove_features)
    end ;;
  ret (feature_names, train_matrix, test_matrix).

Definition build_model (train_matrix : Matrix F) (train_target : list F)
    (feature_names : option (list string)) (test_matrix : pyarray F)
    (test_target : option (list F)) (limit : option nat)
  : M (list string * Matrix F * pyarray F) :=
  c <- call CleanZero (clean_zero train_matrix test_matrix) ;;
  let test_matrix := snd (fst c) in
  let train_matrix := fst (fst c) in
  feature_names <-
    match feature_names with
    | Some names => names' <- lift (np_delete names (snd c)) ;; ret (Some names')
    | None => ret None
    end ;;
  std <- call Standardize (standardize train_matrix test_matrix) ;;
  let test_matrix := snd std in
  let train_matrix := fst std in
  self <- get ;;
  match size self with
  | Some sz =>
      d <- lift (shape1 train_matrix) ;;
      assert (sz <? Z.of_nat d)%Z
  | None => ret tt
  end ;;
  (if initial_prediction self then
     p <- make_prediction train_matrix test_matrix train_target test_target
                          false ;;
     _ <- validation_average p ;;
     ret tt
   else ret tt) ;;
  reduce_matrix train_matrix train_target feature_names test_matrix
                test_target limit.

Definition db_store (type : string) (atoms_id : option (list string))
    (feature_matrix : pyarray F) (target : option (list F))
    (feature_names : option (list string)) (table : string) : M unit :=
  atoms_id <- match atoms_id with
              | None => raise TypeError
              | Some ids => ret (map (fun i => [CId i]) ids)
              end ;;
  dmat <- match feature_matrix with
          | Arr2d m => lift (concat_cols atoms_id (map (map CNum) m))
          | _ => raise ValueError
          end ;;
  target <- match target with
            | None => raise TypeError
            | Some t => ret (map (fun i => [CNum i]) t)
            end ;;
  dmat <- lift (concat_cols dmat target) ;;
  dnames <- match feature_names with
            | None => raise TypeError
            | Some names => ret (names ++ ["target"])
            end ;;
  self <- get ;;
  let db := type +:+ "_" +:+ db_name self in
  call (CreateDb db table) (create_db db table dnames) ;;
  call (FillDb db table) (fill_db db table dnames dmat).

Definition to_pyarray (m : option (Matrix F)) : pyarray F :=
  match m with
  | None => PyNone
  | Some m => Arr2d m
  end.

Definition default_names (d : nat) : list string :=
  map (fun i => "f" +:+ pretty i) (seq 0 d).

(** The value of [from_matrix] is [None] when control falls off its end. *)
Definition from_matrix (train_matrix : Matrix F) (train_target : list F)
    (feature_names : option (list string)) (train_id : option (list string))
    (test_matrix : option (Matrix F)) (test_id : option (list string))
    (test_target : option (list F)) (build : bool)
  : M (option (list string * Matrix F * pyarray F)) :=
  feature_names <- match feature_names with
                   | Some names => ret names
                   | None => d <- lift (shape1 train_matrix) ;;
                             ret (default_names d)
                   end ;;
  self <- get ;;
  (if update_train_db self then
     db_store "train" train_id (Arr2d train_matrix) (Some train_target)
              (Some feature_names) "OriginalFeatureSpace"
   else ret tt) ;;
  (if update_test_db self then
     db_store "test" test_id (to_pyarray test_matrix) test_target
              (Some feature_names) "OriginalFeatureSpace"
   else ret tt) ;;
  (if build then
     let limit := shape0 train_matrix in
     d <- lift (shape1 train_matrix) ;;
     let limit := if d <? limit then d else limit in
     im <- build_model train_matrix train_target (Some feature_names)
                       (to_pyarray test_matrix) test_target (Some limit) ;;
     ret tt
   else ret tt) ;;
  if expand self then
    e <- expand_matrix train_matrix (Some feature_names) true ;;
    let train_matrix := fst e in
    let feature_names := snd e in
    (if update_train_db self then
       db_store "train" train_id (Arr2d train_matrix) (Some train_target)
                feature_names "ExpandedFeatureSpace"
     else ret tt) ;;
    match test_matrix with
    | Some test_matrix =>
        e <- expand_matrix test_matrix None false ;;
        let test_matrix := fst e in
        (if update_test_db self then
           db_store "test" test_id (Arr2d test_matrix) test_target
                    feature_names "ExpandedFeatureSpace"
         else ret tt) ;;
        if build then
          r <- build_model train_matrix train_target feature_names
                           (Arr2d test_matrix) test_target
                           (Some (shape0 train_matrix)) ;;
          ret (Some r)
        else ret None
    | None => ret None
    end
  else ret None.

(** [from_atoms], for any kind [A] of atoms objects: [unique_id a] is
    [a.info['unique_id']]. *)
Definition from_atoms {A} (unique_id : A -> res string)
    (train_atoms : list A) (fpv_function : list A -> res (Matrix F))
    (train_target : list F) (build : bool) (test_atoms : option (list A))
    (test_target : option (list F)) (feature_names : option (list string))
  : M (option (list string * Matrix F * pyarray F)) :=
  train_matrix <- lift (fpv_function train_atoms) ;;
  train_id <- lift (res_foldl (fun ids a =>
                                 res_bind (unique_id a)
                                          (fun i => Ok (ids ++ [i])))
                              [] train_atoms) ;;
  tt_ <- match test_atoms with
         | Some test_atoms =>
             test_matrix <- lift (fpv_function test_atoms) ;;
             test_id <- lift (res_foldl (fun ids a =>
                                           res_bind (unique_id a)
                                                    (fun i => Ok (ids ++ [i])))
                                        [] test_atoms) ;;
             ret (Some test_id, Some test_matrix)
         | None => ret (None, None)
         end ;;
  from_matrix train_matrix train_target feature_names (Some train_id)
              (snd tt_) (fst tt_) test_target build.

End Pipeline.

End ModelBuild.

(** ** A concrete instance

    Integer-valued "floats" and simple deterministic collaborators, to run
    the pipeline on small inputs. *)

Module Demo.
Import ModelBuild.

#[export] Instance Z_ops : FloatOps Z :=
  {| fzero := 0%Z;
     fone := 1%Z;
     finf := 1000000000%Z;
     fadd := Z.add;
     fsub := Z.sub;
     fmul := Z.mul;
     fdiv := Z.div;
     fsqrt := Z.sqrt;
     fabs := Z.abs;
     fltb := Z.ltb;
     of_nat := Z.of_nat;
     flog := Z.log2;
     round_int := fun x => x |}.

Definition ncols (m : Matrix Z) : nat := length (hd [] m).

(** Screening keeps the first [size] columns. *)
Definition keep_first (m : Matrix Z) (size : nat) : screen_result :=
  {| accepted := seq 0 (Nat.min size (ncols m));
     rejected := seq size (ncols m - size) |}.

Definition map_py (f : Matrix Z -> Matrix Z) (a : pyarray Z) : pyarray Z :=
  match a with
  | Arr2d m => Arr2d (f m)
  | other => other
  end.

Fixpoint dot (a b : list Z) : Z :=
  match a, b with
  | x :: a', y :: b' => (x * y + dot a' b')%Z
  | _, _ => 0%Z
  end.

#[export] Instance collaborators : Collaborators Z :=
  {| clean_zero := fun train test => Ok (train, test, []);
     standardize := fun train test => Ok (train, test);
     get_predictions := fun _ _ train _ _ _ =>
       Ok {| validation_rmse_average := Some (Z.of_nat (ncols train)) |};
     iterative_screening := fun _ train _ size _ _ _ _ =>
       Ok (keep_first train size);
     rr_screen := fun _ train size _ => Ok (keep_first train size);
     sure_screen := fun _ train size => Ok (keep_first train size);
     find_optimal_regularization := fun _ _ => Ok 1%Z;
     RR := fun train _ _ => Ok (map Z.of_nat (seq 1 (ncols train)));
     lasso := fun _ _ train _ _ _ _ _ =>
       Ok {| linear_error := [1%Z]; min_features := 1;
             order := seq 0 (ncols train) |};
     pca := fun c train test =>
       Ok (map (take c) train, map_py (map (take c)) test);
     minimize := fun theta _ _ _ => Ok theta;
     get_order_2 := fun m => Ok (map (map (fun x => x * x)%Z) m);
     get_div_order_2 := fun m => Ok (map (map (fun _ => 1%Z)) m);
     get_order_2ab := fun m _ _ => Ok (map (fun _ => []) m);
     get_ablog := fun m _ _ => Ok (map (fun _ => []) m);
     get_labels_order_2 := fun names div =>
       match names with
       | Some l => Ok (map (fun x => x +:+ (if div then "/" else "*") +:+ x) l)
       | None => Raise TypeError
       end;
     get_labels_order_2ab := fun _ _ _ => Ok [];
     get_labels_ablog := fun _ _ _ => Ok [];
     np_dot := fun a b =>
       if length a =? length b then Ok (dot a b) else Raise ValueError;
     create_db := fun _ _ _ => Ok tt;
     fill_db := fun _ _ _ _ => Ok tt |}.

(** [ModelBuilder(update_train_db=False, update_test_db=False, expand=...,
    optimize=..., size=...)], the other arguments at their defaults. *)
Definition builder (expand optimize : bool) (size : option Z) : self Z :=
  {| update_train_db := false;
     update_test_db := false;
     db_name := "fpv_store.sqlite";
     screening_method := "rrcs";
     screening_correlation := "kendall";
     initial_prediction := true;
     clean_features := true;
     expand := expand;
     optimize := optimize;
     size := size;
     width := Scalar 1%Z;
     regularization := Scalar 1%Z |}.

Definition names2 : list string := ["f0"; "f1"].

(** Three candidates with two features, and a test set of one candidate. *)
Definition train32 : Matrix Z := [[10; 20]; [30; 40]; [50; 60]]%Z.
Definition target3 : list Z := [1; 2; 3]%Z.
Definition test12 : Matrix Z := [[70; 80]]%Z.
Definition test_target1 : list Z := [4]%Z.

(** One candidate with two features: more features than candidates. *)
Definition train12 : Matrix Z := [[10; 20]]%Z.
Definition target1 : list Z := [1]%Z.

(** [ModelBuilder(update_train_db=..., update_test_db=...,
    screening_method=..., expand=False, optimize=False, size=1)] *)
Definition storing (train_db test_db : bool) (method : string) : self Z :=
  {| update_train_db := train_db;
     update_test_db := test_db;
     db_name := "fpv_store.sqlite";
     screening_method := method;
     screening_correlation := "kendall";
     initial_prediction := true;
     clean_features := true;
     expand := false;
     optimize := false;
     size := Some 1%Z;
     width := Scalar 1%Z;
     regularization := Scalar 1%Z |}.

(** Three candidates with three features. *)
Definition train33 : Matrix Z := [[10; 20; 30]; [40; 50; 60]; [70; 80; 90]]%Z.
Definition test13 : Matrix Z := [[15; 25; 35]]%Z.

(** Atoms objects reduced to their [info]: the [unique_id], if any. *)
Definition unique_id (a : option string) : res string :=
  match a with
  | Some i => Ok i
  | None => Raise KeyError
  end.

Definition two_features (atoms : list (option string)) : res (Matrix Z) :=
  Ok (map (fun _ => [1; 2]%Z) atoms).

End Demo.

(** * Facts about the connectivity graph *)

Module GraphFacts.
Import Graph.
Local Open Scope Q_scope.

Ltac forall_list tac :=
  repeat (apply List.Forall_cons; [tac|]); try apply List.Forall_nil.

(** ** Generalized coordination *)

Example generalized_matrix_chain3 :
  generalized_matrix chain3 = [1 # 12; 4 # 12; 1 # 12].
Proof. reflexivity. Qed.

(** A loop that adds [g j] at every selected index adds the common value
    of the [g j] once per selected index. *)
Lemma foldl_add_selected (P : nat -> bool) (g : nat -> Q) (v : Q) (l : list nat) :
  (forall j, In j l -> P j = true -> g j == v) ->
  forall acc,
    foldl (fun tot j => if P j then tot + g j else tot) acc l
    == acc + inject_Z (Z.of_nat (length (List.filter P l))) * v.
Proof.
  induction l as [|a l IH]; intros Hg acc; simpl.
  - ring.
  - rewrite IH by (intros j Hj; apply Hg; now right).
    destruct (P a) eqn:Pa; simpl length.
    + rewrite (Hg a (or_introl eq_refl) Pa).
      rewrite Nat2Z.inj_succ, <- Z.add_1_r, inject_Z_plus. ring.
    + ring.
Qed.

Lemma filter_map_length {A B} (p : B -> bool) (f : A -> B) (l : list A) :
  length (List.filter p (map f l)) = length (List.filter (fun x => p (f x)) l).
Proof.
  induction l as [|a l IH]; simpl; [reflexivity|].
  destruct (p (f a)); simpl; now rewrite IH.
Qed.

(** Counting the selected positions of a row counts its selected entries. *)
Lemma filter_positions_length (p : Q -> bool) (row : list Q) :
  length (List.filter (fun j => p (nth j row 0)) (seq 0 (length row)))
  = length (List.filter p row).
Proof.
  induction row as [|x row IH]; simpl; [reflexivity|].
  rewrite <- seq_shift.
  destruct (p x); simpl length; rewrite filter_map_length; simpl; now rewrite IH.
Qed.

Lemma sum_from (acc : Q) (row : list Q) :
  foldl Qplus acc row == acc + sum row.
Proof.
  unfold sum. revert acc.
  induction row as [|x row IH]; intros acc; simpl.
  - ring.
  - rewrite (IH (acc + x)), (IH (0 + x)). ring.
Qed.

(** The sum of a 0/1 row is its coordination. *)
Lemma sum_binary_row (row : list Q) :
  Forall (fun x => x == 0 \/ x == 1) row ->
  sum row == inject_Z (Z.of_nat (coordination row)).
Proof.
  unfold coordination.
  induction 1 as [|x row Hx _ IH].
  - reflexivity.
  - unfold sum. simpl foldl. rewrite sum_from, IH. simpl List.filter.
    destruct Hx as [Hx|Hx].
    + apply Qeq_bool_iff in Hx as Hb. rewrite Hb. simpl. rewrite Hx. ring.
    + assert (Hb : Qeq_bool x 0 = false).
      { destruct (Qeq_bool x 0) eqn:E; [|reflexivity].
        apply Qeq_bool_iff in E. rewrite Hx in E. discriminate E. }
      rewrite Hb. simpl length.
      rewrite Nat2Z.inj_succ, <- Z.add_1_r, inject_Z_plus, Hx. ring.
Qed.

(** What the loop of [generalized_matrix] computes for one row: the number
    of non-zero entries times the sum of the row, over 12. *)
Lemma generalized_row (row : list Q) :
  foldl (fun tot j => if negb (Qeq_bool (nth j row 0) 0) then tot + sum row else tot)
        0 (seq 0 (length row)) / 12
  == inject_Z (Z.of_nat (coordination row)) * sum row / 12.
Proof.
  rewrite (foldl_add_selected (fun j => nonzero (nth j row 0))
             (fun _ => sum row) (sum row)) by reflexivity.
  unfold nonzero. rewrite (filter_positions_length (fun x => negb (Qeq_bool x 0))).
  unfold coordination. field.
Qed.

Lemma generalized_binary_row (row : list Q) :
  Forall (fun x => x == 0 \/ x == 1) row ->
  foldl (fun tot j => if negb (Qeq_bool (nth j row 0) 0) then tot + sum row else tot)
        0 (seq 0 (length row)) / 12
  == inject_Z (Z.of_nat (coordination row * coordination row)) / 12.
Proof.
  intros Hb. rewrite generalized_row, (sum_binary_row row Hb).
  rewrite Nat2Z.inj_mul, inject_Z_mult. reflexivity.
Qed.

Lemma inject_nat_nonneg (n : nat) : 0 <= inject_Z (Z.of_nat n).
Proof.
  change 0 with (inject_Z 0). rewrite <- Zle_Qle. lia.
Qed.

Lemma generalized_nonneg (cm : list (list Q)) :
  binary cm -> Forall (fun v => 0 <= v) (generalized_matrix cm).
Proof.
  unfold binary, generalized_matrix. intros Hb.
  apply List.Forall_map. eapply List.Forall_impl; [|exact Hb].
  intros row Hrow. simpl. rewrite (generalized_binary_row row Hrow).
  apply Qle_shift_div_l; [reflexivity|].
  rewrite Qmult_0_l. apply inject_nat_nonneg.
Qed.

(** On a graph whose atoms all have coordination [k], the loop of the
    specification's formula gives the same total for a row as the code's. *)
Lemma spec_regular_row (cm : list (list Q)) (k : nat) (row : list Q) :
  binary cm -> square cm ->
  Forall (fun r => coordination r = k) cm ->
  length row = length cm ->
  foldl (fun tot j => if negb (Qeq_bool (nth j row 0) 0)
                      then tot + sum (nth j cm []) else tot)
        0 (seq 0 (length row)) / 12
  == inject_Z (Z.of_nat (coordination row)) * inject_Z (Z.of_nat k) / 12.
Proof.
  intros Hb Hsq Hk Hlen.
  rewrite (foldl_add_selected (fun j => nonzero (nth j row 0))
             (fun j => sum (nth j cm [])) (inject_Z (Z.of_nat k))).
  - unfold nonzero.
    rewrite (filter_positions_length (fun x => negb (Qeq_bool x 0))).
    unfold coordination. field.
  - intros j Hj _. apply in_seq in Hj. simpl in Hj.
    assert (Hin : In (nth j cm []) cm) by (apply nth_In; lia).
    unfold binary in Hb. rewrite Forall_forall in Hb, Hk.
    rewrite (sum_binary_row _ (Hb _ (proj2 (list_elem_of_In _ _) Hin))).
    rewrite (Hk _ (proj2 (list_elem_of_In _ _) Hin)). reflexivity.
Qed.

(** ** Neighbour lists and the connection matrix *)

(** In [line3], with radii 1/2 and buffer 0.2, only the atoms at 0 and 1
    are within 1.2 of each other. *)
Example neighborlist_line3 :
  get_neighborlist half_radii line3 (2 # 10) 1
  = <[2%nat := []]> (<[1%nat := [0%nat]]> (<[0%nat := [1%nat]]> ∅)).
Proof. reflexivity. Qed.

Example connection_matrix_line3 :
  connection_matrix half_radii line3 (2 # 10)
  = Ok [[0; 1; 0]; [1; 0; 0]; [0; 0; 0]].
Proof. reflexivity. Qed.

(** In [diagonal4] consecutive atoms are sqrt(5) > 2.2 apart: nobody has a
    neighbour. *)
Example connection_matrix_diagonal4 :
  connection_matrix unit_radii diagonal4 (2 # 10)
  = Ok [[0; 0; 0; 0]; [0; 0; 0; 0]; [0; 0; 0; 0]; [0; 0; 0; 0]].
Proof. reflexivity. Qed.

(** A structure that has no ['key_value_pairs'] in its [info]. *)
Example connection_matrix_without_info :
  connection_matrix unit_radii
    {| sites := sites diagonal4; info_key_value_pairs := None |} (2 # 10)
  = Raise KeyError.
Proof. reflexivity. Qed.

Lemma Qltb_ext (a b a' b' : Q) : a == a' -> b == b' -> Qltb a b = Qltb a' b'.
Proof.
  intros Ha Hb. unfold Qltb. f_equal. now apply Qleb_comp.
Qed.

Lemma dist_gt_ext (d d' : dist) (m m' : Q) :
  radicand d == radicand d' -> m == m' -> dist_gt d m = dist_gt d' m'.
Proof.
  intros Hd Hm. unfold dist_gt.
  rewrite (Qltb_ext m 0 m' 0), (Qltb_ext (m * m) (radicand d) (m' * m') (radicand d'));
    try assumption; try reflexivity.
  now rewrite Hm.
Qed.

Lemma dist_lt_ext (d d' : dist) (m m' : Q) :
  radicand d == radicand d' -> m == m' -> dist_lt d m = dist_lt d' m'.
Proof.
  intros Hd Hm. unfold dist_lt.
  rewrite (Qltb_ext 0 m 0 m'), (Qltb_ext (radicand d) (m * m) (radicand d') (m' * m'));
    try assumption; try reflexivity.
  now rewrite Hm.
Qed.

Lemma Qltb_lt (a b : Q) : Qltb a b = true <-> a < b.
Proof.
  unfold Qltb. rewrite negb_true_iff. split.
  - intros Hb. apply Qnot_le_lt. intros Hle.
    apply Qle_bool_iff in Hle. congruence.
  - intros Hlt. destruct (Qle_bool b a) eqn:E; [|reflexivity].
    apply Qle_bool_iff in E. exfalso. exact (Qlt_not_le _ _ Hlt E).
Qed.

(** The two comparisons of a distance [sqrt q], read on the rationals. *)
Lemma dist_gt_zero (d : dist) : dist_gt d 0 = true <-> 0 < radicand d.
Proof.
  unfold dist_gt. rewrite orb_true_iff, !Qltb_lt. split.
  - intros [Hlt|Hlt]; [discriminate Hlt|exact Hlt].
  - intros Hlt. right. exact Hlt.
Qed.

Lemma dist_lt_bound (d : dist) (m : Q) :
  dist_lt d m = true <-> 0 < m /\ radicand d < m * m.
Proof. unfold dist_lt. now rewrite andb_true_iff, !Qltb_lt. Qed.

Lemma norm_vsub_sym (p q : vec3) :
  radicand (norm (vsub p q)) == radicand (norm (vsub q p)).
Proof.
  destruct p as [[px py] pz], q as [[qx qy] qz]. simpl. ring.
Qed.

Lemma norm_vsub_self (p : vec3) : radicand (norm (vsub p p)) == 0.
Proof.
  destruct p as [[px py] pz]. simpl. ring.
Qed.

(** An atom is at distance zero from itself, which is not above zero. *)
Lemma dist_gt_self (p : vec3) : dist_gt (norm (vsub p p)) 0 = false.
Proof.
  rewrite (dist_gt_ext _ (Sqrt 0) 0 0); [reflexivity| |reflexivity].
  apply norm_vsub_self.
Qed.

Lemma inner_loop (p : Atom -> bool) (l : list Atom) (acc : list nat) :
  foldl (fun acc atomj => if p atomj then acc ++ [index atomj] else acc) acc l
  = acc ++ map index (List.filter p l).
Proof.
  revert acc. induction l as [|a l IH]; intros acc; simpl.
  - now rewrite app_nil_r.
  - rewrite IH. destruct (p a); simpl; [|reflexivity].
    now rewrite <- app_assoc.
Qed.

Lemma outer_loop_other (g : Atom -> list nat) (l : list Atom)
    (conn : gmap nat (list nat)) (k : nat) :
  ~ In k (map index l) ->
  foldl (fun conn a => <[index a := g a]> conn) conn l !! k = conn !! k.
Proof.
  revert conn. induction l as [|a l IH]; intros conn Hk; simpl; [reflexivity|].
  rewrite IH by (intros Hin; apply Hk; now right).
  apply lookup_insert_ne. intros E. apply Hk. now left.
Qed.

Lemma outer_loop_lookup (g : Atom -> list nat) (l : list Atom)
    (conn : gmap nat (list nat)) (a : Atom) :
  List.NoDup (map index l) -> In a l ->
  foldl (fun conn a => <[index a := g a]> conn) conn l !! index a = Some (g a).
Proof.
  revert conn. induction l as [|b l IH]; intros conn Hnd Hin; [destruct Hin|].
  simpl in Hnd. apply List.NoDup_cons_iff in Hnd as [Hb Hnd].
  destruct Hin as [->|Hin]; simpl.
  - rewrite outer_loop_other by exact Hb. apply lookup_insert_eq.
  - now apply IH.
Qed.

Lemma imap_indices (l : list (vec3 * nat)) (n : nat) :
  map index (imap (fun i s => {| index := n + i; position := fst s;
                                 number := snd s |}) l)
  = seq n (length l).
Proof.
  revert n. induction l as [|s l IH]; intros n; [reflexivity|].
  rewrite imap_cons. simpl. rewrite Nat.add_0_r. f_equal.
  rewrite <- (IH (S n)). f_equal. apply imap_ext.
  intros i x _. simpl. f_equal. lia.
Qed.

Lemma iter_atoms_indices (atoms : Atoms) :
  map index (iter_atoms atoms) = seq 0 (length (sites atoms)).
Proof. apply (imap_indices (sites atoms) 0). Qed.

Lemma iter_atoms_NoDup (atoms : Atoms) : List.NoDup (map index (iter_atoms atoms)).
Proof. rewrite iter_atoms_indices. apply List.seq_NoDup. Qed.

Lemma iter_atoms_lookup (atoms : Atoms) (i : nat) (a : Atom) :
  iter_atoms atoms !! i = Some a -> index a = i /\ In a (iter_atoms atoms).
Proof.
  intros Hi. split.
  - unfold iter_atoms in Hi. rewrite list_lookup_imap in Hi.
    destruct (sites atoms !! i); simpl in Hi; [|discriminate].
    injection Hi as <-. reflexivity.
  - apply list_elem_of_In, list_elem_of_lookup. now exists i.
Qed.

Lemma index_inj (l : list Atom) (a b : Atom) :
  List.NoDup (map index l) -> In a l -> In b l -> index a = index b -> a = b.
Proof.
  induction l as [|c l IH]; intros Hnd Ha Hb E; [destruct Ha|].
  simpl in Hnd. apply List.NoDup_cons_iff in Hnd as [Hc Hnd].
  destruct Ha as [->|Ha], Hb as [->|Hb]; try reflexivity.
  - exfalso. apply Hc. rewrite E. now apply in_map.
  - exfalso. apply Hc. rewrite <- E. now apply in_map.
  - now apply IH.
Qed.

(** Among atoms with distinct indices, the indices of the selected atoms
    tell which atoms are selected. *)
Lemma selected_index (p : Atom -> bool) (l : list Atom) (a : Atom) :
  List.NoDup (map index l) -> In a l ->
  In (index a) (map index (List.filter p l)) <-> p a = true.
Proof.
  intros Hnd Ha. split.
  - intros Hin. apply in_map_iff in Hin as [b [E Hb]].
    apply List.filter_In in Hb as [Hb Hp].
    now rewrite <- (index_inj l b a Hnd Hb Ha E).
  - intros Hp. apply in_map. apply List.filter_In. now split.
Qed.

Section WithRadii.
Variable covalent_radii : nat -> Q.

Lemma get_neighborlist_lookup (atoms : Atoms) (dx : Q) (nn : Z) (a : Atom) :
  In a (iter_atoms atoms) ->
  get_neighborlist covalent_radii atoms dx nn !! index a
  = Some (map index (List.filter (is_neighbor covalent_radii dx nn a)
                                 (iter_atoms atoms))).
Proof.
  intros Ha. unfold get_neighborlist.
  rewrite (outer_loop_lookup
             (fun atomi =>
                foldl (fun acc atomj =>
                         if is_neighbor covalent_radii dx nn atomi atomj
                         then acc ++ [index atomj] else acc)
                      [] (iter_atoms atoms))
             _ _ a (iter_atoms_NoDup atoms) Ha).
  now rewrite inner_loop.
Qed.

Lemma is_neighbor_sym (dx : Q) (nn : Z) (a b : Atom) :
  is_neighbor covalent_radii dx nn a b = is_neighbor covalent_radii dx nn b a.
Proof.
  unfold is_neighbor. rewrite (Nat.eqb_sym (index b) (index a)).
  destruct (index a =? index b)%nat; simpl; [reflexivity|].
  f_equal.
  - apply dist_gt_ext; [apply norm_vsub_sym|].
    unfold d_max1. destruct (nn =? 1)%Z; [reflexivity|]. ring.
  - apply dist_lt_ext; [apply norm_vsub_sym|]. unfold d_max2. ring.
Qed.

(** The first-shell test, for two atoms of one structure, is the distance
    test alone: an atom is never within [0 < d] of itself. *)
Lemma is_neighbor_first_shell (atoms : Atoms) (dx : Q) (a b : Atom) :
  In a (iter_atoms atoms) -> In b (iter_atoms atoms) ->
  is_neighbor covalent_radii dx 1 a b
  = dist_gt (norm (vsub (position a) (position b))) 0
    && dist_lt (norm (vsub (position a) (position b)))
               ((covalent_radii (number a) + covalent_radii (number b)) + dx).
Proof.
  intros Ha Hb. unfold is_neighbor.
  destruct (index a =? index b)%nat eqn:E; simpl.
  - apply Nat.eqb_eq in E.
    rewrite (index_inj _ a b (iter_atoms_NoDup atoms) Ha Hb E).
    now rewrite dist_gt_self.
  - f_equal. apply dist_lt_ext; [reflexivity|]. unfold d_max2. ring.
Qed.

End WithRadii.

Lemma res_foldl_snoc {A B} (body : list A -> B -> res (list A)) (h : B -> A)
    (l : list B) :
  (forall acc x, In x l -> body acc x = Ok (acc ++ [h x])) ->
  forall acc, res_foldl body acc l = Ok (acc ++ map h l).
Proof.
  induction l as [|x l IH]; intros Hb acc; simpl.
  - now rewrite app_nil_r.
  - rewrite (Hb acc x (or_introl eq_refl)). simpl.
    rewrite IH by (intros acc' y Hy; apply Hb; now right).
    now rewrite <- app_assoc.
Qed.

Lemma mem_nat_In (j : nat) (l : list nat) : mem_nat j l = true <-> In j l.
Proof.
  unfold mem_nat. rewrite existsb_exists. split.
  - intros [x [Hx E]]. apply Nat.eqb_eq in E. now subst.
  - intros Hj. exists j. split; [assumption|apply Nat.eqb_refl].
Qed.

Section FirstShell.
Variable covalent_radii : nat -> Q.

(** Without a cached neighbour list, the connection matrix has a 1 exactly
    where the first-shell test of [get_neighborlist] succeeds. *)
Lemma connection_matrix_computed (atoms : Atoms) (dx : Q) (kvp : key_value_pairs) :
  info_key_value_pairs atoms = Some kvp -> neighborlist kvp = None ->
  connection_matrix covalent_radii atoms dx
  = Ok (map (fun ai =>
               map (fun aj => if is_neighbor covalent_radii dx 1 ai aj
                              then 1 else 0) (iter_atoms atoms))
            (iter_atoms atoms)).
Proof.
  intros Hinfo Hnl. unfold connection_matrix. rewrite Hinfo, Hnl.
  set (nl := get_neighborlist covalent_radii atoms dx 1).
  set (r := seq 0 (length (sites atoms))).
  set (h := fun i => map (fun j => if mem_nat j (default [] (nl !! i))
                                   then 1 else 0) r).
  rewrite (res_foldl_snoc _ h).
  - simpl. f_equal. unfold r. rewrite <- iter_atoms_indices, map_map.
    apply map_ext_in. intros a Ha. unfold h, r.
    rewrite <- iter_atoms_indices, map_map. apply map_ext_in. intros b Hb.
    unfold nl. rewrite (get_neighborlist_lookup covalent_radii atoms dx 1 a Ha).
    simpl.
    pose proof (selected_index (is_neighbor covalent_radii dx 1 a)
                  (iter_atoms atoms) b (iter_atoms_NoDup atoms) Hb) as Hsel.
    rewrite <- mem_nat_In in Hsel.
    destruct (mem_nat _ _), (is_neighbor covalent_radii dx 1 a b);
      try reflexivity.
    + discriminate (proj1 Hsel eq_refl).
    + discriminate (proj2 Hsel eq_refl).
  - intros acc i Hi.
    assert (Hsome : exists nli, nl !! i = Some nli).
    { unfold r in Hi. rewrite <- iter_atoms_indices in Hi.
      apply in_map_iff in Hi as [a [<- Ha]]. unfold nl.
      rewrite (get_neighborlist_lookup covalent_radii atoms dx 1 a Ha).
      eauto. }
    destruct Hsome as [nli Hnli].
    rewrite (res_foldl_snoc _ (fun j => if mem_nat j nli then 1 else 0)).
    + simpl. unfold h. now rewrite Hnli.
    + intros x j _. now rewrite Hnli.
Qed.

(** C4. With [neighbor_number = 1] and buffer [dx], atom [j] is in the
    neighbour list of atom [i] exactly when their distance [d] satisfies
    [0 < d < (r_i + r_j) + dx]; the connection matrix built from that list
    (the structure carries no cached list) is binary, symmetric and has a
    zero diagonal. *)
Theorem first_shell_neighbors_symmetric
    (atoms : Atoms) (dx : Q) (kvp : key_value_pairs) (i j : nat) (ai aj : Atom) :
  iter_atoms atoms !! i = Some ai ->
  iter_atoms atoms !! j = Some aj ->
  info_key_value_pairs atoms = Some kvp ->
  neighborlist kvp = None ->
  let d := norm (vsub (position ai) (position aj)) in
  let r_i := covalent_radii (number ai) in
  let r_j := covalent_radii (number aj) in
  exists (nli : list nat) (cm : list (list Q)) (c : Q),
    get_neighborlist covalent_radii atoms dx 1 !! i = Some nli
    /\ (In j nli <-> dist_gt d 0 = true /\ dist_lt d ((r_i + r_j) + dx) = true)
    /\ connection_matrix covalent_radii atoms dx = Ok cm
    /\ entry cm i j = Some c
    /\ entry cm j i = Some c
    /\ entry cm i i = Some 0
    /\ c = (if mem_nat j nli then 1 else 0).
Proof.
  intros Hi Hj Hinfo Hnl d r_i r_j.
  destruct (iter_atoms_lookup atoms i ai Hi) as [Ei Hai].
  destruct (iter_atoms_lookup atoms j aj Hj) as [Ej Haj].
  pose proof (get_neighborlist_lookup covalent_radii atoms dx 1 ai Hai) as Hlist.
  rewrite Ei in Hlist.
  pose proof (selected_index (is_neighbor covalent_radii dx 1 ai)
                (iter_atoms atoms) aj (iter_atoms_NoDup atoms) Haj) as Hsel.
  rewrite Ej in Hsel.
  eexists _, _, (if is_neighbor covalent_radii dx 1 ai aj then 1 else 0).
  split; [exact Hlist|].
  split.
  { rewrite Hsel, (is_neighbor_first_shell covalent_radii atoms dx ai aj Hai Haj).
    apply andb_true_iff. }
  split; [exact (connection_matrix_computed atoms dx kvp Hinfo Hnl)|].
  unfold entry. rewrite !list_lookup_fmap, Hi, Hj. simpl.
  rewrite !list_lookup_fmap, Hi, Hj. simpl.
  repeat split.
  - now rewrite (is_neighbor_sym covalent_radii dx 1 aj ai).
  - unfold is_neighbor. now rewrite Nat.eqb_refl.
  - rewrite <- mem_nat_In in Hsel.
    destruct (mem_nat _ _), (is_neighbor covalent_radii dx 1 ai aj);
      try reflexivity.
    + discriminate (proj1 Hsel eq_refl).
    + discriminate (proj2 Hsel eq_refl).
Qed.

End FirstShell.

(** The first two atoms of [line3] are neighbours of each other. *)
Lemma first_shell_neighbors_symmetric_witness :
  exists (nli : list nat) (cm : list (list Q)) (c : Q),
    get_neighborlist half_radii line3 (2 # 10) 1 !! 0%nat = Some nli
    /\ (In 1%nat nli <->
        dist_gt (norm (vsub (0, 0, 0) (1, 0, 0))) 0 = true
        /\ dist_lt (norm (vsub (0, 0, 0) (1, 0, 0)))
                   ((half_radii 1 + half_radii 1) + (2 # 10)) = true)
    /\ connection_matrix half_radii line3 (2 # 10) = Ok cm
    /\ entry cm 0 1 = Some c
    /\ entry cm 1 0 = Some c
    /\ entry cm 0 0 = Some 0
    /\ c = (if mem_nat 1 nli then 1 else 0).
Proof.
  apply (first_shell_neighbors_symmetric half_radii line3 (2 # 10)
           {| neighborlist := None |} 0 1
           {| index := 0; position := (0, 0, 0); number := 1 |}
           {| index := 1; position := (1, 0, 0); number := 1 |});
    reflexivity.
Defined.

(** ** Generalized coordination: the results *)

(** C3, as amended.  For every binary connectivity matrix every
    generalized-coordination value is non-negative; when every atom has the
    same coordination [k], the value of each atom is [k * k / 12], which is
    there the sum of the connected atoms' coordination over 12; for
    coordination 12 it is 12. *)
Theorem generalized_matrix_regular (cm : list (list Q)) :
  binary cm ->
  Forall (fun v => 0 <= v) (generalized_matrix cm)
  /\ forall k : nat,
       square cm -> Forall (fun row => coordination row = k) cm ->
       Forall (fun v => v == inject_Z (Z.of_nat (k * k)) / 12)
              (generalized_matrix cm)
       /\ Forall2 Qeq (generalized_matrix cm) (spec_generalized cm)
       /\ (k = 12%nat -> Forall (fun v => v == 12) (generalized_matrix cm)).
Proof.
  intros Hb. split; [now apply generalized_nonneg|].
  intros k Hsq Hk.
  assert (Hval : Forall (fun v => v == inject_Z (Z.of_nat (k * k)) / 12)
                        (generalized_matrix cm)).
  { unfold generalized_matrix. apply List.Forall_map.
    unfold binary in Hb. rewrite Forall_forall in Hb, Hk.
    apply Forall_forall. intros row Hrow. simpl.
    rewrite (generalized_binary_row row (Hb row Hrow)).
    now rewrite (Hk row Hrow). }
  split; [exact Hval|]. split.
  - unfold generalized_matrix, spec_generalized.
    apply Forall2_fmap, Forall_Forall2_diag, Forall_forall.
    intros row Hrow. simpl.
    pose proof (proj1 (Forall_forall _ _) Hb row Hrow) as Hbrow.
    pose proof (proj1 (Forall_forall _ _) Hk row Hrow) as Hkrow.
    pose proof (proj1 (Forall_forall _ _) Hsq row Hrow) as Hlen.
    rewrite (generalized_binary_row row Hbrow).
    rewrite (spec_regular_row cm k row Hb Hsq Hk Hlen).
    rewrite Hkrow, Nat2Z.inj_mul, inject_Z_mult. reflexivity.
  - intros ->. eapply List.Forall_impl; [|exact Hval].
    intros v Hv. rewrite Hv. reflexivity.
Qed.

(** The fully connected cluster of 13 atoms, where every atom has
    coordination 12. *)
Lemma generalized_matrix_regular_witness :
  Forall (fun v => 0 <= v) (generalized_matrix (complete_graph 13))
  /\ Forall (fun v => v == 12) (generalized_matrix (complete_graph 13))
  /\ Forall2 Qeq (generalized_matrix (complete_graph 13))
             (spec_generalized (complete_graph 13)).
Proof.
  assert (Hb : binary (complete_graph 13)).
  { unfold binary, complete_graph. simpl.
    forall_list ltac:(forall_list ltac:((left; reflexivity) || (right; reflexivity))). }
  assert (Hsq : square (complete_graph 13)).
  { unfold square, complete_graph. simpl. forall_list ltac:(reflexivity). }
  assert (Hk : Forall (fun row => coordination row = 12%nat) (complete_graph 13)).
  { unfold complete_graph. simpl. forall_list ltac:(reflexivity). }
  destruct (generalized_matrix_regular (complete_graph 13) Hb) as [Hnn Hreg].
  destruct (Hreg 12%nat Hsq Hk) as [_ [Hspec H12]].
  split; [exact Hnn|]. split; [exact (H12 eq_refl)|exact Hspec].
Defined.

(** C3, as stated, fails twice.  In the fully connected cluster of 13
    atoms every atom has coordination 12 and value 12, not 1.  In a chain
    of three atoms the value of an end atom is 1/12, while the sum of its
    connected atoms' coordination over 12 is 2/12. *)
Lemma generalized_matrix_counterexample :
  Forall (fun row => coordination row = 12%nat) (complete_graph 13)
  /\ Forall (fun v => v == 12 /\ ~ v == 1) (generalized_matrix (complete_graph 13))
  /\ generalized_matrix chain3 = [1 # 12; 4 # 12; 1 # 12]
  /\ spec_generalized chain3 = [2 # 12; 2 # 12; 2 # 12]
  /\ ~ Forall2 Qeq (generalized_matrix chain3) (spec_generalized chain3).
Proof.
  split; [unfold complete_graph; simpl; forall_list ltac:(reflexivity)|].
  split.
  { unfold complete_graph, generalized_matrix. simpl.
    forall_list ltac:(split; [reflexivity|intros E; discriminate E]). }
  split; [reflexivity|]. split; [reflexivity|].
  intros Hf. apply Forall2_cons_1 in Hf as [E _]. discriminate E.
Qed.

End GraphFacts.

(** * Facts about the model-building pipeline *)

Module ModelBuildFacts.
Import ModelBuild.
Local Open Scope py_scope.

(** ** Arrays *)

Example delete_columns :
  np_delete_cols [[10; 20; 30]; [40; 50; 60]] [2; 0] = Ok [[20]; [50]].
Proof. reflexivity. Qed.

Example delete_past_the_end :
  np_delete ["f0"; "f1"] [2] = Raise IndexError.
Proof. reflexivity. Qed.

Example slice_from_None : slice_from None [3; 1; 2] = [3; 1; 2].
Proof. reflexivity. Qed.

Example slice_from_positive : slice_from (Some 1%Z) [3; 1; 2] = [1; 2].
Proof. reflexivity. Qed.

Example slice_from_negative : slice_from (Some (-1)%Z) [3; 1; 2] = [2].
Proof. reflexivity. Qed.

(** ** The monad *)

Section Monad.
Context {F : Type}.

Lemma bind_result {A B} (m : M F A) (f : A -> M F B) (s : self F) :
  result (bind m f s)
  = match result (m s) with
    | Ok a => result (f a (final (m s)))
    | Raise e => Raise e
    end.
Proof. unfold bind. now destruct (result (m s)). Qed.

Lemma bind_emitted {A B} (m : M F A) (f : A -> M F B) (s : self F) :
  emitted (bind m f s)
  = emitted (m s) ++ match result (m s) with
                     | Ok a => emitted (f a (final (m s)))
                     | Raise _ => []
                     end.
Proof.
  unfold bind. destruct (result (m s)); simpl; [reflexivity|].
  now rewrite app_nil_r.
Qed.

Lemma bind_final {A B} (m : M F A) (f : A -> M F B) (s : self F) :
  final (bind m f s)
  = match result (m s) with
    | Ok a => final (f a (final (m s)))
    | Raise _ => final (m s)
    end.
Proof. unfold bind. now destruct (result (m s)). Qed.

(** Running a sequence whose first part is known. *)
Lemma bind_ret {A B} (a : A) (f : A -> M F B) (s : self F) :
  bind (ret a) f s = f a s.
Proof. unfold bind, ret. simpl. now destruct (f a s). Qed.

Lemma bind_lift_ok {A B} (a : A) (f : A -> M F B) (s : self F) :
  bind (lift (Ok a)) f s = f a s.
Proof. unfold bind, lift. simpl. now destruct (f a s). Qed.

Lemma bind_get {B} (f : self F -> M F B) (s : self F) :
  bind get f s = f s s.
Proof. unfold bind, get. simpl. now destruct (f s s). Qed.

Lemma bind_raise {A B} (e : exn) (f : A -> M F B) (s : self F) :
  bind (raise e) f s = raise e s.
Proof. reflexivity. Qed.

Lemma bind_lift_raise {A B} (e : exn) (f : A -> M F B) (s : self F) :
  bind (lift (Raise e)) f s = raise e s.
Proof. reflexivity. Qed.

Lemma bind_call_ok {A B} (ev : event) (a : A) (f : A -> M F B) (s : self F) :
  bind (call ev (Ok a)) f s
  = {| result := result (f a s); final := final (f a s);
       emitted := ev :: emitted (f a s) |}.
Proof. reflexivity. Qed.

Lemma bind_call_raise {A B} (ev : event) (e : exn) (f : A -> M F B) (s : self F) :
  bind (call ev (Raise e)) f s
  = {| result := Raise e; final := s; emitted := [ev] |}.
Proof. reflexivity. Qed.

Lemma bind_assoc {A B C} (m : M F A) (f : A -> M F B) (g : B -> M F C)
    (s : self F) :
  bind (bind m f) g s = bind m (fun a => bind (f a) g) s.
Proof.
  unfold bind. destruct (result (m s)); simpl; [|reflexivity].
  destruct (result (f a (final (m s)))); simpl; [|reflexivity].
  now rewrite app_assoc.
Qed.

(** A successful sequence: both parts succeeded. *)
Lemma bind_ok {A B} (m : M F A) (f : A -> M F B) (s : self F) (b : B) :
  result (bind m f s) = Ok b ->
  exists a, result (m s) = Ok a /\ result (f a (final (m s))) = Ok b.
Proof.
  rewrite bind_result. destruct (result (m s)) as [a|e]; [|discriminate].
  intros Hb. now exists a.
Qed.

Lemma quiet_ret {A} P (a : A) : quiet P (@ret F A a).
Proof. intros s. split; [reflexivity|constructor]. Qed.

Lemma quiet_raise {A} P (e : exn) : quiet P (@raise F A e).
Proof. intros s. split; [reflexivity|constructor]. Qed.

Lemma quiet_lift {A} P (r : res A) : quiet P (@lift F A r).
Proof. intros s. split; [reflexivity|constructor]. Qed.

Lemma quiet_get P : quiet P (@get F).
Proof. intros s. split; [reflexivity|constructor]. Qed.

Lemma quiet_call {A} (P : event -> Prop) (ev : event) (r : res A) :
  P ev -> quiet P (@call F A ev r).
Proof. intros Hev s. split; [reflexivity|]. simpl. now repeat constructor. Qed.

Lemma quiet_deref {A} P (x : option A) : quiet P (@deref F A x).
Proof. destruct x; [apply quiet_ret|apply quiet_raise]. Qed.

Lemma quiet_assert P (b : bool) : quiet P (@assert F b).
Proof. destruct b; [apply quiet_ret|apply quiet_raise]. Qed.

Lemma quiet_bind {A B} P (m : M F A) (f : A -> M F B) :
  quiet P m -> (forall a, quiet P (f a)) -> quiet P (bind m f).
Proof.
  intros Hm Hf s. destruct (Hm s) as [Hfin Hev].
  rewrite bind_final, bind_emitted.
  destruct (result (m s)) as [a|e].
  - rewrite Hfin. destruct (Hf a s) as [Hfin' Hev'].
    split; [exact Hfin'|]. apply Forall_app. now split.
  - split; [exact Hfin|]. now rewrite app_nil_r.
Qed.

Lemma quiet_for_each {A S} P (l : list A) (body : A -> S -> M F S) :
  (forall x acc, quiet P (body x acc)) ->
  forall acc, quiet P (for_each l body acc).
Proof.
  intros Hbody. induction l as [|x l IH]; intros acc; simpl.
  - apply quiet_ret.
  - apply quiet_bind; [apply Hbody|exact IH].
Qed.

End Monad.

(** Splits a [quiet] goal along the structure of the computation; what
    remains are the conditions [P ev] on the recorded calls. *)
Ltac quiet_step :=
  cbv beta zeta;
  lazymatch goal with
  | |- quiet _ (ret _) => apply quiet_ret
  | |- quiet _ (raise _) => apply quiet_raise
  | |- quiet _ (lift _) => apply quiet_lift
  | |- quiet _ get => apply quiet_get
  | |- quiet _ (call _ _) => apply quiet_call
  | |- quiet _ (deref _) => apply quiet_deref
  | |- quiet _ (assert _) => apply quiet_assert
  | |- quiet _ (bind _ _) => apply quiet_bind; [|intros ?]
  | |- quiet _ (for_each _ _ _) => apply quiet_for_each; intros ? ?
  | |- quiet _ (if ?b then _ else _) => destruct b
  | |- quiet _ (match ?x with _ => _ end) => destruct x
  end.

Section Methods.
Context {F : Type} `{FloatOps F} `{Collaborators F}.

(** The call of [hyp_opt] in [make_prediction] does not bind: the keywords
    [width] and [reg] are not parameters of [hyp_opt]. *)
Lemma make_prediction_opt_h (train_matrix : Matrix F) (test_matrix : pyarray F)
    (train_target : list F) (test_target : option (list F)) (s : self F) :
  make_prediction train_matrix test_matrix train_target test_target true s
  = raise TypeError s.
Proof. reflexivity. Qed.

(** *** Methods that neither screen nor tune *)

Section Downstream.
Variable P : event -> Prop.
Hypothesis HP : forall ev, is_screening ev = false -> ev <> Minimize -> P ev.

Ltac event := apply HP; [reflexivity|discriminate].

Lemma quiet_validation_average (p : prediction F) :
  quiet P (validation_average p).
Proof. unfold validation_average. repeat quiet_step. Qed.

Lemma quiet_make_prediction train_matrix test_matrix train_target test_target opt_h :
  quiet P (make_prediction train_matrix test_matrix train_target test_target opt_h).
Proof.
  destruct opt_h.
  - intros s. rewrite make_prediction_opt_h. apply quiet_raise.
  - unfold make_prediction. repeat first [quiet_step | event].
Qed.

Lemma quiet_pca_opt max_comp train_matrix test_matrix train_target test_target :
  quiet P (pca_opt max_comp train_matrix test_matrix train_target test_target).
Proof.
  unfold pca_opt.
  repeat first [apply quiet_make_prediction | apply quiet_validation_average
               | quiet_step | event].
Qed.

Lemma quiet_ridge_regression train_matrix train_target feature_names
    test_matrix test_target :
  quiet P (ridge_regression train_matrix train_target feature_names
                            test_matrix test_target).
Proof. unfold ridge_regression. repeat first [quiet_step | event]. Qed.

Lemma quiet_lasso_opt size train_target train_matrix test_matrix test_target
    alpha max_iter steps :
  quiet P (lasso_opt size train_target train_matrix test_matrix test_target
                     alpha max_iter steps).
Proof. unfold lasso_opt. repeat first [quiet_step | event]. Qed.

Lemma quiet_expand_matrix feature_matrix feature_names return_names :
  quiet P (expand_matrix feature_matrix feature_names return_names).
Proof. unfold expand_matrix. repeat first [quiet_step | event]. Qed.

Lemma quiet_db_store type atoms_id feature_matrix target feature_names table :
  quiet P (db_store type atoms_id feature_matrix target feature_names table).
Proof. unfold db_store. repeat first [quiet_step | event]. Qed.

End Downstream.

Ltac downstream P HP :=
  first [ apply (quiet_make_prediction P HP)
        | apply (quiet_validation_average P)
        | apply (quiet_pca_opt P HP)
        | apply (quiet_ridge_regression P HP)
        | apply (quiet_lasso_opt P HP)
        | apply (quiet_expand_matrix P HP)
        | apply (quiet_db_store P HP) ].

(** *** The whole pipeline never tunes *)

Lemma not_minimize_downstream (ev : event) :
  is_screening ev = false -> ev <> Minimize -> ev <> Minimize.
Proof. auto. Qed.

Lemma quiet_screening train_matrix train_target feature_names test_matrix
    test_target :
  quiet (fun ev => ev <> Minimize)
        (screening train_matrix train_target feature_names test_matrix
                   test_target).
Proof. unfold screening. repeat first [quiet_step | discriminate]. Qed.

Lemma quiet_reduce_matrix train_matrix train_target feature_names test_matrix
    test_target limit :
  quiet (fun ev => ev <> Minimize)
        (reduce_matrix train_matrix train_target feature_names test_matrix
                       test_target limit).
Proof.
  unfold reduce_matrix.
  repeat first [ apply quiet_screening | downstream (fun ev => ev <> Minimize) not_minimize_downstream
               | quiet_step | discriminate ].
Qed.

Lemma quiet_build_model train_matrix train_target feature_names test_matrix
    test_target limit :
  quiet (fun ev => ev <> Minimize)
        (build_model train_matrix train_target feature_names test_matrix
                     test_target limit).
Proof.
  unfold build_model.
  repeat first [ apply quiet_reduce_matrix | downstream (fun ev => ev <> Minimize) not_minimize_downstream
               | quiet_step | discriminate ].
Qed.

Lemma quiet_from_matrix train_matrix train_target feature_names train_id
    test_matrix test_id test_target build :
  quiet (fun ev => ev <> Minimize)
        (from_matrix train_matrix train_target feature_names train_id
                     test_matrix test_id test_target build).
Proof.
  unfold from_matrix.
  repeat first [ apply quiet_build_model | downstream (fun ev => ev <> Minimize) not_minimize_downstream
               | quiet_step | discriminate ].
Qed.

Lemma quiet_from_atoms {A} (unique_id : A -> res string) train_atoms
    fpv_function train_target build test_atoms test_target feature_names :
  quiet (fun ev => ev <> Minimize)
        (from_atoms unique_id train_atoms fpv_function train_target build
                    test_atoms test_target feature_names).
Proof.
  unfold from_atoms.
  repeat first [ apply quiet_from_matrix | quiet_step | discriminate ].
Qed.

(** C8. Every call of [make_prediction] with [opt_h=True] fails with a type
    error, before any optimization runs and without touching [self]; the
    pipeline, from either entry point, never runs the optimizer and leaves
    [self.width] and [self.regularization] as configured. *)
Theorem make_prediction_never_tunes :
  (forall train_matrix test_matrix train_target test_target (s : self F),
      make_prediction train_matrix test_matrix train_target test_target true s
      = {| result := Raise TypeError; final := s; emitted := [] |})
  /\ (forall train_matrix train_target feature_names train_id test_matrix
             test_id test_target build (s : self F),
         let o := from_matrix train_matrix train_target feature_names train_id
                              test_matrix test_id test_target build s in
         width (final o) = width s
         /\ regularization (final o) = regularization s
         /\ ~ In Minimize (emitted o))
  /\ (forall (A : Type) (unique_id : A -> res string) train_atoms fpv_function
             train_target build test_atoms test_target feature_names
             (s : self F),
         let o := from_atoms unique_id train_atoms fpv_function train_target
                             build test_atoms test_target feature_names s in
         width (final o) = width s
         /\ regularization (final o) = regularization s
         /\ ~ In Minimize (emitted o)).
Proof.
  split; [intros; apply make_prediction_opt_h|]. split.
  - intros. subst o.
    destruct (quiet_from_matrix train_matrix train_target feature_names
                train_id test_matrix test_id test_target build s) as [-> Hev].
    repeat split. intros Hin. rewrite Forall_forall in Hev.
    now apply (Hev Minimize); [apply list_elem_of_In|].
  - intros. subst o.
    destruct (quiet_from_atoms unique_id train_atoms fpv_function train_target
                build test_atoms test_target feature_names s) as [-> Hev].
    repeat split. intros Hin. rewrite Forall_forall in Hev.
    now apply (Hev Minimize); [apply list_elem_of_In|].
Qed.

(** ** The fixed-size precondition *)

Lemma np_delete_in_range {A} (l : list A) (obj : list nat) :
  Forall (fun i => i < length l) obj -> np_delete l obj = Ok (delete_from 0 obj l).
Proof.
  intros Hobj. unfold np_delete.
  replace (forallb (fun i => i <? length l) obj) with true; [reflexivity|].
  symmetry. apply forallb_forall. intros i Hi.
  apply Nat.ltb_lt. rewrite Forall_forall in Hobj.
  now apply Hobj, list_elem_of_In.
Qed.

(** C6. With a fixed size configured, when the feature count [d] left by
    zero-variance cleaning (and kept by standardization) is not strictly
    greater than the size, [build_model] raises an assertion error, and the
    only collaborators called before it are the cleaning and the
    standardization: no predictor is fitted and nothing is reduced. *)
Theorem build_model_size_assertion
    (train_matrix : Matrix F) (train_target : list F)
    (feature_names : option (list string)) (test_matrix : pyarray F)
    (test_target : option (list F)) (limit : option nat) (s : self F)
    (sz : Z) (cleaned : Matrix F) (cleaned_test : pyarray F) (index : list nat)
    (scaled : Matrix F) (scaled_test : pyarray F) (d : nat) :
  size s = Some sz ->
  clean_zero train_matrix test_matrix = Ok (cleaned, cleaned_test, index) ->
  (forall names, feature_names = Some names ->
                 Forall (fun i => i < length names) index) ->
  standardize cleaned cleaned_test = Ok (scaled, scaled_test) ->
  shape1 cleaned = Ok d ->
  shape1 scaled = Ok d ->
  (Z.of_nat d <= sz)%Z ->
  build_model train_matrix train_target feature_names test_matrix test_target
              limit s
  = {| result := Raise AssertionError; final := s;
       emitted := [CleanZero; Standardize] |}.
Proof.
  intros Hsize Hclean Hnames Hstd Hd Hd' Hle.
  assert (Hlt : (sz <? Z.of_nat d)%Z = false) by (apply Z.ltb_ge; lia).
  unfold build_model, bind, call. simpl. rewrite Hclean. simpl.
  destruct feature_names as [names|]; simpl.
  - rewrite (np_delete_in_range names index (Hnames names eq_refl)). simpl.
    rewrite Hstd. simpl. rewrite Hsize. simpl. rewrite Hd'. simpl.
    rewrite Hlt. reflexivity.
  - rewrite Hstd. simpl. rewrite Hsize. simpl. rewrite Hd'. simpl.
    rewrite Hlt. reflexivity.
Qed.

(** ** Expansion keeps the original columns in front *)

Lemma concat_cols_ok {A} (a b c : list (list A)) :
  concat_cols a b = Ok c -> length a = length b /\ c = zip_with app a b.
Proof.
  unfold concat_cols. destruct (length a =? length b) eqn:E; [|discriminate].
  intros [= <-]. apply Nat.eqb_eq in E. now split.
Qed.

Lemma extends_refl {A} (d : nat) (fm : list (list A)) :
  Forall (fun row => length row = d) fm -> extends d fm fm.
Proof.
  intros Hd. split; [reflexivity|].
  induction Hd as [|row fm Hrow _ IH]; simpl; [reflexivity|].
  rewrite IH. f_equal. apply take_ge. lia.
Qed.

Lemma take_zip_with_app {A} (d : nat) (m b : list (list A)) :
  length m = length b ->
  Forall (fun row => d <= length row) m ->
  map (take d) (zip_with app m b) = map (take d) m.
Proof.
  intros Hlen Hd. revert b Hlen.
  induction Hd as [|row m Hrow _ IH]; intros [|x b] Hlen; try discriminate;
    simpl; [reflexivity|].
  rewrite IH by (simpl in Hlen; lia). f_equal. now apply take_app_le.
Qed.

Lemma extends_concat_cols {A} (d : nat) (fm m b c : list (list A)) :
  Forall (fun row => length row = d) fm ->
  extends d fm m -> concat_cols m b = Ok c -> extends d fm c.
Proof.
  intros Hd [Hlen Htake] Hc. apply concat_cols_ok in Hc as [Hlen' ->].
  split.
  - rewrite length_zip_with. lia.
  - rewrite take_zip_with_app; [exact Htake|exact Hlen'|].
    apply Forall_forall. intros row Hrow.
    assert (Hin : take d row ∈ fm).
    { rewrite <- Htake. now apply list_elem_of_fmap_2. }
    rewrite Forall_forall in Hd. specialize (Hd _ Hin).
    rewrite length_take in Hd. lia.
Qed.

(** C7. When [expand_matrix] returns, the first [d] columns of the matrix
    it returns are the input matrix: the products, ratios and log
    combinations are appended after the original columns. *)
Theorem expand_matrix_prefix
    (feature_matrix : Matrix F) (feature_names : option (list string))
    (return_names : bool) (s : self F) (d : nat)
    (expanded : Matrix F) (names : option (list string)) :
  Forall (fun row => length row = d) feature_matrix ->
  result (expand_matrix feature_matrix feature_names return_names s)
  = Ok (expanded, names) ->
  length expanded = length feature_matrix
  /\ map (take d) expanded = feature_matrix.
Proof.
  intros Hd Hres. unfold expand_matrix in Hres.
  apply bind_ok in Hres as [order_2 [_ Hres]].
  apply bind_ok in Hres as [div_order_2 [_ Hres]].
  apply bind_ok in Hres as [order_2ab [_ Hres]].
  apply bind_ok in Hres as [ablog [_ Hres]].
  apply bind_ok in Hres as [m1 [H1 Hres]].
  apply bind_ok in Hres as [m2 [H2 Hres]].
  apply bind_ok in Hres as [m3 [H3 Hres]].
  apply bind_ok in Hres as [m4 [H4 Hres]].
  cbn [result final lift call] in *.
  assert (Hext : extends d feature_matrix m4).
  { eapply extends_concat_cols; [exact Hd| |exact H4].
    eapply extends_concat_cols; [exact Hd| |exact H3].
    eapply extends_concat_cols; [exact Hd| |exact H2].
    eapply extends_concat_cols; [exact Hd| |exact H1].
    now apply extends_refl. }
  destruct return_names.
  - apply bind_ok in Hres as [l1 [_ Hres]].
    apply bind_ok in Hres as [l2 [_ Hres]].
    apply bind_ok in Hres as [l3 [_ Hres]].
    apply bind_ok in Hres as [l4 [_ Hres]].
    destruct feature_names; [|discriminate Hres].
    cbn [result ret] in Hres. injection Hres as <- _. exact Hext.
  - cbn [result ret] in Hres. injection Hres as <- _. exact Hext.
Qed.

(** ** Reduction without a size *)

Lemma any_event (ev : event) : is_screening ev = false -> ev <> Minimize -> True.
Proof. auto. Qed.

Lemma quiet_final {A} (P : event -> Prop) (m : M F A) (s : self F) :
  quiet P m -> final (m s) = s.
Proof. intros Hq. apply Hq. Qed.

(** A successful sequence whose first part leaves [self] alone. *)
Lemma bind_ok_quiet {A B} (P : event -> Prop) (m : M F A) (f : A -> M F B)
    (s : self F) (b : B) :
  quiet P m ->
  result (bind m f s) = Ok b ->
  exists a, result (m s) = Ok a /\ result (f a s) = Ok b.
Proof.
  intros Hq Hb. apply bind_ok in Hb as [a [Ha Hb]].
  rewrite (quiet_final P m s Hq) in Hb. now exists a.
Qed.

Lemma delete_from_all {A} (obj : list nat) (l : list A) (i : nat) :
  (forall j, i <= j < i + length l -> In j obj) -> delete_from i obj l = [].
Proof.
  revert i. induction l as [|x l IH]; intros i Hall; simpl; [reflexivity|].
  assert (Hi : mem_nat i obj = true).
  { unfold mem_nat. apply existsb_exists. exists i.
    split; [apply Hall; simpl; lia|apply Nat.eqb_refl]. }
  rewrite Hi. apply IH. intros j Hj. apply Hall. simpl. lia.
Qed.

Lemma np_delete_cols_ok (m m' : Matrix F) (obj : list nat) :
  np_delete_cols m obj = Ok m' -> m' = map (delete_from 0 obj) m.
Proof.
  unfold np_delete_cols. destruct m as [|r m]; [discriminate|].
  destruct (forallb _ obj); [|discriminate]. now intros [= <-].
Qed.

(** [ridge_regression] returns only when it was given a test matrix. *)
Lemma ridge_regression_ok train_matrix train_target feature_names test_matrix
    test_target (s : self F) r :
  result (ridge_regression train_matrix train_target feature_names test_matrix
                           test_target s) = Ok r ->
  exists tm, test_matrix = Arr2d tm.
Proof.
  unfold ridge_regression. intros Hr.
  apply bind_ok in Hr as [b [_ Hr]]. apply bind_ok in Hr as [coef [_ Hr]].
  apply bind_ok in Hr as [error [Herr Hr]].
  destruct test_matrix as [| |tm]; [|discriminate Herr|now exists tm].
  apply bind_ok in Hr as [sl [_ Hr]]. apply bind_ok in Hr as [e [He _]].
  simpl in Herr. injection Herr as <-. discriminate He.
Qed.

(** C9. With [optimize] false and no size configured, [reduce_matrix], when
    it returns, has cut the lasso ordering with [mo[None:]], the entire
    ordering, and deleted every column it lists from the train and the test
    matrix; when the ordering lists every column, no column is left. *)
Theorem reduce_matrix_without_size
    (train_matrix : Matrix F) (train_target : list F)
    (feature_names : option (list string)) (test_matrix : pyarray F)
    (test_target : option (list F)) (limit : option nat) (s : self F)
    (names : list string) (reduced_train : Matrix F) (reduced_test : pyarray F) :
  optimize s = false ->
  size s = None ->
  result (reduce_matrix train_matrix train_target feature_names test_matrix
                        test_target limit s)
  = Ok (names, reduced_train, reduced_test) ->
  exists (d : nat) (screened : Matrix F) (screened_test : Matrix F)
         (screened_names : option (list string)) (las : lasso_result F)
         (reduced : Matrix F),
    shape1 train_matrix = Ok d
    /\ result ((if length train_matrix <? d
                then screening train_matrix train_target feature_names
                               test_matrix test_target
                else ret (train_matrix, test_matrix, feature_names)) s)
       = Ok (screened, Arr2d screened_test, screened_names)
    /\ lasso d train_target screened (Arr2d screened_test) (1 # 10)%Q
             1000000%Q test_target (Some 20) = Ok las
    /\ slice_from (size s) (order las) = order las
    /\ reduced_train = map (delete_from 0 (order las)) screened
    /\ reduced_test = Arr2d reduced
    /\ reduced = map (delete_from 0 (order las)) screened_test
    /\ ((forall j, j < d -> In j (order las)) ->
        Forall (fun row => length row <= d) screened ->
        Forall (fun row => row = []) reduced_train).
Proof.
  intros Hopt Hsize Hres. unfold reduce_matrix in Hres.
  apply bind_ok in Hres as [d [Hd Hres]]. simpl in Hd, Hres.
  apply bind_ok_quiet with (P := fun _ => True) in Hres as [[] [_ Hres]];
    [|repeat quiet_step].
  apply bind_ok_quiet with (P := fun ev => ev <> Minimize)
    in Hres as [[[screened screened_test] screened_names] [Hscr Hres]];
    [|repeat first [apply quiet_screening | quiet_step]].
  simpl fst in Hres. simpl snd in Hres.
  apply bind_ok_quiet with (P := fun _ => True) in Hres as [linear [Hlin Hres]];
    [|apply (quiet_ridge_regression _ any_event)].
  apply ridge_regression_ok in Hlin as [tm ->].
  apply bind_ok_quiet with (P := fun _ => True) in Hres as [sort_list [_ Hres]];
    [|repeat quiet_step].
  apply bind_ok_quiet with (P := fun _ => True) in Hres as [lo [Hlasso Hres]];
    [|apply (quiet_lasso_opt _ any_event)].
  apply bind_ok in Hres as [self [Hself Hres]]. simpl in Hself, Hres.
  injection Hself as <-. rewrite Hopt, Hsize in Hres.
  apply bind_ok in Hres as [bs [Hbs Hres]]. simpl in Hbs, Hres.
  injection Hbs as <-. simpl slice_from in Hres.
  apply bind_ok in Hres as [tr [Htr Hres]]. simpl in Htr, Hres.
  apply bind_ok in Hres as [te [Hte Hres]]. simpl in Hte, Hres.
  injection Hres as <- <- <-.
  unfold lasso_opt in Hlasso.
  apply bind_ok in Hlasso as [las [Hlas Hlasso]]. simpl in Hlas, Hlasso.
  apply bind_ok in Hlasso as [ml [_ Hlasso]]. simpl in Hlasso.
  injection Hlasso as <-. simpl snd in *.
  destruct (np_delete_cols tm (order las)) as [tm'|] eqn:Htm; [|discriminate Hte].
  simpl in Hte. injection Hte as <-.
  apply np_delete_cols_ok in Htr as Htr', Htm.
  exists d, screened, tm, screened_names, las, tm'.
  rewrite Hsize. simpl slice_from.
  repeat split; try assumption; try reflexivity.
  intros Hall Hrows. rewrite Htr'. apply List.Forall_map.
  eapply List.Forall_impl; [|exact Hrows].
  intros row Hrow. apply delete_from_all. intros j Hj. apply Hall. simpl in Hrow, Hj. lia.
Qed.

(** ** When and how [reduce_matrix] screens *)

Lemma no_event (l : list event) : Forall (fun _ => False) l -> l = [].
Proof. destruct 1; [reflexivity|contradiction]. Qed.

Lemma filter_none (l : list event) :
  Forall (fun ev => is_screening ev = false) l -> List.filter is_screening l = [].
Proof.
  induction 1 as [|ev l Hev _ IH]; simpl; [reflexivity|]. now rewrite Hev.
Qed.

Lemma not_screening_downstream (ev : event) :
  is_screening ev = false -> ev <> Minimize -> is_screening ev = false.
Proof. auto. Qed.

Lemma shape1_nonempty (m : Matrix F) (d : nat) :
  shape1 m = Ok d -> 0 < length m.
Proof. destruct m; [discriminate|simpl; lia]. Qed.

Lemma screening_emitted train_matrix train_target feature_names test_matrix
    test_target (s : self F) (d : nat) :
  shape1 train_matrix = Ok d ->
  length train_matrix < d ->
  screening_method s = "rrcs" \/ screening_method s = "sis" ->
  emitted (screening train_matrix train_target feature_names test_matrix
                     test_target s)
  = [screening_event s (length train_matrix) d].
Proof.
  intros Hd Hlt Hm. pose proof (shape1_nonempty _ _ Hd) as Hn.
  unfold screening, screening_event, screening_step, shape0.
  rewrite Hd, bind_lift_ok.
  replace (length train_matrix =? 0) with false by (symmetry; apply Nat.eqb_neq; lia).
  replace (d =? 0) with false by (symmetry; apply Nat.eqb_neq; lia).
  replace (d <? length train_matrix) with false by (symmetry; apply Nat.ltb_ge; lia).
  cbv beta iota zeta. rewrite bind_ret, bind_get.
  match goal with |- emitted (bind _ ?f _) = _ =>
    assert (Hk : forall a, quiet (fun _ => False) (f a))
      by (intros a; repeat quiet_step);
    set (k := f) in *; clearbody k end.
  assert (Hnone : forall a, emitted (k a s) = [])
    by (intros a; apply no_event, Hk).
  destruct (2 * length train_matrix <? d).
  - rewrite bind_assoc.
    destruct (iterative_screening _ _ _ _ _ _ _ _) as [a|e].
    + rewrite bind_call_ok, bind_ret. simpl. now rewrite Hnone.
    + now rewrite bind_call_raise.
  - destruct Hm as [-> | ->]; simpl String.eqb; cbv iota; rewrite bind_assoc.
    + destruct (rr_screen _ _ _ _) as [a|e].
      * rewrite bind_call_ok, bind_ret. simpl. now rewrite Hnone.
      * now rewrite bind_call_raise.
    + destruct (sure_screen _ _ _) as [a|e].
      * rewrite bind_call_ok, bind_ret. simpl. now rewrite Hnone.
      * now rewrite bind_call_raise.
Qed.

(** [screening], when it returns, has deleted the columns its primitive
    rejected from the train matrix, the test matrix and the names alike. *)
Lemma screening_ok train_matrix train_target feature_names test_matrix
    test_target (s : self F) (train' : Matrix F) (test' : pyarray F)
    (names' : option (list string)) :
  result (screening train_matrix train_target feature_names test_matrix
                    test_target s) = Ok (train', test', names') ->
  exists (d : nat) (screen : screen_result) (names kept : list string),
    shape1 train_matrix = Ok d
    /\ screening_primitive s train_matrix train_target feature_names
                           test_matrix (length train_matrix) d = Ok screen
    /\ np_delete_cols train_matrix (rejected screen) = Ok train'
    /\ feature_names = Some names
    /\ np_delete names (rejected screen) = Ok kept
    /\ names' = Some kept
    /\ (test_matrix = PyNone /\ test' = Arr0d
        \/ exists t t', test_matrix = Arr2d t /\ test' = Arr2d t'
                        /\ np_delete_cols t (rejected screen) = Ok t').
Proof.
  unfold screening, screening_primitive, screening_step, shape0. intros Hres.
  apply bind_ok in Hres as [d [Hd Hres]]. cbn [final result lift] in Hd, Hres.
  apply bind_ok in Hres as [s0 [Hs0 Hres]].
  assert (Es0 : s0 = round_int (fsqrt (flog (fdiv (of_nat d)
                                   (of_nat (length train_matrix)))))
                /\ final ((if length train_matrix =? 0
                           then raise ZeroDivisionError
                           else if d =? 0 then raise ValueError
                           else if d <? length train_matrix then raise TypeError
                           else ret (round_int (fsqrt (flog (fdiv (of_nat d)
                                       (of_nat (length train_matrix))))))) s) = s).
  { destruct (length train_matrix =? 0); [discriminate Hs0|].
    destruct (d =? 0); [discriminate Hs0|].
    destruct (d <? length train_matrix); [discriminate Hs0|].
    cbn [result ret] in Hs0. injection Hs0 as <-. now split. }
  destruct Es0 as [-> Efin]. rewrite Efin in Hres. clear Efin Hs0.
  cbv beta zeta in Hres. rewrite bind_get in Hres.
  apply bind_ok in Hres as [scr [Hscr Hres]].
  assert (Escr : exists screen,
             scr = Some screen
             /\ (if 2 * length train_matrix <? d
                 then iterative_screening train_target train_matrix test_matrix
                        (length train_matrix)
                        (if (round_int (fsqrt (flog (fdiv (of_nat d)
                                (of_nat (length train_matrix))))) =? 0)%Z
                         then 1%Z
                         else round_int (fsqrt (flog (fdiv (of_nat d)
                                (of_nat (length train_matrix))))))
                        (screening_method s) (screening_correlation s)
                        feature_names
                 else if String.eqb (screening_method s) "rrcs"
                      then rr_screen train_target train_matrix
                             (length train_matrix) (screening_correlation s)
                      else sure_screen train_target train_matrix
                             (length train_matrix)) = Ok screen).
  { destruct (2 * length train_matrix <? d).
    - apply bind_ok in Hscr as [x [Hx Hscr]]. cbn [final result call ret] in Hx, Hscr.
      injection Hscr as <-. now exists x.
    - destruct (String.eqb (screening_method s) "rrcs").
      + apply bind_ok in Hscr as [x [Hx Hscr]]. cbn [final result call ret] in Hx, Hscr.
        injection Hscr as <-. now exists x.
      + destruct (String.eqb (screening_method s) "sis").
        * apply bind_ok in Hscr as [x [Hx Hscr]]. cbn [final result call ret] in Hx, Hscr.
          injection Hscr as <-. now exists x.
        * cbn [result ret final] in Hscr, Hres. injection Hscr as <-.
          apply bind_ok in Hres as [x [Hx _]]. discriminate Hx. }
  destruct Escr as [screen [-> Hprim]].
  apply bind_ok in Hres as [screen' [Hderef Hres]]. simpl in Hderef.
  injection Hderef as <-.
  apply bind_ok in Hres as [tr [Htr Hres]]. simpl in Htr.
  apply bind_ok in Hres as [te [Hte Hres]].
  apply bind_ok in Hres as [kept [Hkept Hres]].
  simpl in Hres. injection Hres as <- <- <-.
  destruct feature_names as [names|]; [|discriminate Hkept]. simpl in Hkept.
  exists d, screen, names, kept.
  repeat (split; [first [assumption | reflexivity]|]).
  destruct test_matrix as [| |t]; simpl in Hte.
  - injection Hte as <-. now left.
  - discriminate Hte.
  - right. destruct (np_delete_cols t (rejected screen)) as [t'|] eqn:Ht;
      [|discriminate Hte].
    simpl in Hte. injection Hte as <-. now exists t, t'.
Qed.

Lemma Exists_screening (l : list event) :
  Exists (fun ev => is_screening ev = true) l <-> List.filter is_screening l <> [].
Proof.
  induction l as [|ev l IH]; simpl.
  - split; [intros Hex; inversion Hex|congruence].
  - rewrite Exists_cons. destruct (is_screening ev).
    + split; [discriminate|now left].
    + rewrite <- IH. split; [intros [E|Hex]; [discriminate E|exact Hex]|now right].
Qed.

Lemma Exists_iterative (l : list event) :
  Exists (fun ev => is_iterative ev = true) l
  <-> Exists (fun ev => is_iterative ev = true) (List.filter is_screening l).
Proof.
  induction l as [|ev l IH]; simpl; [reflexivity|].
  destruct (is_screening ev) eqn:E.
  - now rewrite !Exists_cons, IH.
  - rewrite Exists_cons, IH.
    assert (Hit : is_iterative ev = false) by (destruct ev; try reflexivity; discriminate E).
    rewrite Hit. split; [intros [E'|Hex]; [discriminate E'|exact Hex]|now right].
Qed.

(** C5. In [reduce_matrix] on [n] rows and [d] columns a screening
    primitive is called exactly when [d > n], and then once: the iterative
    one exactly when [d > 2n], with the step [round(sqrt(log(d/n)))] or 1
    when that is 0, and otherwise the single-pass primitive of the
    configured method.  When the screening returns, the rejected columns
    have been deleted from the train matrix, the test matrix and the names
    together. *)
Theorem reduce_matrix_screening
    (train_matrix : Matrix F) (train_target : list F)
    (feature_names : option (list string)) (test_matrix : pyarray F)
    (test_target : option (list F)) (limit : option nat) (s : self F)
    (d : nat) :
  shape1 train_matrix = Ok d ->
  (forall l, limit = Some l -> l <= d) ->
  screening_method s = "rrcs" \/ screening_method s = "sis" ->
  let n := length train_matrix in
  let o := reduce_matrix train_matrix train_target feature_names test_matrix
                         test_target limit s in
  List.filter is_screening (emitted o)
  = (if n <? d then [screening_event s n d] else [])
  /\ (Exists (fun ev => is_screening ev = true) (emitted o) <-> n < d)
  /\ (Exists (fun ev => is_iterative ev = true) (emitted o) <-> 2 * n < d)
  /\ (2 * n < d ->
      screening_event s n d
      = IterativeScreening n (screening_step d n) (screening_method s)
                           (screening_correlation s))
  /\ (n < d <= 2 * n ->
      screening_event s n d
      = if String.eqb (screening_method s) "rrcs"
        then RRScreen n (screening_correlation s) else SureScreen n)
  /\ (forall train' test' names',
         result (screening train_matrix train_target feature_names test_matrix
                           test_target s) = Ok (train', test', names') ->
         exists (screen : screen_result) (names kept : list string),
           screening_primitive s train_matrix train_target feature_names
                               test_matrix n d = Ok screen
           /\ np_delete_cols train_matrix (rejected screen) = Ok train'
           /\ feature_names = Some names
           /\ np_delete names (rejected screen) = Ok kept
           /\ names' = Some kept
           /\ (test_matrix = PyNone /\ test' = Arr0d
               \/ exists t t', test_matrix = Arr2d t /\ test' = Arr2d t'
                               /\ np_delete_cols t (rejected screen) = Ok t')).
Proof.
  intros Hd Hlimit Hm n o.
  assert (Hfilter : List.filter is_screening (emitted o)
                    = if n <? d then [screening_event s n d] else []).
  { subst o n. unfold reduce_matrix, shape0.
    rewrite Hd, bind_lift_ok.
    assert (Hassert : match limit with
                      | Some l => assert (l <=? d)
                      | None => ret tt
                      end = @ret F unit tt).
    { destruct limit as [l|]; [|reflexivity].
      specialize (Hlimit l eq_refl).
      replace (l <=? d) with true by (symmetry; apply Nat.leb_le; lia).
      reflexivity. }
    rewrite Hassert, bind_ret.
    match goal with |- context [emitted (bind _ ?f _)] =>
      assert (Hk : forall a, quiet (fun ev => is_screening ev = false) (f a))
        by (intros a;
            repeat first [ downstream (fun ev => is_screening ev = false)
                                      not_screening_downstream
                         | quiet_step | reflexivity ]);
      set (k := f) in *; clearbody k end.
    rewrite bind_emitted, List.filter_app.
    assert (Hrest : forall a s', List.filter is_screening (emitted (k a s')) = [])
      by (intros a s'; apply filter_none, Hk).
    destruct (length train_matrix <? d) eqn:E.
    - apply Nat.ltb_lt in E.
      rewrite (screening_emitted _ _ _ _ _ s d Hd E Hm).
      assert (Hev : is_screening (screening_event s (length train_matrix) d) = true).
      { unfold screening_event. destruct (2 * length train_matrix <? d); [reflexivity|].
        now destruct (String.eqb (screening_method s) "rrcs"). }
      simpl. rewrite Hev.
      destruct (result _); [now rewrite Hrest|reflexivity].
    - simpl. apply Hrest. }
  split; [exact Hfilter|]. split.
  { rewrite Exists_screening, Hfilter.
    destruct (n <? d) eqn:E.
    - apply Nat.ltb_lt in E. split; [auto|discriminate].
    - apply Nat.ltb_ge in E. split; [congruence|lia]. }
  split.
  { rewrite Exists_iterative, Hfilter.
    destruct (n <? d) eqn:E.
    - apply Nat.ltb_lt in E. rewrite Exists_cons, Exists_nil.
      unfold screening_event. destruct (2 * n <? d) eqn:E2.
      + apply Nat.ltb_lt in E2. simpl. tauto.
      + apply Nat.ltb_ge in E2.
        destruct (String.eqb (screening_method s) "rrcs"); simpl;
          split; [intros [?|[]]; discriminate|lia|intros [?|[]]; discriminate|lia].
    - apply Nat.ltb_ge in E. rewrite Exists_nil. lia. }
  split.
  { intros H2. unfold screening_event.
    now replace (2 * n <? d) with true by (symmetry; apply Nat.ltb_lt; lia). }
  split.
  { intros H2. unfold screening_event.
    now replace (2 * n <? d) with false by (symmetry; apply Nat.ltb_ge; lia). }
  intros train' test' names' Hres.
  apply screening_ok in Hres
    as (d' & screen & names & kept & Hd' & Hprim & Htr & Hn & Hk & Hn' & Hte).
  rewrite Hd in Hd'. injection Hd' as <-.
  exists screen, names, kept. repeat (split; [assumption|]). exact Hte.
Qed.

(** ** Reduction without a test matrix *)

(** Without a test matrix [ridge_regression] never assigns [error], and
    fails when it reads it in its [return]. *)
Lemma ridge_regression_without_test train_matrix train_target
    (names : list string) test_target (s : self F) (b : F) (coef : list F) :
  find_optimal_regularization train_matrix train_target = Ok b ->
  RR train_matrix train_target b = Ok coef ->
  result (ridge_regression train_matrix train_target (Some names) PyNone
                           test_target s)
  = Raise UnboundLocalError.
Proof.
  intros Hb Hcoef. unfold ridge_regression, bind, call. simpl.
  rewrite Hb. simpl. rewrite Hcoef. reflexivity.
Qed.

(** Given [np.asarray(None)] for a test matrix, [ridge_regression] fails
    when it iterates over it. *)
Lemma ridge_regression_0d train_matrix train_target feature_names test_target
    (s : self F) (b : F) (coef : list F) :
  find_optimal_regularization train_matrix train_target = Ok b ->
  RR train_matrix train_target b = Ok coef ->
  result (ridge_regression train_matrix train_target feature_names Arr0d
                           test_target s)
  = Raise TypeError.
Proof.
  intros Hb Hcoef. unfold ridge_regression, bind, call. simpl.
  rewrite Hb. simpl. rewrite Hcoef. reflexivity.
Qed.

Lemma limit_assert (limit : option nat) (d : nat) :
  (forall l, limit = Some l -> l <= d) ->
  match limit with
  | Some l => assert (l <=? d)
  | None => ret tt
  end = @ret F unit tt.
Proof.
  intros Hlimit. destruct limit as [l|]; [|reflexivity].
  specialize (Hlimit l eq_refl).
  replace (l <=? d) with true by (symmetry; apply Nat.leb_le; lia).
  reflexivity.
Qed.

(** C10, as amended.  With [test_matrix=None], [reduce_matrix] always
    fails.  When no screening is needed ([d <= n]) and the ridge primitives
    succeed, it is with the unbound-variable error of [ridge_regression],
    which assigns [error] only when it has a test matrix and returns it
    regardless.  When [d > n], screening has replaced the missing test
    matrix with [np.asarray(None)], and [ridge_regression] fails with a type
    error instead. *)
Theorem reduce_matrix_requires_test_matrix
    (train_matrix : Matrix F) (train_target : list F)
    (feature_names : option (list string)) (test_target : option (list F))
    (limit : option nat) (s : self F) :
  let o := reduce_matrix train_matrix train_target feature_names PyNone
                         test_target limit s in
  is_ok (result o) = false
  /\ forall d : nat,
       shape1 train_matrix = Ok d ->
       (forall l, limit = Some l -> l <= d) ->
       (forall names b coef,
           d <= length train_matrix ->
           feature_names = Some names ->
           find_optimal_regularization train_matrix train_target = Ok b ->
           RR train_matrix train_target b = Ok coef ->
           result o = Raise UnboundLocalError)
       /\ (forall train' test' names' b coef,
              length train_matrix < d ->
              result (screening train_matrix train_target feature_names PyNone
                                test_target s) = Ok (train', test', names') ->
              find_optimal_regularization train' train_target = Ok b ->
              RR train' train_target b = Ok coef ->
              test' = Arr0d /\ result o = Raise TypeError).
Proof.
  intros o. split.
  { destruct (result o) as [[[names tr] te]|e] eqn:Hres; [|reflexivity].
    exfalso. subst o. unfold reduce_matrix in Hres.
    apply bind_ok in Hres as [d [Hd Hres]]. cbn [final result lift] in Hd, Hres.
    apply bind_ok_quiet with (P := fun _ => True) in Hres as [[] [_ Hres]];
      [|repeat quiet_step].
    apply bind_ok_quiet with (P := fun ev => ev <> Minimize)
      in Hres as [[[screened screened_test] screened_names] [Hscr Hres]];
      [|repeat first [apply quiet_screening | quiet_step]].
    apply bind_ok in Hres as [linear [Hlin _]].
    apply ridge_regression_ok in Hlin as [tm Htm]. cbn [fst snd] in Htm.
    destruct (shape0 train_matrix <? d).
    - apply screening_ok in Hscr
        as (_ & _ & _ & _ & _ & _ & _ & _ & _ & _ & [[_ ->]|(t & t' & Ht & _)]);
        discriminate.
    - cbn [result ret] in Hscr. injection Hscr as _ <- _. discriminate Htm. }
  intros d Hd Hlimit. split.
  - intros names b coef Hle -> Hb Hcoef. subst o.
    unfold reduce_matrix, shape0.
    rewrite Hd, bind_lift_ok, (limit_assert limit d Hlimit), bind_ret.
    replace (length train_matrix <? d) with false
      by (symmetry; apply Nat.ltb_ge; lia).
    rewrite bind_ret. cbn [fst snd]. rewrite bind_result.
    now rewrite (ridge_regression_without_test _ _ names test_target s b coef Hb Hcoef).
  - intros train' test' names' b coef Hlt Hscr Hb Hcoef.
    pose proof Hscr as Hscr'.
    apply screening_ok in Hscr'
      as (_ & _ & _ & _ & _ & _ & _ & _ & _ & _ & [[_ ->]|(t & t' & Ht & _)]);
      [|discriminate Ht].
    split; [reflexivity|]. subst o. unfold reduce_matrix, shape0.
    rewrite Hd, bind_lift_ok, (limit_assert limit d Hlimit), bind_ret.
    replace (length train_matrix <? d) with true
      by (symmetry; apply Nat.ltb_lt; lia).
    rewrite bind_result, Hscr.
    rewrite (quiet_final _ _ s (quiet_screening _ _ _ _ _)).
    cbn [fst snd]. rewrite bind_result.
    now rewrite (ridge_regression_0d _ _ _ test_target s b coef Hb Hcoef).
Qed.

(** ** What the entry point returns *)

(** [from_matrix] hands back the triple of [build_model] only on the path
    with expansion and a test matrix; on the others control falls off its
    end. *)
Lemma from_matrix_returns_triple train_matrix train_target feature_names
    train_id test_matrix test_id test_target build (s : self F) t :
  result (from_matrix train_matrix train_target feature_names train_id
                      test_matrix test_id test_target build s) = Ok (Some t) ->
  expand s = true /\ build = true /\ exists tm, test_matrix = Some tm.
Proof.
  intros Hres. unfold from_matrix in Hres.
  apply bind_ok_quiet with (P := fun _ => True) in Hres as [names [_ Hres]];
    [|repeat quiet_step].
  rewrite bind_get in Hres.
  apply bind_ok_quiet with (P := fun _ => True) in Hres as [[] [_ Hres]];
    [|repeat first [downstream (fun _ : event => True) any_event | quiet_step]].
  apply bind_ok_quiet with (P := fun _ => True) in Hres as [[] [_ Hres]];
    [|repeat first [downstream (fun _ : event => True) any_event | quiet_step]].
  apply bind_ok_quiet with (P := fun ev => ev <> Minimize) in Hres as [[] [_ Hres]];
    [|repeat first [apply quiet_build_model | quiet_step]].
  destruct (expand s); [|discriminate Hres].
  apply bind_ok_quiet with (P := fun _ => True) in Hres as [e [_ Hres]];
    [|apply (quiet_expand_matrix _ any_event)].
  cbv beta zeta in Hres.
  apply bind_ok_quiet with (P := fun _ => True) in Hres as [[] [_ Hres]];
    [|repeat first [downstream (fun _ : event => True) any_event | quiet_step]].
  destruct test_matrix as [tm|]; [|discriminate Hres].
  apply bind_ok_quiet with (P := fun _ => True) in Hres as [e' [_ Hres]];
    [|apply (quiet_expand_matrix _ any_event)].
  cbv beta zeta in Hres.
  apply bind_ok_quiet with (P := fun _ => True) in Hres as [[] [_ Hres]];
    [|repeat first [downstream (fun _ : event => True) any_event | quiet_step]].
  destruct build; [|discriminate Hres].
  repeat split. now exists tm.
Qed.

End Methods.

End ModelBuildFacts.

(** * The pipeline on small inputs *)

Module PipelineRuns.
Import ModelBuild Demo ModelBuildFacts.

(** Ridge coefficients 1 and 2: the second feature ranks first. *)
Example ridge_regression_order :
  result (ridge_regression train32 target3 (Some names2) (Arr2d test12)
                           (Some test_target1) (builder false false None))
  = Ok (Some ([2; 1]%Z, [1; 0], ["f1"; "f0"]), 226%Z).
Proof. reflexivity. Qed.

(** Equal keys keep their original order. *)
Example sorted_desc_stable :
  sorted_desc [(1, "a"); (3, "b"); (1, "c"); (3, "d")]%Z
  = [(3, "b"); (3, "d"); (1, "a"); (1, "c")]%Z.
Proof. reflexivity. Qed.

(** C1. With [expand=False] and [build=True], [from_matrix] builds the model
    ([build_model] on the same arguments returns the triple) and then
    returns [None], not the triple; with no test matrix it raises. *)
Theorem from_matrix_without_expand_returns_None :
  result (build_model train32 target3 (Some names2) (Arr2d test12)
                      (Some test_target1) (Some 2)
                      (builder false false (Some 1%Z)))
  = Ok (["f1"; "f0"], [[10]; [30]; [50]]%Z, Arr2d [[70%Z]])
  /\ result (from_matrix train32 target3 (Some names2) None (Some test12) None
                         (Some test_target1) true
                         (builder false false (Some 1%Z)))
     = Ok None
  /\ result (from_matrix train32 target3 (Some names2) None None None None true
                         (builder true false (Some 1%Z)))
     = Raise UnboundLocalError.
Proof. repeat split; reflexivity. Qed.

(** C2. [reduce_matrix] returns two names for a train matrix of one
    column, and the first name, [f1], is not the name of that column, which
    holds the values of [f0]: the names are in ridge order and are not cut,
    the columns are cut by the lasso order.  The same happens through
    [from_matrix]. *)
Theorem reduce_matrix_names_misaligned :
  result (reduce_matrix train32 target3 (Some names2) (Arr2d test12)
                        (Some test_target1) (Some 2)
                        (builder false false (Some 1%Z)))
  = Ok (["f1"; "f0"], [[10]; [30]; [50]]%Z, Arr2d [[70%Z]])
  /\ result (from_matrix train32 target3 (Some names2) None (Some test12) None
                         (Some test_target1) true
                         (builder true false (Some 1%Z)))
     = Ok (Some (["f0*f0"; "f1"; "f0"], [[10]; [30]; [50]]%Z, Arr2d [[70%Z]])).
Proof. split; reflexivity. Qed.

(** With more features than candidates and no test matrix, the failure of
    [reduce_matrix] is a type error, not an unbound variable: C10 as stated
    fails here. *)
Lemma reduce_matrix_requires_test_matrix_counterexample :
  result (reduce_matrix train12 target1 (Some names2) PyNone None None
                        (builder false false (Some 1%Z)))
  = Raise TypeError
  /\ result (reduce_matrix train12 target1 (Some names2) PyNone None None
                           (builder false false (Some 1%Z)))
     <> Raise UnboundLocalError
  /\ result (from_matrix train12 target1 (Some names2) None None None None true
                         (builder false false (Some 1%Z)))
     = Raise TypeError.
Proof.
  split; [reflexivity|]. split; [|reflexivity].
  intros E. discriminate E.
Qed.

Lemma reduce_matrix_requires_test_matrix_witness :
  is_ok (result (reduce_matrix train32 target3 (Some names2) PyNone None None
                               (builder false false (Some 1%Z)))) = false
  /\ result (reduce_matrix train32 target3 (Some names2) PyNone None None
                           (builder false false (Some 1%Z)))
     = Raise UnboundLocalError
  /\ result (reduce_matrix train12 target1 (Some names2) PyNone None None
                           (builder false false (Some 1%Z)))
     = Raise TypeError.
Proof.
  destruct (reduce_matrix_requires_test_matrix train32 target3 (Some names2)
              None None (builder false false (Some 1%Z))) as [Hfail Hcases].
  destruct (Hcases 2 eq_refl ltac:(discriminate)) as [Hunbound _].
  destruct (reduce_matrix_requires_test_matrix train12 target1 (Some names2)
              None None (builder false false (Some 1%Z))) as [_ Hcases'].
  destruct (Hcases' 2 eq_refl ltac:(discriminate)) as [_ Htype].
  split; [exact Hfail|]. split.
  - apply (Hunbound names2 1%Z [1; 2]%Z); [simpl; lia|reflexivity..].
  - apply (Htype [[10%Z]] Arr0d (Some ["f0"]) 1%Z [1%Z]);
      [simpl; lia|reflexivity..].
Defined.

Lemma build_model_size_assertion_witness :
  build_model train32 target3 (Some names2) (Arr2d test12) (Some test_target1)
              (Some 2) (builder false false (Some 2%Z))
  = {| result := Raise AssertionError;
       final := builder false false (Some 2%Z);
       emitted := [CleanZero; Standardize] |}.
Proof.
  apply (build_model_size_assertion train32 target3 (Some names2)
           (Arr2d test12) (Some test_target1) (Some 2)
           (builder false false (Some 2%Z)) 2%Z train32 (Arr2d test12) []
           train32 (Arr2d test12) 2);
    first [reflexivity | lia | intros names _; constructor].
Defined.

Lemma expand_matrix_prefix_witness :
  length [[10; 20; 100; 400; 1; 1]; [30; 40; 900; 1600; 1; 1];
          [50; 60; 2500; 3600; 1; 1]]%Z = length train32
  /\ map (take 2) [[10; 20; 100; 400; 1; 1]; [30; 40; 900; 1600; 1; 1];
                   [50; 60; 2500; 3600; 1; 1]]%Z = train32.
Proof.
  apply (expand_matrix_prefix train32 (Some names2) true
           (builder true false None) 2 _
           (Some ["f0"; "f1"; "f0*f0"; "f1*f1"; "f0/f0"; "f1/f1"]));
    [repeat constructor|reflexivity].
Defined.

Lemma reduce_matrix_without_size_witness :
  exists (d : nat) (screened screened_test : Matrix Z)
         (screened_names : option (list string)) (las : lasso_result Z)
         (reduced : Matrix Z),
    shape1 train32 = Ok d
    /\ result ((if length train32 <? d
                then screening train32 target3 (Some names2) (Arr2d test12)
                               (Some test_target1)
                else ret (train32, Arr2d test12, Some names2))
                 (builder false false None))
       = Ok (screened, Arr2d screened_test, screened_names)
    /\ lasso d target3 screened (Arr2d screened_test) (1 # 10)%Q 1000000%Q
             (Some test_target1) (Some 20) = Ok las
    /\ slice_from (size (builder false false None)) (order las) = order las
    /\ [[]; []; []] = map (delete_from 0 (order las)) screened
    /\ Arr2d [[]] = Arr2d reduced
    /\ reduced = map (delete_from 0 (order las)) screened_test
    /\ ((forall j, j < d -> In j (order las)) ->
        Forall (fun row => length row <= d) screened ->
        Forall (fun row => row = []) ([[]; []; []] : Matrix Z)).
Proof.
  apply (reduce_matrix_without_size train32 target3 (Some names2)
           (Arr2d test12) (Some test_target1) None (builder false false None)
           ["f1"; "f0"] [[]; []; []] (Arr2d [[]])); reflexivity.
Defined.

Lemma reduce_matrix_screening_witness :
  List.filter is_screening
    (emitted (reduce_matrix train12 target1 (Some names2) (Arr2d test12)
                            (Some test_target1) None
                            (builder false false (Some 1%Z))))
  = [RRScreen 1 "kendall"].
Proof.
  destruct (reduce_matrix_screening train12 target1 (Some names2)
              (Arr2d test12) (Some test_target1) None
              (builder false false (Some 1%Z)) 2 eq_refl
              ltac:(discriminate) (or_introl eq_refl)) as [Hfilter _].
  exact Hfilter.
Defined.

End PipelineRuns.

(** * More about the connectivity graph *)

Module GraphShells.
Import Graph GraphFacts.
Local Open Scope Q_scope.

(** ** Neighbour lists, for every shell *)

Lemma filter_indices_bound (p : Atom -> bool) (atoms : Atoms) (k : nat) :
  In k (map index (List.filter p (iter_atoms atoms))) ->
  (k < length (sites atoms))%nat.
Proof.
  intros Hk. apply in_map_iff in Hk as [a [<- Ha]].
  apply List.filter_In in Ha as [Ha _].
  assert (Hin : In (index a) (map index (iter_atoms atoms))) by now apply in_map.
  rewrite iter_atoms_indices in Hin. apply in_seq in Hin. lia.
Qed.

Lemma NoDup_map_filter (p : Atom -> bool) (l : list Atom) :
  List.NoDup (map index l) -> List.NoDup (map index (List.filter p l)).
Proof.
  induction l as [|a l IH]; simpl; intros Hnd; [constructor|].
  apply List.NoDup_cons_iff in Hnd as [Ha Hnd].
  destruct (p a); simpl; [|now apply IH].
  constructor; [|now apply IH].
  intros Hin. apply Ha. apply in_map_iff in Hin as [b [E Hb]].
  apply List.filter_In in Hb as [Hb _]. rewrite <- E. now apply in_map.
Qed.

Lemma get_neighborlist_outside (cr : nat -> Q) (atoms : Atoms) (dx : Q)
    (nn : Z) (k : nat) :
  (length (sites atoms) <= k)%nat ->
  get_neighborlist cr atoms dx nn !! k = None.
Proof.
  intros Hk. unfold get_neighborlist.
  rewrite outer_loop_other; [apply lookup_empty|].
  rewrite iter_atoms_indices. intros Hin. apply in_seq in Hin. lia.
Qed.

Section AnyShell.
Variable covalent_radii : nat -> Q.

(** For every [neighbor_number], the dictionary [get_neighborlist] returns
    has exactly the atom indices for keys; the list of an atom holds indices
    of the structure, each at most once, never the atom's own, and [j] is in
    the list of [i] exactly when [i] is in the list of [j]. *)
Theorem get_neighborlist_symmetric
    (atoms : Atoms) (dx : Q) (neighbor_number : Z) (i j : nat) (ai aj : Atom) :
  iter_atoms atoms !! i = Some ai ->
  iter_atoms atoms !! j = Some aj ->
  let nl := get_neighborlist covalent_radii atoms dx neighbor_number in
  exists nli nlj : list nat,
    nl !! i = Some nli
    /\ nl !! j = Some nlj
    /\ (In j nli <-> In i nlj)
    /\ ~ In i nli
    /\ List.NoDup nli
    /\ (forall k, In k nli -> (k < length (sites atoms))%nat)
    /\ (forall k, (length (sites atoms) <= k)%nat -> nl !! k = None).
Proof.
  intros Hi Hj nl.
  destruct (iter_atoms_lookup atoms i ai Hi) as [Ei Hai].
  destruct (iter_atoms_lookup atoms j aj Hj) as [Ej Haj].
  pose proof (get_neighborlist_lookup covalent_radii atoms dx neighbor_number
                ai Hai) as Hli.
  pose proof (get_neighborlist_lookup covalent_radii atoms dx neighbor_number
                aj Haj) as Hlj.
  rewrite Ei in Hli. rewrite Ej in Hlj.
  eexists _, _. split; [exact Hli|]. split; [exact Hlj|].
  pose proof (selected_index
                (is_neighbor covalent_radii dx neighbor_number ai)
                (iter_atoms atoms) aj (iter_atoms_NoDup atoms) Haj) as Hij.
  pose proof (selected_index
                (is_neighbor covalent_radii dx neighbor_number aj)
                (iter_atoms atoms) ai (iter_atoms_NoDup atoms) Hai) as Hji.
  pose proof (selected_index
                (is_neighbor covalent_radii dx neighbor_number ai)
                (iter_atoms atoms) ai (iter_atoms_NoDup atoms) Hai) as Hii.
  rewrite Ej in Hij. rewrite Ei in Hji, Hii.
  split.
  { rewrite Hij, Hji. now rewrite is_neighbor_sym. }
  split.
  { rewrite Hii. unfold is_neighbor. rewrite Nat.eqb_refl. discriminate. }
  split; [apply NoDup_map_filter, iter_atoms_NoDup|].
  split; [intros k; apply filter_indices_bound|].
  intros k Hk. now apply get_neighborlist_outside.
Qed.

(** A distance cannot be both below and above one bound. *)
Lemma dist_lt_gt (d : dist) (m m' : Q) :
  m == m' -> dist_lt d m = true -> dist_gt d m' = true -> False.
Proof.
  intros Hm Hlt Hgt. rewrite (dist_gt_ext d d m' m) in Hgt;
    [|reflexivity|now symmetry].
  apply dist_lt_bound in Hlt as [Hpos Hlt].
  unfold dist_gt in Hgt. apply orb_true_iff in Hgt as [Hneg|Hgt].
  - apply Qltb_lt in Hneg. exact (Qlt_irrefl _ (Qlt_trans _ _ _ Hpos Hneg)).
  - apply Qltb_lt in Hgt. exact (Qlt_irrefl _ (Qlt_trans _ _ _ Hlt Hgt)).
Qed.

(** The upper bound of a shell is the lower bound of the next one, and both
    bounds are strict: from the first shell on, no atom is in two
    consecutive shells of another. *)
Theorem get_neighborlist_shells_disjoint
    (atoms : Atoms) (dx : Q) (neighbor_number : Z) (i j : nat) (ai : Atom)
    (inner outer : list nat) :
  (1 <= neighbor_number)%Z ->
  iter_atoms atoms !! i = Some ai ->
  get_neighborlist covalent_radii atoms dx neighbor_number !! i = Some inner ->
  get_neighborlist covalent_radii atoms dx (neighbor_number + 1) !! i
  = Some outer ->
  In j inner -> ~ In j outer.
Proof.
  intros Hnn Hi Hinner Houter Hin Hout.
  destruct (iter_atoms_lookup atoms i ai Hi) as [Ei Hai].
  rewrite <- Ei in Hinner, Houter.
  rewrite (get_neighborlist_lookup covalent_radii atoms dx _ ai Hai) in Hinner.
  rewrite (get_neighborlist_lookup covalent_radii atoms dx _ ai Hai) in Houter.
  injection Hinner as <-. injection Houter as <-.
  apply in_map_iff in Hin as [aj [Ej Hin]].
  apply List.filter_In in Hin as [Haj Hp].
  rewrite <- Ej in Hout.
  apply (selected_index _ _ aj (iter_atoms_NoDup atoms) Haj) in Hout.
  unfold is_neighbor in Hp, Hout.
  destruct (negb (index ai =? index aj)%nat); [|discriminate Hp].
  apply andb_true_iff in Hp as [_ Hlt]. apply andb_true_iff in Hout as [Hgt _].
  eapply dist_lt_gt; [|exact Hlt|exact Hgt].
  unfold d_max1, d_max2.
  replace (neighbor_number + 1 =? 1)%Z with false
    by (symmetry; apply Z.eqb_neq; lia).
  replace (neighbor_number + 1 - 1)%Z with neighbor_number by lia.
  reflexivity.
Qed.

End AnyShell.

End GraphShells.

(** * More about the matrices *)

Module GraphMatrices.
Import Graph GraphFacts.
Local Open Scope Q_scope.

(** A loop that appends one value per element, or stops at the first
    element it rejects. *)
Lemma res_foldl_guarded {A B} (ok : B -> bool) (h : B -> A) (e : exn)
    (body : list A -> B -> res (list A)) (l : list B) :
  (forall acc x, In x l ->
                 body acc x = if ok x then Ok (acc ++ [h x]) else Raise e) ->
  forall acc,
    res_foldl body acc l
    = if forallb ok l then Ok (acc ++ map h l) else Raise e.
Proof.
  induction l as [|x l IH]; intros Hb acc; simpl.
  - now rewrite app_nil_r.
  - rewrite (Hb acc x (or_introl eq_refl)).
    destruct (ok x); simpl; [|reflexivity].
    rewrite IH by (intros acc' y Hy; apply Hb; now right).
    now rewrite <- app_assoc.
Qed.

Section Cached.
Variable covalent_radii : nat -> Q.

(** With a cached neighbour list, [connection_matrix] reads nothing else:
    whatever the positions, the radii and [dx], it returns the N x N matrix
    with a 1 at [(i, j)] when [j] is in the cached list of [i], and raises
    [KeyError] when the cache lacks the list of one of the N atoms. *)
Theorem connection_matrix_cached
    (atoms : Atoms) (dx : Q) (kvp : key_value_pairs)
    (nl : gmap nat (list nat)) :
  info_key_value_pairs atoms = Some kvp ->
  neighborlist kvp = Some nl ->
  let r := seq 0 (length (sites atoms)) in
  connection_matrix covalent_radii atoms dx
  = if forallb (has_key nl) r
    then Ok (map (fun i =>
                    map (fun j => if mem_nat j (default [] (nl !! i))
                                  then 1 else 0) r) r)
    else Raise KeyError.
Proof.
  intros Hinfo Hnl r. unfold connection_matrix. rewrite Hinfo, Hnl.
  fold r.
  rewrite (res_foldl_guarded (has_key nl)
             (fun i => map (fun j => if mem_nat j (default [] (nl !! i))
                                     then 1 else 0) r) KeyError);
    [reflexivity|].
  intros acc i Hi. unfold has_key.
  destruct (nl !! i) as [nli|] eqn:E; simpl.
  - rewrite (res_foldl_snoc _ (fun j => if mem_nat j nli then 1 else 0));
      [reflexivity|]. intros x j _. reflexivity.
  - destruct r as [|j r']; [destruct Hi|]. reflexivity.
Qed.

End Cached.

Section Computed.
Variable covalent_radii : nat -> Q.

Lemma indicator_binary (p : Atom -> bool) (l : list Atom) :
  Forall (fun x => x == 0 \/ x == 1) (map (fun a => if p a then 1 else 0) l).
Proof.
  apply List.Forall_map, Forall_forall. intros a _.
  destruct (p a); [right|left]; reflexivity.
Qed.

Lemma indicator_coordination (p : Atom -> bool) (l : list Atom) :
  coordination (map (fun a => if p a then 1 else 0) l)
  = length (List.filter p l).
Proof.
  unfold coordination. induction l as [|a l IH]; simpl; [reflexivity|].
  destruct (p a); simpl; now rewrite IH.
Qed.

(** Without a cached list, the sum of a row of the connection matrix, which
    is what [base_f] takes as the coordination of the atom, is the length of
    the atom's neighbour list. *)
Theorem connection_matrix_row_sums
    (atoms : Atoms) (dx : Q) (kvp : key_value_pairs) (i : nat) (ai : Atom) :
  iter_atoms atoms !! i = Some ai ->
  info_key_value_pairs atoms = Some kvp ->
  neighborlist kvp = None ->
  exists (cm : list (list Q)) (row : list Q) (nli : list nat),
    connection_matrix covalent_radii atoms dx = Ok cm
    /\ length cm = length (sites atoms)
    /\ cm !! i = Some row
    /\ length row = length (sites atoms)
    /\ get_neighborlist covalent_radii atoms dx 1 !! i = Some nli
    /\ sum row == inject_Z (Z.of_nat (length nli))
    /\ coordination row = length nli.
Proof.
  intros Hi Hinfo Hnl.
  destruct (iter_atoms_lookup atoms i ai Hi) as [Ei Hai].
  pose proof (get_neighborlist_lookup covalent_radii atoms dx 1 ai Hai) as Hli.
  rewrite Ei in Hli.
  assert (Hlen : length (iter_atoms atoms) = length (sites atoms))
    by apply length_imap.
  eexists _, _, _.
  split; [exact (connection_matrix_computed covalent_radii atoms dx kvp Hinfo Hnl)|].
  split; [now rewrite length_map|].
  split; [rewrite list_lookup_fmap, Hi; reflexivity|].
  split; [now rewrite length_map|].
  split; [exact Hli|].
  rewrite length_map, <- indicator_coordination. split; [|reflexivity].
  apply sum_binary_row, indicator_binary.
Qed.

End Computed.

(** For any matrix, binary or weighted, [generalized_matrix] returns one
    value per row, and the value of a row is the number of its non-zero
    entries times its sum, over 12: it depends on no other row. *)
Theorem generalized_matrix_rows (cm : list (list Q)) :
  length (generalized_matrix cm) = length cm
  /\ forall (i : nat) (row : list Q),
       cm !! i = Some row ->
       exists v : Q,
         generalized_matrix cm !! i = Some v
         /\ v == inject_Z (Z.of_nat (coordination row)) * sum row / 12.
Proof.
  split; [apply length_map|].
  intros i row Hrow. unfold generalized_matrix.
  eexists. split; [rewrite list_lookup_fmap, Hrow; reflexivity|].
  apply generalized_row.
Qed.

End GraphMatrices.

(** * Fingerprints *)

Module FingerprintFacts.
Import Graph GraphFacts.
Local Open Scope Q_scope.

(** ** Type indicators *)

Lemma element_list_from (no : nat) (an : list nat) (acc : list Q) :
  foldl (fun hm n => if (n =? no)%nat then hm ++ [1] else hm ++ [0]) acc an
  = acc ++ map (fun n => if (n =? no)%nat then 1 else 0) an.
Proof.
  revert acc. induction an as [|n an IH]; intros acc; simpl.
  - now rewrite app_nil_r.
  - rewrite IH. destruct (n =? no)%nat; now rewrite <- app_assoc.
Qed.

Lemma element_list_map (an : list nat) (no : nat) :
  element_list an no = map (fun n => if (n =? no)%nat then 1 else 0) an.
Proof. unfold element_list. now rewrite element_list_from. Qed.

(** [element_list] marks the atoms of the selected type: the list is as
    long as the list of atomic numbers, has a 1 at the positions of that
    type and a 0 elsewhere, and sums to the number of atoms of the type. *)
Theorem element_list_counts (an : list nat) (no : nat) :
  length (element_list an no) = length an
  /\ (forall i n, an !! i = Some n ->
                  element_list an no !! i
                  = Some (if (n =? no)%nat then 1 else 0))
  /\ sum (element_list an no)
     == inject_Z (Z.of_nat (count_occ Nat.eq_dec an no)).
Proof.
  rewrite element_list_map. split; [apply length_map|]. split.
  - intros i n Hn. now rewrite list_lookup_fmap, Hn.
  - rewrite sum_binary_row.
    + apply inject_Z_injective. f_equal. unfold coordination.
      induction an as [|n an IH]; simpl; [reflexivity|].
      destruct (Nat.eq_dec n no) as [->|Hne].
      * rewrite Nat.eqb_refl. simpl. now rewrite IH.
      * apply Nat.eqb_neq in Hne. rewrite Hne. simpl. exact IH.
    + apply List.Forall_map, Forall_forall. intros n _.
      destruct (n =? no)%nat; [right|left]; reflexivity.
Qed.

(** [heteroatomic_matrix] reads only the first of the two types it is
    given: for a list [el] that starts with [e] it returns the N x N matrix
    with a 1 at [(i, j)] exactly when atom [i] is of type [e] and atom [j] is
    not, whatever follows [e] in [el]; with an empty [el] it fails on the
    first atom. *)
Theorem heteroatomic_matrix_first_type (an : list nat) (e : nat) (others : list nat) :
  heteroatomic_matrix an (e :: others)
  = Ok (map (fun i => map (fun j => if (i =? e)%nat && negb (j =? e)%nat
                                    then 1 else 0) an) an)
  /\ heteroatomic_matrix an (e :: others) = heteroatomic_matrix an [e]
  /\ heteroatomic_matrix an []
     = match an with [] => Ok [] | _ :: _ => Raise IndexError end.
Proof.
  assert (Hform : forall el', heteroatomic_matrix an (e :: el')
            = Ok (map (fun i => map (fun j => if (i =? e)%nat && negb (j =? e)%nat
                                              then 1 else 0) an) an)).
  { intros el'. unfold heteroatomic_matrix. simpl lookup.
    rewrite (res_foldl_snoc _
               (fun i => map (fun j => if (i =? e)%nat && negb (j =? e)%nat
                                       then 1 else 0) an)); [reflexivity|].
    intros acc i _. destruct (i =? e)%nat; simpl.
    - rewrite (res_foldl_snoc _ (fun j => if negb (j =? e)%nat then 1 else 0));
        [reflexivity|].
      intros x j _. now destruct (j =? e)%nat.
    - do 2 f_equal. f_equal. clear. induction an as [|j an IH]; simpl; [reflexivity|].
      now rewrite <- IH. }
  split; [apply Hform|]. split; [now rewrite !Hform|].
  now destruct an.
Qed.

(** ** The length of a fingerprint *)

Lemma blocks_length_closed (t : nat) : blocks_length t = features_length t.
Proof.
  unfold features_length.
  assert (H2 : (blocks_length t * 2 = 14 * t + t * (t - 1))%nat).
  { induction t as [|t IH]; [reflexivity|].
    simpl blocks_length. replace (S t - 1)%nat with t by lia.
    destruct t as [|t']; [reflexivity|].
    replace (S t' - 1)%nat with t' in IH by lia. nia. }
  assert (Hle : (7 * t <= blocks_length t)%nat) by nia.
  replace (t * (t - 1))%nat with ((blocks_length t - 7 * t) * 2)%nat by nia.
  rewrite Nat.div_mul by discriminate. lia.
Qed.

Lemma filter_none_of {A} (f : A -> bool) (l : list A) :
  (forall x, In x l -> f x = false) -> List.filter f l = [].
Proof.
  induction l as [|x l IH]; intros Hf; simpl; [reflexivity|].
  rewrite (Hf x (or_introl eq_refl)). apply IH. intros y Hy. apply Hf. now right.
Qed.

Lemma filter_all_of {A} (f : A -> bool) (l : list A) :
  (forall x, In x l -> f x = true) -> List.filter f l = l.
Proof.
  induction l as [|x l IH]; intros Hf; simpl; [reflexivity|].
  rewrite (Hf x (or_introl eq_refl)). f_equal. apply IH.
  intros y Hy. apply Hf. now right.
Qed.

(** Among distinct types, those not yet done are those still to come. *)
Lemma remaining_types (pre rest : list nat) :
  List.NoDup (pre ++ rest) ->
  length (List.filter (fun x => negb (mem_nat x pre)) (pre ++ rest))
  = length rest.
Proof.
  intros Hnd. rewrite List.filter_app, length_app.
  rewrite filter_none_of, filter_all_of; [reflexivity| |].
  - intros x Hx. apply negb_true_iff.
    destruct (mem_nat x pre) eqn:E; [|reflexivity].
    apply mem_nat_In in E. exfalso.
    apply List.NoDup_app_remove_l in Hnd as Hrest.
    revert Hnd x Hx E. clear. induction pre as [|p pre IH]; simpl;
      intros Hnd x Hx E; [destruct E|].
    apply List.NoDup_cons_iff in Hnd as [Hp Hnd].
    destruct E as [->|E]; [|now apply (IH Hnd x)].
    apply Hp, in_or_app. now right.
  - intros x Hx. apply negb_false_iff. now apply mem_nat_In.
Qed.

Section WithRuntime.
Context `{Runtime}.

Lemma level_sums_length (x : list Q) : length (level_sums x) = 3%nat.
Proof. reflexivity. Qed.

(** The inner loop adds one entry for each type that is not done. *)
Lemma heteroatomic_loop_length (an : list nat) (cm : list (list Q)) (e : nat)
    (done l : list nat) (fp fp' : list Q) :
  res_foldl (fun fp eo =>
               if mem_nat eo done then Ok fp
               else
                 res_bind (heteroatomic_matrix an [e; eo]) (fun hm =>
                 res_bind (bond_count hm cm) (fun b => Ok (fp ++ [b]))))
            fp l = Ok fp' ->
  length fp'
  = (length fp + length (List.filter (fun x => negb (mem_nat x done)) l))%nat.
Proof.
  revert fp. induction l as [|eo l IH]; intros fp Hres; simpl in *.
  - injection Hres as <-. lia.
  - destruct (mem_nat eo done); simpl in *.
    + now apply IH.
    + destruct (heteroatomic_matrix an [e; eo]) as [hm|]; [|discriminate Hres].
      simpl in Hres.
      destruct (bond_count hm cm) as [b|]; [|discriminate Hres].
      simpl in Hres. apply IH in Hres. rewrite length_app in Hres. simpl in Hres.
      lia.
Qed.

(** The outer loop, from a point where the types [pre] are done and the
    types [rest] are still to visit. *)
Lemma get_features_loop_length (an : list nat) (cm : list (list Q))
    (sum_cm gen_cm : list Q) (pre rest : list nat) (fp : list Q)
    (st : list Q * list nat) :
  set_iter an = pre ++ rest ->
  List.NoDup (set_iter an) ->
  res_foldl (fun (st : list Q * list nat) e =>
       let fp := fst st in
       let done := snd st in
       let el := element_list an e in
       res_bind (np_mul sum_cm el) (fun x =>
       let fp := fp ++ level_sums x in
       let pt := replicate (length an) el in
       res_bind (bond_count pt cm) (fun em =>
       let fp := fp ++ [em] in
       let done := if mem_nat e done then done else done ++ [e] in
       res_bind
         (res_foldl (fun fp eo =>
            if mem_nat eo done then Ok fp
            else
              res_bind (heteroatomic_matrix an [e; eo]) (fun hm =>
              res_bind (bond_count hm cm) (fun b => Ok (fp ++ [b]))))
            fp (set_iter an)) (fun fp =>
       res_bind (np_mul gen_cm el) (fun x =>
       Ok (fp ++ level_sums x, done))))))
       (fp, pre) rest = Ok st ->
  length (fst st) = (length fp + blocks_length (length rest))%nat.
Proof.
  revert pre fp. induction rest as [|e rest IH]; intros pre fp Hall Hnd Hres.
  - simpl in Hres. injection Hres as <-. simpl. lia.
  - simpl in Hres. cbv zeta in Hres.
    destruct (np_mul sum_cm (element_list an e)) as [x|]; [|discriminate Hres].
    simpl in Hres.
    destruct (bond_count _ cm) as [em|]; [|discriminate Hres].
    simpl in Hres.
    assert (Hdone : mem_nat e pre = false).
    { destruct (mem_nat e pre) eqn:E; [|reflexivity].
      apply mem_nat_In in E. exfalso. rewrite Hall in Hnd.
      apply List.NoDup_remove_2 in Hnd. apply Hnd, in_or_app. now left. }
    rewrite Hdone in Hres.
    destruct (res_foldl _ ((fp ++ level_sums x) ++ [em]) (set_iter an))
      as [fp1|] eqn:Hinner; [|discriminate Hres].
    simpl in Hres.
    destruct (np_mul gen_cm (element_list an e)) as [y|]; [|discriminate Hres].
    simpl in Hres.
    apply heteroatomic_loop_length in Hinner.
    assert (Hall' : set_iter an = (pre ++ [e]) ++ rest)
      by (now rewrite <- app_assoc).
    rewrite Hall' in Hinner at 1.
    rewrite remaining_types in Hinner by (now rewrite <- Hall').
    apply (IH (pre ++ [e]) _ Hall' Hnd) in Hres.
    rewrite Hres, !length_app, Hinner, !length_app. simpl. lia.
Qed.

Lemma get_features_blocks (an : list nat) (cm : list (list Q))
    (sum_cm gen_cm fp : list Q) :
  List.NoDup (set_iter an) ->
  get_features an cm sum_cm gen_cm = Ok fp ->
  length fp = blocks_length (length (set_iter an)).
Proof.
  intros Hnd Hres. unfold get_features in Hres.
  destruct (res_foldl _ ([], []) (set_iter an)) as [st|] eqn:Hloop;
    [|discriminate Hres].
  simpl in Hres. injection Hres as <-.
  now apply (get_features_loop_length an cm sum_cm gen_cm [] (set_iter an) [] st
               eq_refl Hnd) in Hloop.
Qed.

(** When [get_features] returns, the fingerprint has 7 entries per atom
    type and one per unordered pair of distinct types, whatever the
    matrices hold and in whatever order the set of types is iterated. *)
Theorem get_features_length (an : list nat) (cm : list (list Q))
    (sum_cm gen_cm fp : list Q) :
  List.NoDup (set_iter an) ->
  get_features an cm sum_cm gen_cm = Ok fp ->
  length fp = features_length (length (set_iter an)).
Proof.
  intros Hnd Hres. rewrite <- blocks_length_closed.
  now apply (get_features_blocks an cm sum_cm gen_cm).
Qed.

End WithRuntime.

End FingerprintFacts.

(** * Fingerprints of a structure *)

Module FingerprintPasses.
Import Graph GraphFacts FingerprintFacts.
Local Open Scope Q_scope.

(** A loop fails when its body fails on one of the elements, whatever has
    been accumulated by then. *)
Lemma res_foldl_fails {A B} (body : A -> B -> res A) (l : list B) (x : B) :
  In x l ->
  (forall acc, is_ok (body acc x) = false) ->
  forall acc, is_ok (res_foldl body acc l) = false.
Proof.
  induction l as [|y l IH]; intros Hx Hfail acc; [destruct Hx|].
  simpl. destruct Hx as [->|Hx].
  - specialize (Hfail acc). now destruct (body acc x).
  - destruct (body acc y); [now apply IH|reflexivity].
Qed.

Section WithRuntime.
Context `{Runtime}.

(** Every entry of the dictionary [ce] is the result of a look-up. *)
Lemma property_lookups (property : string) (l : list string)
    (ce0 ce : gmap string Q) :
  (forall s v, ce0 !! s = Some v -> element_property s property = Ok v) ->
  res_foldl (fun (ce : gmap string Q) s =>
               res_bind (element_property s property)
                        (fun v => Ok (<[s := v]> ce))) ce0 l = Ok ce ->
  forall s v, ce !! s = Some v -> element_property s property = Ok v.
Proof.
  revert ce0. induction l as [|s0 l IH]; intros ce0 Hinv Hres; simpl in Hres.
  - now injection Hres as <-.
  - destruct (element_property s0 property) as [v0|] eqn:E; [|discriminate Hres].
    simpl in Hres. apply (IH (<[s0 := v0]> ce0)); [|exact Hres].
    intros s v Hs. destruct (decide (s0 = s)) as [<-|Hne].
    + rewrite lookup_insert_eq in Hs. now injection Hs as <-.
    + rewrite lookup_insert_ne in Hs by exact Hne. now apply Hinv.
Qed.

Lemma property_row (ce : gmap string Q) (sy : list string) (acc x : list Q) :
  res_foldl (fun x s =>
               match ce !! s with
               | None => Raise KeyError
               | Some v => Ok (x ++ [v])
               end) acc sy = Ok x ->
  exists vs, x = acc ++ vs /\ Forall2 (fun s v => ce !! s = Some v) sy vs.
Proof.
  revert acc. induction sy as [|s sy IH]; intros acc Hres; simpl in Hres.
  - injection Hres as <-. exists []. now rewrite app_nil_r.
  - destruct (ce !! s) as [v|] eqn:E; [|discriminate Hres].
    apply IH in Hres as [vs [-> Hvs]].
    exists (v :: vs). rewrite <- app_assoc. split; [reflexivity|].
    now constructor.
Qed.

(** When [property_matrix] returns, the matrix has one row per atom and
    every row is the same: entry [(i, j)] is the property looked up for the
    chemical symbol of atom [j]. *)
Theorem property_matrix_broadcast (atoms : Atoms) (property : string)
    (pm : list (list Q)) :
  property_matrix atoms property = Ok pm ->
  length pm = length (sites atoms)
  /\ forall (i j z : nat),
       (i < length (sites atoms))%nat ->
       get_atomic_numbers atoms !! j = Some z ->
       exists v : Q,
         entry pm i j = Some v
         /\ element_property (chemical_symbol z) property = Ok v.
Proof.
  unfold property_matrix. intros Hres.
  destruct (res_foldl _ ∅ _) as [ce|] eqn:Hce; [|discriminate Hres].
  simpl in Hres.
  destruct (res_foldl _ [] (get_chemical_symbols atoms)) as [x|] eqn:Hx;
    [|discriminate Hres].
  simpl in Hres. injection Hres as <-.
  split; [apply length_replicate|].
  intros i j z Hi Hz.
  apply property_row in Hx as [vs [-> Hvs]]. simpl in Hvs.
  assert (Hs : get_chemical_symbols atoms !! j = Some (chemical_symbol z)).
  { unfold get_chemical_symbols. now rewrite list_lookup_fmap, Hz. }
  destruct (Forall2_lookup_l _ _ _ _ _ Hvs Hs) as [v [Hv Hlook]].
  exists v. split.
  - unfold entry. rewrite lookup_replicate_2 by exact Hi. exact Hv.
  - eapply property_lookups; [|exact Hce|exact Hlook].
    intros s v' Hs'. rewrite lookup_empty in Hs'. discriminate Hs'.
Qed.

Section WithRadii.
Variable covalent_radii : nat -> Q.

Lemma weighted_passes_length (atoms : Atoms) (cm_store : list (list Q))
    (props : list string) (fp fp' : list Q) :
  List.NoDup (set_iter (get_atomic_numbers atoms)) ->
  res_foldl (fun fp p =>
        res_bind (property_matrix atoms p) (fun pm =>
        res_bind (np_mul2 cm_store pm) (fun cm =>
        res_bind (np_sum_axis1 cm) (fun sum_cm =>
        let gen_cm := generalized_matrix cm in
        res_bind (get_features (get_atomic_numbers atoms) cm sum_cm gen_cm)
                 (fun f => Ok (fp ++ f)))))) fp props = Ok fp' ->
  length fp'
  = (length fp
     + length props
       * blocks_length (length (set_iter (get_atomic_numbers atoms))))%nat.
Proof.
  intros Hnd. revert fp. induction props as [|p props IH]; intros fp Hres;
    simpl in Hres.
  - injection Hres as <-. simpl. lia.
  - destruct (property_matrix atoms p) as [pm|]; [|discriminate Hres].
    simpl in Hres.
    destruct (np_mul2 cm_store pm) as [cm|]; [|discriminate Hres].
    simpl in Hres.
    destruct (np_sum_axis1 cm) as [sum_cm|]; [|discriminate Hres].
    simpl in Hres.
    destruct (get_features _ cm sum_cm _) as [f|] eqn:Hf; [|discriminate Hres].
    simpl in Hres. apply IH in Hres.
    apply get_features_blocks in Hf; [|exact Hnd].
    rewrite Hres, length_app, Hf. simpl. lia.
Qed.

(** When [base_f] returns, the fingerprint is one pass of [get_features]
    for the plain connection matrix and one more for each requested
    property, all of the same length. *)
Theorem base_f_length (atoms : Atoms) (property : option (list string))
    (fp : list Q) :
  List.NoDup (set_iter (get_atomic_numbers atoms)) ->
  base_f covalent_radii atoms property = Ok fp ->
  length fp
  = ((1 + length (default [] property))
     * features_length (length (set_iter (get_atomic_numbers atoms))))%nat.
Proof.
  intros Hnd Hres. unfold base_f in Hres.
  destruct (connection_matrix covalent_radii atoms (2 # 10)) as [cm_store|];
    [|discriminate Hres].
  simpl in Hres.
  destruct (np_sum_axis1 cm_store) as [sum_cm|]; [|discriminate Hres].
  simpl in Hres.
  destruct (get_features _ cm_store sum_cm _) as [f|] eqn:Hf;
    [|discriminate Hres].
  simpl in Hres. apply get_features_blocks in Hf; [|exact Hnd].
  rewrite <- blocks_length_closed.
  destruct property as [props|]; simpl.
  - apply weighted_passes_length in Hres; [|exact Hnd].
    rewrite Hres, Hf. lia.
  - injection Hres as <-. rewrite Hf. lia.
Qed.

(** A property look-up that fails for the symbol of an atom of the
    structure is not replaced by a default: [property_matrix] fails, and so
    does [base_f] when that property is among those requested. *)
Theorem base_f_lookup_failure (atoms : Atoms) (props : list string)
    (p : string) (z : nat) (e : exn) :
  (forall s, In s (get_chemical_symbols atoms) ->
             In s (set_iter_symbols (get_chemical_symbols atoms))) ->
  In p props ->
  In z (get_atomic_numbers atoms) ->
  element_property (chemical_symbol z) p = Raise e ->
  is_ok (property_matrix atoms p) = false
  /\ is_ok (base_f covalent_radii atoms (Some props)) = false.
Proof.
  intros Hcover Hp Hz Hfail.
  assert (Hpm : is_ok (property_matrix atoms p) = false).
  { unfold property_matrix.
    assert (Hloop : is_ok (res_foldl
                             (fun (ce : gmap string Q) s =>
                                res_bind (element_property s p)
                                         (fun v => Ok (<[s := v]> ce)))
                             ∅ (set_iter_symbols (get_chemical_symbols atoms)))
                    = false).
    { apply (res_foldl_fails _ _ (chemical_symbol z)).
      - apply Hcover. unfold get_chemical_symbols. now apply in_map.
      - intros acc. now rewrite Hfail. }
    now destruct (res_foldl _ ∅ _). }
  split; [exact Hpm|]. unfold base_f.
  destruct (connection_matrix covalent_radii atoms (2 # 10)); [|reflexivity].
  simpl. destruct (np_sum_axis1 _); [|reflexivity]. simpl.
  destruct (get_features _ _ _ _); [|reflexivity]. simpl.
  apply (res_foldl_fails _ _ p Hp).
  intros acc. now destruct (property_matrix atoms p).
Qed.

End WithRadii.

End WithRuntime.

End FingerprintPasses.

(** * The stages of the pipeline *)

Module StageFacts.
Import ModelBuild ModelBuildFacts.
Local Open Scope py_scope.

Section Stages.
Context {F : Type} `{FloatOps F} `{Collaborators F}.

(** ** Storing *)


(** [db_store] calls the database only with as many identifiers as matrix
    rows and as targets, and with names; it then creates and fills the
    table of the database [type_dbname], each row an identifier, the
    features and the target. *)
Theorem db_store_writes
    (type : string) (atoms_id : option (list string))
    (feature_matrix : pyarray F) (target : option (list F))
    (feature_names : option (list string)) (table : string) (s : self F) :
  let o := db_store type atoms_id feature_matrix target feature_names table s in
  final o = s
  /\ (emitted o <> [] ->
      exists ids m t names,
        atoms_id = Some ids /\ feature_matrix = Arr2d m /\ target = Some t
        /\ feature_names = Some names
        /\ length ids = length m /\ length m = length t
        /\ result o
           = res_bind
               (create_db (type +:+ "_" +:+ db_name s) table
                          (names ++ ["target"]))
               (fun _ =>
                  fill_db (type +:+ "_" +:+ db_name s) table
                    (names ++ ["target"])
                    (zip_with app
                       (zip_with app (map (fun i => [CId i]) ids)
                                 (map (map CNum) m))
                       (map (fun i => [CNum i]) t)))
        /\ emitted o
           = CreateDb (type +:+ "_" +:+ db_name s) table
             :: (if is_ok (create_db (type +:+ "_" +:+ db_name s) table
                                     (names ++ ["target"]))
                 then [FillDb (type +:+ "_" +:+ db_name s) table] else [])).
Proof.
  intros o. split.
  { subst o. apply (quiet_final (fun _ => True)).
    apply (quiet_db_store _ any_event). }
  intros Hne.
  assert (Hcases : (exists ids m t names,
                       atoms_id = Some ids /\ feature_matrix = Arr2d m
                       /\ target = Some t /\ feature_names = Some names
                       /\ length ids = length m /\ length m = length t)
                   \/ emitted o = []).
  { subst o. unfold db_store, concat_cols.
    destruct atoms_id as [ids|]; [|now right].
    destruct feature_matrix as [| |m]; [now right|now right|].
    rewrite bind_ret, !length_map.
    destruct (length ids =? length m) eqn:E1; [|now right].
    rewrite bind_lift_ok.
    destruct target as [t|]; [|now right].
    rewrite bind_ret, length_zip_with, !length_map.
    destruct (length ids `min` length m =? length t) eqn:E2; [|now right].
    destruct feature_names as [names|]; [|now right].
    left. exists ids, m, t, names.
    apply Nat.eqb_eq in E1, E2. repeat split; lia. }
  destruct Hcases as [(ids & m & t & names & -> & -> & -> & -> & E1 & E2)|Hnil];
    [|contradiction].
  exists ids, m, t, names. repeat (split; [first [reflexivity | assumption]|]).
  subst o. unfold db_store, concat_cols.
  rewrite bind_ret, !length_map, E1, E2, Nat.eqb_refl, bind_lift_ok, bind_ret.
  rewrite length_zip_with, !length_map, E1, E2, Nat.min_id, Nat.eqb_refl.
  rewrite bind_lift_ok, bind_ret, bind_get.
  destruct (create_db _ table _) as [[]|e] eqn:Ec.
  - rewrite bind_call_ok. simpl. now split.
  - rewrite bind_call_raise. simpl. now split.
Qed.

(** ** Reducing *)

(** A [limit] above the number of features fails the assertion at the head
    of [reduce_matrix]: nothing is screened, ranked or fitted. *)
Theorem reduce_matrix_limit_assertion
    (train_matrix : Matrix F) (train_target : list F)
    (feature_names : option (list string)) (test_matrix : pyarray F)
    (test_target : option (list F)) (l d : nat) (s : self F) :
  shape1 train_matrix = Ok d ->
  d < l ->
  reduce_matrix train_matrix train_target feature_names test_matrix
                test_target (Some l) s
  = {| result := Raise AssertionError; final := s; emitted := [] |}.
Proof.
  intros Hd Hl. unfold reduce_matrix. rewrite Hd, bind_lift_ok.
  replace (l <=? d) with false by (symmetry; apply Nat.leb_gt; lia).
  reflexivity.
Qed.

(** With a [screening_method] other than ['rrcs'] and ['sis'] and no more
    than twice as many features as candidates, [screening] calls no
    screening primitive and fails on its unassigned [screen]. *)
Theorem screening_unknown_method
    (train_matrix : Matrix F) (train_target : list F)
    (feature_names : option (list string)) (test_matrix : pyarray F)
    (test_target : option (list F)) (d : nat) (s : self F) :
  shape1 train_matrix = Ok d ->
  length train_matrix <= d <= 2 * length train_matrix ->
  screening_method s <> "rrcs" ->
  screening_method s <> "sis" ->
  screening train_matrix train_target feature_names test_matrix test_target s
  = {| result := Raise UnboundLocalError; final := s; emitted := [] |}.
Proof.
  intros Hd Hrange Hrr Hsis. pose proof (shape1_nonempty _ _ Hd) as Hn.
  unfold screening, shape0. rewrite Hd, bind_lift_ok.
  replace (length train_matrix =? 0) with false by (symmetry; apply Nat.eqb_neq; lia).
  replace (d =? 0) with false by (symmetry; apply Nat.eqb_neq; lia).
  replace (d <? length train_matrix) with false by (symmetry; apply Nat.ltb_ge; lia).
  cbv beta iota zeta. rewrite bind_ret, bind_get.
  replace (2 * length train_matrix <? d) with false
    by (symmetry; apply Nat.ltb_ge; lia).
  apply String.eqb_neq in Hrr, Hsis. rewrite Hrr, Hsis.
  reflexivity.
Qed.

(** With a test matrix of no rows, [ridge_regression] divides the float
    [0.] by the integer 0; with a test matrix and no test targets, [zip]
    rejects the targets.  Both happen after the ridge fit. *)
Theorem ridge_regression_degenerate_test
    (train_matrix : Matrix F) (train_target : list F)
    (feature_names : option (list string)) (s : self F) (b : F)
    (coef : list F) :
  find_optimal_regularization train_matrix train_target = Ok b ->
  RR train_matrix train_target b = Ok coef ->
  (forall targets,
      ridge_regression train_matrix train_target feature_names (Arr2d [])
                       (Some targets) s
      = {| result := Raise ZeroDivisionError; final := s;
           emitted := [FindOptimalRegularization; RidgeRR] |})
  /\ (forall test_matrix,
         ridge_regression train_matrix train_target feature_names
                          (Arr2d test_matrix) None s
         = {| result := Raise TypeError; final := s;
              emitted := [FindOptimalRegularization; RidgeRR] |}).
Proof.
  intros Hb Hcoef. split; intros; unfold ridge_regression;
    rewrite Hb, bind_call_ok, Hcoef, bind_call_ok; reflexivity.
Qed.

(** ** Deleting columns *)

Lemma Forall2_weaken_in {A B} (R R' : A -> B -> Prop) (l : list A) (k : list B) :
  Forall2 R l k -> (forall x y, In x l -> R x y -> R' x y) -> Forall2 R' l k.
Proof.
  induction 1 as [|x y l k Hxy _ IH]; intros Himp; constructor.
  - apply Himp; [now left|exact Hxy].
  - apply IH. intros x' y' Hx'. apply Himp. now right.
Qed.

(** What [np.delete] keeps: the entries at the positions that are not
    listed, in their order. *)
Lemma delete_from_kept {A} (obj : list nat) (l : list A) (i : nat) :
  Forall2 (fun j x => l !! (j - i) = Some x)
          (List.filter (fun j => negb (mem_nat j obj)) (seq i (length l)))
          (delete_from i obj l).
Proof.
  revert i. induction l as [|x l IH]; intros i; simpl; [constructor|].
  assert (Htail : Forall2 (fun j y => (x :: l) !! (j - i) = Some y)
                    (List.filter (fun j => negb (mem_nat j obj))
                                 (seq (S i) (length l)))
                    (delete_from (S i) obj l)).
  { eapply Forall2_weaken_in; [apply (IH (S i))|].
    intros j y Hj Hy. apply List.filter_In in Hj as [Hj _].
    apply in_seq in Hj. replace (j - i) with (S (j - S i)) by lia. exact Hy. }
  destruct (mem_nat i obj); simpl; [exact Htail|].
  constructor; [|exact Htail]. now rewrite Nat.sub_diag.
Qed.

Lemma delete_from_length {A} (obj : list nat) (l : list A) (i : nat) :
  length (delete_from i obj l)
  = length (List.filter (fun j => negb (mem_nat j obj)) (seq i (length l))).
Proof. symmetry. eapply Forall2_length, delete_from_kept. Qed.

(** Lists of one length lose the same number of entries. *)
Lemma delete_from_same_length {A B} (obj : list nat) (l : list A) (l' : list B) :
  length l = length l' ->
  length (delete_from 0 obj l) = length (delete_from 0 obj l').
Proof. intros E. now rewrite !delete_from_length, E. Qed.

Lemma np_delete_ok {A} (l l' : list A) (obj : list nat) :
  np_delete l obj = Ok l' -> l' = delete_from 0 obj l.
Proof.
  unfold np_delete. destruct (forallb _ obj); [|discriminate]. now intros [= <-].
Qed.




(** ** Reduction to a fixed size *)



(** ** Screening keeps names and columns aligned *)

(** When the names were aligned with the columns of the train matrix, they
    still are after [screening], and with those of the test matrix. *)
Theorem screening_keeps_alignment
    (train_matrix : Matrix F) (train_target : list F) (names : list string)
    (test_matrix : pyarray F) (test_target : option (list F)) (s : self F)
    (train' : Matrix F) (test' : pyarray F) (names' : option (list string)) :
  Forall (fun row => length row = length names) train_matrix ->
  result (screening train_matrix train_target (Some names) test_matrix
                    test_target s) = Ok (train', test', names') ->
  exists kept : list string,
    names' = Some kept
    /\ length train' = length train_matrix
    /\ Forall (fun row => length row = length kept) train'
    /\ forall t,
         test_matrix = Arr2d t ->
         Forall (fun row => length row = length names) t ->
         exists t', test' = Arr2d t'
                    /\ Forall (fun row => length row = length kept) t'.
Proof.
  intros Hrows Hres.
  apply screening_ok in Hres
    as (d & screen & names0 & kept & _ & _ & Htr & Hn & Hkept & -> & Hte).
  injection Hn as <-.
  apply np_delete_ok in Hkept. apply np_delete_cols_ok in Htr.
  exists kept. split; [reflexivity|]. subst train' kept.
  split; [apply length_map|]. split.
  - apply List.Forall_map. eapply List.Forall_impl; [|exact Hrows].
    intros row Hrow. now apply delete_from_same_length.
  - intros t -> Ht. destruct Hte as [[Hte _]|(t0 & t' & Ht0 & -> & Hdel)];
      [discriminate Hte|].
    injection Ht0 as <-. exists t'. split; [reflexivity|].
    apply np_delete_cols_ok in Hdel. subst t'.
    apply List.Forall_map. eapply List.Forall_impl; [|exact Ht].
    intros row Hrow. now apply delete_from_same_length.
Qed.

(** ** Loops *)

(** A property of the loop state that every successful iteration keeps
    holds when the loop returns. *)
Lemma for_each_invariant {A S} (I : S -> Prop) (l : list A)
    (body : A -> S -> M F S) :
  (forall x acc s st, In x l -> I acc -> result (body x acc s) = Ok st -> I st) ->
  forall acc s st,
    I acc -> result (for_each l body acc s) = Ok st -> I st.
Proof.
  induction l as [|x l IH]; intros Hbody acc s st Hacc Hres; simpl in Hres.
  - now injection Hres as <-.
  - apply bind_ok in Hres as [acc' [Hx Hres]].
    eapply IH; [|exact (Hbody x acc s acc' (or_introl eq_refl) Hacc Hx)
                |exact Hres].
    intros y a s0 st0 Hy. exact (Hbody y a s0 st0 (or_intror Hy)).
Qed.

(** ** The projection sweep *)

(** [pca_opt] tries the component counts from 1 to [max_comp - 1]: what it
    returns is one of them, with [max_comp] for the number of features; with
    [max_comp] at most 1 there is nothing to try and its [return] reads
    unassigned variables. *)
Theorem pca_opt_components
    (max_comp : nat) (train_matrix : Matrix F) (test_matrix : pyarray F)
    (train_target : list F) (test_target : option (list F)) (s : self F) :
  (max_comp <= 1 ->
   pca_opt max_comp train_matrix test_matrix train_target test_target s
   = {| result := Raise UnboundLocalError; final := s; emitted := [] |})
  /\ forall (best : F) (cc cs : nat),
       result (pca_opt max_comp train_matrix test_matrix train_target
                       test_target s) = Ok (best, cc, cs) ->
       cs = max_comp /\ 1 <= cc < max_comp.
Proof.
  split.
  { intros Hle. unfold pca_opt.
    replace (max_comp - 1) with 0 by lia. reflexivity. }
  intros best cc cs Hres. unfold pca_opt in Hres.
  apply bind_ok in Hres as [st [Hloop Hres]].
  apply bind_ok in Hres as [ccs [Hccs Hres]].
  cbn [result ret] in Hres. injection Hres as _ <- <-.
  apply (for_each_invariant
           (fun st : F * option (nat * nat) =>
              snd st = None
              \/ exists c, In c (seq 1 (max_comp - 1))
                           /\ snd st = Some (c, max_comp)))
    in Hloop.
  - destruct Hloop as [Hnone|[c [Hc Hsome]]].
    + rewrite Hnone in Hccs. discriminate Hccs.
    + rewrite Hsome in Hccs. cbn [deref result ret] in Hccs.
      injection Hccs as <-. apply in_seq in Hc. simpl. lia.
  - intros c acc s0 st' Hc Hacc Hbody.
    apply bind_ok in Hbody as [comp [_ Hbody]].
    apply bind_ok in Hbody as [pc [_ Hbody]].
    apply bind_ok in Hbody as [v [_ Hbody]].
    destruct (fltb v (fst acc)); cbn [result ret] in Hbody;
      injection Hbody as <-; [right; now exists c|exact Hacc].
  - now left.
Qed.

(** ** The size search *)

Lemma quiet_size_search (limit : nat) (mo : list nat) (train_matrix : Matrix F)
    (test_matrix : pyarray F) (train_target : list F)
    (test_target : option (list F)) (st0 : search_state) :
  quiet (fun _ => True)
    (for_each (seq 1 limit)
       (fun s (st : search_state) =>
          let remove_features := slice_from (Some (Z.of_nat s)) mo in
          reduced_train <- lift (np_delete_cols train_matrix remove_features) ;;
          reduced_test <- lift (np_delete_cols_py test_matrix remove_features) ;;
          p <- make_prediction reduced_train reduced_test train_target
                               test_target false ;;
          v <- validation_average p ;;
          let st1 := if fltb v (fst (fst st))
                     then (v, Some (Z.of_nat s), snd st) else st in
          if 1 <? s then
            pcar <- pca_opt s reduced_train reduced_test train_target
                            test_target ;;
            ret (fst st1, Some pcar)
          else ret st1) st0).
Proof.
  repeat first [ apply (quiet_make_prediction _ any_event)
               | apply (quiet_validation_average (fun _ => True))
               | apply (quiet_pca_opt _ any_event)
               | quiet_step ].
Qed.


(** ** The ranking of the features *)

Lemma insert_desc_perm {A} (x : F * A) (l : list (F * A)) :
  Permutation (insert_desc x l) (x :: l).
Proof.
  induction l as [|y l IH]; simpl; [reflexivity|].
  destruct (fltb (fst y) (fst x)); [reflexivity|].
  rewrite IH. apply perm_swap.
Qed.

Lemma sorted_desc_perm {A} (l : list (F * A)) : Permutation (sorted_desc l) l.
Proof.
  unfold sorted_desc.
  assert (Hgen : forall acc : list (F * A),
             Permutation (foldl (fun acc x => insert_desc x acc) acc l)
                         (acc ++ l)).
  { induction l as [|x l IH]; intros acc; simpl.
    - now rewrite app_nil_r.
    - rewrite IH, insert_desc_perm. apply Permutation_middle. }
  apply (Hgen []).
Qed.

Lemma map_lookup {A B} (f : A -> B) (l : list A) (i : nat) :
  map f l !! i = f <$> l !! i.
Proof.
  revert i. induction l as [|x l IH]; intros [|i]; simpl; try reflexivity.
  apply IH.
Qed.

Lemma unzip_sorted_some (l : list (F * (nat * string))) (coefs : list F)
    (order : list nat) (names : list string) :
  unzip_sorted l = Some (coefs, order, names) ->
  coefs = map fst l
  /\ order = map (fun x => fst (snd x)) l
  /\ names = map (fun x => snd (snd x)) l.
Proof.
  destruct l as [|x l]; [discriminate|].
  unfold unzip_sorted. now intros [= <- <- <-].
Qed.

Lemma zip3_lookup {A B C} (a : list A) (b : list B) (c : list C) (j : nat)
    (x : A) (y : B) (z : C) :
  zip3 a b c !! j = Some (x, y, z) <->
  a !! j = Some x /\ b !! j = Some y /\ c !! j = Some z.
Proof.
  revert b c j.
  induction a as [|x0 a IH]; intros [|y0 b] [|z0 c] j; simpl;
    try (split; [discriminate|intros (? & ? & ?); discriminate]).
  destruct j as [|j]; simpl; [|apply IH].
  split; [now intros [= -> -> ->]|now intros ([= ->] & [= ->] & [= ->])].
Qed.

Lemma zip3_length {A B C} (a : list A) (b : list B) (c : list C) :
  length (zip3 a b c) = Nat.min (length a) (Nat.min (length b) (length c)).
Proof.
  revert b c. induction a as [|x a IH]; intros [|y b] [|z c]; simpl;
    try reflexivity; try lia.
  now rewrite IH.
Qed.

Lemma zip3_seq {A C} (a : list A) (c : list C) :
  map (fun x => snd (fst x)) (zip3 a (seq 0 (length a)) c)
  = seq 0 (Nat.min (length a) (length c)).
Proof.
  generalize 0.
  revert c. induction a as [|x a IH]; intros [|z c] n; simpl; try reflexivity.
  now rewrite IH.
Qed.

(** What [ridge_regression] returns with the ordering: the positions of the
    coefficients that have a name, each once, and at every place of the
    three lists the absolute coefficient and the name of the position
    listed there. *)
Theorem ridge_regression_ranking
    (train_matrix : Matrix F) (train_target : list F) (names : list string)
    (test_matrix : pyarray F) (test_target : option (list F)) (s : self F)
    (coefs : list F) (order : list nat) (sorted_names : list string)
    (error : F) :
  result (ridge_regression train_matrix train_target (Some names) test_matrix
                           test_target s)
  = Ok (Some (coefs, order, sorted_names), error) ->
  exists (b : F) (coef : list F),
    find_optimal_regularization train_matrix train_target = Ok b
    /\ RR train_matrix train_target b = Ok coef
    /\ Permutation order (seq 0 (Nat.min (length coef) (length names)))
    /\ length coefs = length order
    /\ length sorted_names = length order
    /\ forall p i, order !! p = Some i ->
         coefs !! p = fabs <$> coef !! i
         /\ sorted_names !! p = names !! i.
Proof.
  intros Hres. unfold ridge_regression in Hres.
  apply bind_ok in Hres as [b [Hb Hres]]. cbn [result call final] in Hb, Hres.
  apply bind_ok in Hres as [coef [Hcoef Hres]].
  cbn [result call final] in Hcoef, Hres.
  apply bind_ok in Hres as [err [_ Hres]].
  apply bind_ok in Hres as [sl [Hsl Hres]]. cbn [result ret] in Hsl.
  injection Hsl as <-.
  apply bind_ok in Hres as [e [_ Hres]]. cbn [result ret] in Hres.
  injection Hres as Hsorted _.
  exists b, coef. split; [exact Hb|]. split; [exact Hcoef|].
  set (entries := map (fun x : F * nat * string =>
                         (fst (fst x), (snd (fst x), snd x)))
                      (zip3 (map fabs coef) (seq 0 (length coef)) names))
    in Hsorted.
  pose proof (sorted_desc_perm entries) as Hperm.
  apply unzip_sorted_some in Hsorted as (-> & -> & ->).
  split.
  { rewrite Hperm. unfold entries. rewrite map_map. cbn [fst snd].
    rewrite <- (length_map fabs coef) at 1.
    rewrite (zip3_seq (map fabs coef) names). now rewrite length_map. }
  split; [now rewrite !length_map|]. split; [now rewrite !length_map|].
  intros p i Hp. rewrite map_lookup in Hp.
  destruct (sorted_desc entries !! p) as [[a [i' nm]]|] eqn:Ep;
    [|discriminate Hp].
  cbn [fmap option_fmap option_map fst snd] in Hp. injection Hp as ->.
  rewrite !map_lookup, Ep. cbn [fmap option_fmap option_map fst snd].
  assert (Hin : In (a, (i, nm)) entries).
  { apply (Permutation_in _ Hperm). apply list_elem_of_In.
    now apply list_elem_of_lookup_2 with p. }
  unfold entries in Hin. apply in_map_iff in Hin as [[[a' j] nm'] [Heq Hin]].
  cbn [fst snd] in Heq. injection Heq as -> -> ->.
  apply list_elem_of_In, list_elem_of_lookup_1 in Hin as [q Hq].
  apply zip3_lookup in Hq as (Ha & Hj & Hnm).
  apply lookup_seq in Hj as [-> _]. cbn [Nat.add].
  rewrite map_lookup in Ha. now rewrite Ha, Hnm.
Qed.

Lemma insert_desc_descending {A} (x : F * A) (l : list (F * A)) :
  (forall a b : F, fltb a b = true -> fltb b a = false) ->
  (forall p y z, l !! p = Some y -> l !! S p = Some z ->
                 fltb (fst y) (fst z) = false) ->
  forall p y z, insert_desc x l !! p = Some y ->
                insert_desc x l !! S p = Some z ->
                fltb (fst y) (fst z) = false.
Proof.
  intros Hasym. induction l as [|y0 l IH]; intros Hl p y z Hy Hz.
  - destruct p; discriminate Hz.
  - simpl in Hy, Hz. destruct (fltb (fst y0) (fst x)) eqn:E.
    + destruct p as [|p].
      * injection Hy as <-. injection Hz as <-. now apply Hasym.
      * exact (Hl p y z Hy Hz).
    + destruct p as [|p].
      * injection Hy as <-. simpl in Hz.
        destruct l as [|y1 l]; simpl in Hz.
        -- now injection Hz as <-.
        -- destruct (fltb (fst y1) (fst x)).
           ++ now injection Hz as <-.
           ++ injection Hz as <-. exact (Hl 0 y0 y1 eq_refl eq_refl).
      * apply (IH (fun q => Hl (S q)) p y z Hy Hz).
Qed.

Lemma sorted_desc_descending {A} (l : list (F * A)) :
  (forall a b : F, fltb a b = true -> fltb b a = false) ->
  forall p y z, sorted_desc l !! p = Some y -> sorted_desc l !! S p = Some z ->
                fltb (fst y) (fst z) = false.
Proof.
  intros Hasym. unfold sorted_desc.
  assert (Hgen : forall acc : list (F * A),
             (forall p y z, acc !! p = Some y -> acc !! S p = Some z ->
                            fltb (fst y) (fst z) = false) ->
             forall p y z,
               foldl (fun acc x => insert_desc x acc) acc l !! p = Some y ->
               foldl (fun acc x => insert_desc x acc) acc l !! S p = Some z ->
               fltb (fst y) (fst z) = false).
  { induction l as [|x l IH]; intros acc Hacc; simpl; [exact Hacc|].
    apply IH. now apply insert_desc_descending. }
  apply Hgen. intros p y z Hy. destruct p; discriminate Hy.
Qed.

(** An asymmetric comparison (as on floats, NaN included) makes the ranking
    of [ridge_regression] descending: no absolute coefficient is below the
    one after it. *)
Theorem ridge_regression_descending
    (train_matrix : Matrix F) (train_target : list F)
    (feature_names : option (list string)) (test_matrix : pyarray F)
    (test_target : option (list F)) (s : self F)
    (coefs : list F) (order : list nat) (sorted_names : list string)
    (error : F) :
  (forall a b : F, fltb a b = true -> fltb b a = false) ->
  result (ridge_regression train_matrix train_target feature_names test_matrix
                           test_target s)
  = Ok (Some (coefs, order, sorted_names), error) ->
  forall p c c', coefs !! p = Some c -> coefs !! S p = Some c' ->
                 fltb c c' = false.
Proof.
  intros Hasym Hres. unfold ridge_regression in Hres.
  apply bind_ok in Hres as [b [_ Hres]].
  apply bind_ok in Hres as [coef [_ Hres]].
  apply bind_ok in Hres as [err [_ Hres]].
  apply bind_ok in Hres as [sl [Hsl Hres]].
  destruct feature_names as [names|]; [|discriminate Hsl].
  cbn [result ret] in Hsl. injection Hsl as <-.
  apply bind_ok in Hres as [e [_ Hres]]. cbn [result ret] in Hres.
  injection Hres as Hsorted _.
  set (entries := map (fun x : F * nat * string =>
                         (fst (fst x), (snd (fst x), snd x)))
                      (zip3 (map fabs coef) (seq 0 (length coef)) names))
    in Hsorted.
  pose proof (sorted_desc_descending entries Hasym) as Hdesc.
  apply unzip_sorted_some in Hsorted as (-> & _ & _).
  intros p c c' Hc Hc'. rewrite map_lookup in Hc, Hc'.
  destruct (sorted_desc entries !! p) as [y|] eqn:Ey; [|discriminate Hc].
  destruct (sorted_desc entries !! S p) as [z|] eqn:Ez; [|discriminate Hc'].
  cbn [fmap option_fmap option_map] in Hc, Hc'.
  injection Hc as <-. injection Hc' as <-. exact (Hdesc p y z Ey Ez).
Qed.

(** ** The expansion of the names *)

(** Runs the next call or conversion of a computation known to return. *)
Ltac run_step Hres :=
  lazymatch type of Hres with
  | context [bind (call ?ev ?r) _ _] =>
      let E := fresh "Hcall" in
      destruct r eqn:E; [rewrite bind_call_ok in *|discriminate Hres];
      cbn [result final emitted] in *
  | context [bind (lift ?r) _ _] =>
      let E := fresh "Hlift" in
      destruct r eqn:E; [rewrite bind_lift_ok in *|discriminate Hres]
  end.

(** When [expand_matrix] returns with [return_names] false, it has called
    the four matrix operations and no label function, and the names are the
    ones passed; with [return_names] true there were names, the returned
    ones start with them, and eight operations were called. *)
Theorem expand_matrix_names
    (feature_matrix : Matrix F) (feature_names : option (list string))
    (return_names : bool) (s : self F) (expanded : Matrix F)
    (names : option (list string)) :
  result (expand_matrix feature_matrix feature_names return_names s)
  = Ok (expanded, names) ->
  if return_names then
    exists given added,
      feature_names = Some given /\ names = Some (given ++ added)
      /\ length (emitted (expand_matrix feature_matrix feature_names true s)) = 8
  else
    names = feature_names
    /\ emitted (expand_matrix feature_matrix feature_names false s)
       = [FpmOperation "get_order_2"; FpmOperation "get_div_order_2";
          FpmOperation "get_order_2ab"; FpmOperation "get_ablog"].
Proof.
  intros Hres. destruct return_names; unfold expand_matrix in *.
  - do 8 run_step Hres. do 4 run_step Hres.
    destruct feature_names as [given|]; [|discriminate Hres].
    cbn [result ret] in Hres. injection Hres as _ <-.
    exists given. eexists. split; [reflexivity|]. split; reflexivity.
  - do 8 run_step Hres. cbn [result ret] in Hres. injection Hres as _ <-.
    split; reflexivity.
Qed.

(** ** The generated names *)

(** The names [from_matrix] generates when none are given, [f0], [f1], ...:
    one for each column, no two alike, the i-th made of the decimal form of
    i. *)
Theorem default_names_distinct (d : nat) :
  length (default_names d) = d
  /\ List.NoDup (default_names d)
  /\ forall i, i < d -> default_names d !! i = Some ("f" +:+ pretty i).
Proof.
  unfold default_names. split; [now rewrite length_map, length_seq|]. split.
  - apply Stdlib.Lists.Finite.Injective_map_NoDup; [|apply List.seq_NoDup].
    intros i j Hij. apply (inj (String.append "f")) in Hij.
    exact (inj pretty i j Hij).
  - intros i Hi. rewrite map_lookup, lookup_seq_lt by exact Hi. reflexivity.
Qed.

(** ** The tuning *)

Lemma ones_times_length (m : nat) (w : hyper F) (sigma : list F) :
  ones_times m w = Ok sigma -> length sigma = m.
Proof.
  unfold ones_times.
  destruct w as [x|[|x [|y l]]].
  - intros [= <-]. now rewrite length_map, length_replicate.
  - destruct (length [] =? m) eqn:E; [|discriminate].
    intros [= <-]. apply Nat.eqb_eq in E. simpl in E. subst m. reflexivity.
  - intros [= <-]. now rewrite length_map, length_replicate.
  - destruct (length (x :: y :: l) =? m) eqn:E; [|discriminate].
    intros [= <-]. apply Nat.eqb_eq in E.
    rewrite length_zip_with, length_replicate. lia.
Qed.

(** [hyp_opt] starts the minimizer once, from a width for every feature
    followed by the regularization, and hands back its result cut before
    the last entry; the two pieces make up that result again, and the
    object keeps the hyperparameters it had. *)
Theorem hyp_opt_splits
    (features : Matrix F * pyarray F) (train_target : list F) (s : self F)
    (w r : hyper F) :
  result (hyp_opt features train_target s) = Ok (w, r) ->
  exists (m : nat) (sigma popt : list F),
    shape1 (fst features) = Ok m
    /\ length sigma = m
    /\ minimize (np_append_hyper sigma (regularization s)) features
                train_target (m + 1) = Ok popt
    /\ w = Vector (all_but_last popt)
    /\ r = Vector (last_slice popt)
    /\ all_but_last popt ++ last_slice popt = popt
    /\ final (hyp_opt features train_target s) = s
    /\ emitted (hyp_opt features train_target s) = [Minimize].
Proof.
  intros Hres. unfold hyp_opt in *.
  run_step Hres. rewrite bind_get in *. run_step Hres. run_step Hres.
  cbn [result ret] in Hres. injection Hres as <- <-.
  exists a, a0, a1. split; [reflexivity|].
  split; [exact (ones_times_length _ _ _ Hlift0)|].
  split; [exact Hcall|].
  repeat split. apply take_drop.
Qed.

(** ** The selection error *)



(** ** The entry points *)

(** When [from_matrix] returns a model, it has built two: one on the
    matrices as given, limited to the smaller of the two dimensions of the
    training matrix, whose result it drops but which had to succeed, and
    the one it returns, on the expanded matrices and names, limited to the
    number of training rows. *)
Theorem from_matrix_builds_twice
    (train_matrix : Matrix F) (train_target : list F)
    (feature_names train_id : option (list string))
    (test_matrix : option (Matrix F)) (test_id : option (list string))
    (test_target : option (list F)) (build : bool) (s : self F)
    (model : list string * Matrix F * pyarray F) :
  result (from_matrix train_matrix train_target feature_names train_id
                      test_matrix test_id test_target build s)
  = Ok (Some model) ->
  exists (d : nat) (tm : Matrix F) (first : list string * Matrix F * pyarray F)
         (expanded expanded_test : Matrix F)
         (expanded_names unused : option (list string)),
    let names := match feature_names with
                 | Some names => names
                 | None => default_names d
                 end in
    shape1 train_matrix = Ok d
    /\ test_matrix = Some tm
    /\ result (build_model train_matrix train_target (Some names) (Arr2d tm)
                           test_target
                           (Some (if d <? shape0 train_matrix then d
                                  else shape0 train_matrix)) s)
       = Ok first
    /\ result (expand_matrix train_matrix (Some names) true s)
       = Ok (expanded, expanded_names)
    /\ result (expand_matrix tm None false s) = Ok (expanded_test, unused)
    /\ result (build_model expanded train_target expanded_names
                           (Arr2d expanded_test) test_target
                           (Some (shape0 expanded)) s)
       = Ok model.
Proof.
  intros Hres.
  destruct (from_matrix_returns_triple _ _ _ _ _ _ _ _ _ _ Hres)
    as (Hexp & -> & tm & ->).
  unfold from_matrix in Hres.
  apply bind_ok_quiet with (P := fun _ => True) in Hres as [names [Hnames Hres]];
    [|repeat quiet_step].
  rewrite bind_get in Hres.
  apply bind_ok_quiet with (P := fun _ => True) in Hres as [[] [_ Hres]];
    [|repeat first [apply (quiet_db_store _ any_event) | quiet_step]].
  apply bind_ok_quiet with (P := fun _ => True) in Hres as [[] [_ Hres]];
    [|repeat first [apply (quiet_db_store _ any_event) | quiet_step]].
  apply bind_ok_quiet with (P := fun ev => ev <> Minimize)
    in Hres as [[] [Hfirst Hres]];
    [|repeat first [apply quiet_build_model | quiet_step]].
  rewrite Hexp in Hres.
  apply bind_ok_quiet with (P := fun _ => True)
    in Hres as [[expanded expanded_names] [Hexpand Hres]];
    [|apply (quiet_expand_matrix _ any_event)].
  cbv beta zeta in Hres. cbn [fst snd] in Hres.
  apply bind_ok_quiet with (P := fun _ => True) in Hres as [[] [_ Hres]];
    [|repeat first [apply (quiet_db_store _ any_event) | quiet_step]].
  apply bind_ok_quiet with (P := fun _ => True)
    in Hres as [[expanded_test unused] [Hexpand_test Hres]];
    [|apply (quiet_expand_matrix _ any_event)].
  cbv beta zeta in Hres. cbn [fst snd] in Hres.
  apply bind_ok_quiet with (P := fun _ => True) in Hres as [[] [_ Hres]];
    [|repeat first [apply (quiet_db_store _ any_event) | quiet_step]].
  apply bind_ok in Hres as [r [Hsecond Hres]].
  cbn [result ret] in Hres. injection Hres as ->.
  destruct (shape1 train_matrix) as [d|e] eqn:Ed; [|discriminate Hfirst].
  rewrite bind_lift_ok in Hfirst.
  apply bind_ok in Hfirst as [first [Hfirst _]].
  assert (Hn : names = match feature_names with
                       | Some names => names
                       | None => default_names d
                       end).
  { destruct feature_names as [given|].
    - cbn [result ret] in Hnames. now injection Hnames as <-.
    - rewrite bind_lift_ok in Hnames. cbn [result ret] in Hnames.
      now injection Hnames as <-. }
  subst names.
  exists d, tm, first, expanded, expanded_test, expanded_names, unused.
  cbv zeta. now repeat split.
Qed.

(** An atoms object of the training set without a [unique_id] stops
    [from_atoms] before anything is built: no collaborator is called,
    nothing is stored, and the object is as it was. *)
Theorem from_atoms_missing_id {A : Type} (unique_id : A -> res string)
    (train_atoms : list A) (fpv_function : list A -> res (Matrix F))
    (train_target : list F) (build : bool) (test_atoms : option (list A))
    (test_target : option (list F)) (feature_names : option (list string))
    (s : self F) :
  Exists (fun a => is_ok (unique_id a) = false) train_atoms ->
  exists e : exn,
    from_atoms unique_id train_atoms fpv_function train_target build
               test_atoms test_target feature_names s
    = {| result := Raise e; final := s; emitted := [] |}.
Proof.
  intros Hmissing. apply List.Exists_exists in Hmissing as [a [Ha Hid]].
  unfold from_atoms.
  destruct (fpv_function train_atoms) as [m|e]; [|now exists e].
  rewrite bind_lift_ok.
  pose proof (FingerprintPasses.res_foldl_fails
                (fun ids a => res_bind (unique_id a) (fun i => Ok (ids ++ [i])))
                train_atoms a Ha) as Hfails.
  match goal with
  | |- context [lift ?r] => destruct r as [ids|e] eqn:E
  end.
  - assert (Hbody : forall acc : list string,
               is_ok (res_bind (unique_id a) (fun i => Ok (acc ++ [i])))
               = false)
      by (intros acc; now destruct (unique_id a)).
    specialize (Hfails Hbody []). rewrite E in Hfails. discriminate Hfails.
  - now exists e.
Qed.

End Stages.

End StageFacts.

(** * The fingerprints on small structures *)

Module FingerprintRuns.
Import Graph FingerprintDemo.
Local Open Scope Q_scope.

(** The first two atoms of [line3] list each other, and nothing else. *)
Lemma get_neighborlist_symmetric_witness :
  exists nli nlj : list nat,
    get_neighborlist half_radii line3 (2 # 10) 1 !! 0%nat = Some nli
    /\ get_neighborlist half_radii line3 (2 # 10) 1 !! 1%nat = Some nlj
    /\ (In 1%nat nli <-> In 0%nat nlj)
    /\ ~ In 0%nat nli
    /\ List.NoDup nli
    /\ (forall k, In k nli -> (k < 3)%nat)
    /\ (forall k, (3 <= k)%nat ->
                  get_neighborlist half_radii line3 (2 # 10) 1 !! k = None).
Proof.
  apply (GraphShells.get_neighborlist_symmetric half_radii line3 (2 # 10) 1
           0 1 {| index := 0; position := (0, 0, 0); number := 1 |}
           {| index := 1; position := (1, 0, 0); number := 1 |});
    reflexivity.
Defined.

(** The second atom of [line3] is in the first shell of the first atom, and
    not in its second. *)
Lemma get_neighborlist_shells_disjoint_witness :
  exists inner outer : list nat,
    get_neighborlist half_radii line3 (2 # 10) 1 !! 0%nat = Some inner
    /\ get_neighborlist half_radii line3 (2 # 10) (1 + 1) !! 0%nat = Some outer
    /\ In 1%nat inner
    /\ ~ In 1%nat outer.
Proof.
  exists [1%nat], []. split; [reflexivity|]. split; [reflexivity|].
  split; [now left|].
  apply (GraphShells.get_neighborlist_shells_disjoint half_radii line3
           (2 # 10) 1 0 1
           {| index := 0; position := (0, 0, 0); number := 1 |} [1%nat] []);
    [lia|reflexivity|reflexivity|reflexivity|now left].
Defined.

(** The cached list of [cached] is used as it is: the matrix is not
    symmetric, and no distance is measured. *)
Lemma connection_matrix_cached_witness :
  connection_matrix half_radii cached (2 # 10) = Ok [[0; 1]; [0; 0]].
Proof.
  exact (GraphMatrices.connection_matrix_cached half_radii cached (2 # 10)
           {| neighborlist := Some (<[1%nat := []]> (<[0%nat := [1%nat]]> ∅)) |}
           (<[1%nat := []]> (<[0%nat := [1%nat]]> ∅)) eq_refl eq_refl).
Defined.

(** The oxygen of [water] has two neighbours. *)
Lemma connection_matrix_row_sums_witness :
  exists (cm : list (list Q)) (row : list Q) (nli : list nat),
    connection_matrix half_radii water (2 # 10) = Ok cm
    /\ length cm = 3%nat
    /\ cm !! 1%nat = Some row
    /\ length row = 3%nat
    /\ get_neighborlist half_radii water (2 # 10) 1 !! 1%nat = Some nli
    /\ sum row == inject_Z (Z.of_nat (length nli))
    /\ coordination row = length nli.
Proof.
  exact (GraphMatrices.connection_matrix_row_sums half_radii water (2 # 10)
           {| neighborlist := None |} 1
           {| index := 1; position := (1, 0, 0); number := 8 |}
           eq_refl eq_refl eq_refl).
Defined.

(** The middle atom of [chain3]. *)
Lemma generalized_matrix_rows_witness :
  length (generalized_matrix chain3) = 3%nat
  /\ exists v : Q,
       generalized_matrix chain3 !! 1%nat = Some v
       /\ v == inject_Z (Z.of_nat (coordination [1; 0; 1])) * sum [1; 0; 1] / 12.
Proof.
  destruct (GraphMatrices.generalized_matrix_rows chain3) as [Hlen Hrows].
  split; [exact Hlen|exact (Hrows 1%nat [1; 0; 1] eq_refl)].
Defined.

(** The hydrogens of water. *)
Lemma element_list_counts_witness :
  length (element_list [1; 8; 1]%nat 1) = 3%nat
  /\ element_list [1; 8; 1]%nat 1 !! 1%nat = Some 0
  /\ sum (element_list [1; 8; 1]%nat 1) == 2.
Proof.
  destruct (FingerprintFacts.element_list_counts [1; 8; 1]%nat 1)
    as (Hlen & Hat & Hsum).
  split; [exact Hlen|]. split; [exact (Hat 1%nat 8%nat eq_refl)|exact Hsum].
Defined.

(** Two atom types: 15 features. *)
Lemma get_features_length_witness :
  length [2; 4; 2; 2; 2; 2; 4; 2; 2; 2; 2; 2; 2; 2; 2]
  = features_length (length (set_iter [1; 8; 1]%nat)).
Proof.
  apply (FingerprintFacts.get_features_length [1; 8; 1]%nat
           [[0; 1; 0]; [1; 0; 1]; [0; 1; 0]] [1; 2; 1] [1; 2; 1]).
  - apply NoDup_ListNoDup, (NoDup_remove_dups [1; 8; 1]%nat).
  - reflexivity.
Defined.

(** Every row of the property matrix of [water] holds the property of the
    oxygen in its second place. *)
Lemma property_matrix_broadcast_witness :
  length [[1; 8; 1]; [1; 8; 1]; [1; 8; 1]] = 3%nat
  /\ exists v : Q,
       entry [[1; 8; 1]; [1; 8; 1]; [1; 8; 1]] 0 1 = Some v
       /\ element_property (chemical_symbol 8) "mass" = Ok v.
Proof.
  assert (Hpm : property_matrix water "mass"
                = Ok [[1; 8; 1]; [1; 8; 1]; [1; 8; 1]])
    by (vm_compute; reflexivity).
  destruct (FingerprintPasses.property_matrix_broadcast water "mass"
              [[1; 8; 1]; [1; 8; 1]; [1; 8; 1]] Hpm) as [Hlen Hentry].
  split; [exact Hlen|].
  exact (Hentry 0%nat 1%nat 8%nat ltac:(simpl; lia) eq_refl).
Defined.

(** One property doubles the 15 features of [water]. *)
Lemma base_f_length_witness :
  exists fp : list Q,
    base_f half_radii water (Some ["mass"%string]) = Ok fp
    /\ length fp = 30%nat.
Proof.
  assert (Hfp : { fp | base_f half_radii water (Some ["mass"%string]) = Ok fp })
    by (eexists; vm_compute; reflexivity).
  destruct Hfp as [fp Hfp]. exists fp. split; [exact Hfp|].
  rewrite (FingerprintPasses.base_f_length half_radii water
             (Some ["mass"%string]) fp); [reflexivity| |exact Hfp].
  apply NoDup_ListNoDup, (NoDup_remove_dups [1; 8; 1]%nat).
Defined.

(** The periodic table of [FingerprintDemo] has no element 5. *)
Lemma base_f_lookup_failure_witness :
  is_ok (property_matrix unknown "mass") = false
  /\ is_ok (base_f half_radii unknown (Some ["mass"%string])) = false.
Proof.
  apply (FingerprintPasses.base_f_lookup_failure half_radii unknown
           ["mass"%string] "mass" 5 KeyError).
  - intros s Hs. exact Hs.
  - now left.
  - right. now left.
  - reflexivity.
Defined.

End FingerprintRuns.

(** * The stages on small inputs *)

Module StageRuns.
Import ModelBuild Demo.


(** Storing three candidates: the table is created, then filled. *)
Lemma db_store_writes_witness :
  final (db_store "train" (Some ["a"; "b"; "c"]) (Arr2d train32)
                  (Some target3) (Some names2) "OriginalFeatureSpace"
                  (builder false false None))
  = builder false false None
  /\ emitted (db_store "train" (Some ["a"; "b"; "c"]) (Arr2d train32)
                       (Some target3) (Some names2) "OriginalFeatureSpace"
                       (builder false false None))
     = [CreateDb "train_fpv_store.sqlite" "OriginalFeatureSpace";
        FillDb "train_fpv_store.sqlite" "OriginalFeatureSpace"].
Proof.
  destruct (StageFacts.db_store_writes "train" (Some ["a"; "b"; "c"])
              (Arr2d train32) (Some target3) (Some names2)
              "OriginalFeatureSpace" (builder false false None))
    as [Hfinal Hwrites].
  split; [exact Hfinal|].
  destruct (Hwrites ltac:(discriminate))
    as (ids & m & t & names & _ & _ & _ & _ & _ & _ & _ & Hemitted).
  exact Hemitted.
Defined.

(** A limit of three features on a matrix of two. *)
Lemma reduce_matrix_limit_assertion_witness :
  reduce_matrix train32 target3 (Some names2) (Arr2d test12)
                (Some test_target1) (Some 3) (builder false false None)
  = {| result := Raise AssertionError; final := builder false false None;
       emitted := [] |}.
Proof.
  apply (StageFacts.reduce_matrix_limit_assertion train32 target3
           (Some names2) (Arr2d test12) (Some test_target1) 3 2);
    [reflexivity|lia].
Defined.

(** A screening method that is neither of the two. *)
Lemma screening_unknown_method_witness :
  screening train12 target1 (Some names2) PyNone None
            (storing false false "pearson")
  = {| result := Raise UnboundLocalError;
       final := storing false false "pearson"; emitted := [] |}.
Proof.
  apply (StageFacts.screening_unknown_method train12 target1 (Some names2)
           PyNone None 2);
    [reflexivity|simpl; lia|discriminate|discriminate].
Defined.

(** No test rows, and no test targets. *)
Lemma ridge_regression_degenerate_test_witness :
  ridge_regression train32 target3 (Some names2) (Arr2d []) (Some [])
                   (builder false false None)
  = {| result := Raise ZeroDivisionError; final := builder false false None;
       emitted := [FindOptimalRegularization; RidgeRR] |}
  /\ ridge_regression train32 target3 (Some names2) (Arr2d test12) None
                      (builder false false None)
     = {| result := Raise TypeError; final := builder false false None;
          emitted := [FindOptimalRegularization; RidgeRR] |}.
Proof.
  assert (Hb : find_optimal_regularization train32 target3 = Ok 1%Z)
    by reflexivity.
  assert (Hcoef : RR train32 target3 1%Z = Ok [1; 2]%Z) by reflexivity.
  destruct (StageFacts.ridge_regression_degenerate_test train32 target3
              (Some names2) (builder false false None) 1%Z [1; 2]%Z
              Hb Hcoef) as [Hzero Htype].
  split; [exact (Hzero [])|exact (Htype test12)].
Defined.


(** One candidate, two features: the screening keeps one column and one
    name. *)
Lemma screening_keeps_alignment_witness :
  exists kept : list string,
    Some ["f0"] = Some kept
    /\ length [[10%Z]] = length train12
    /\ Forall (fun row => length row = length kept) [[10%Z]]
    /\ forall t,
         Arr2d test12 = Arr2d t ->
         Forall (fun row => length row = length names2) t ->
         exists t', Arr2d [[70%Z]] = Arr2d t'
                    /\ Forall (fun row => length row = length kept) t'.
Proof.
  apply (StageFacts.screening_keeps_alignment train12 target1 names2
           (Arr2d test12) (Some test_target1)
           (builder false false (Some 1%Z)));
    [repeat constructor|reflexivity].
Defined.

(** One component at most: nothing to try; three: one or two are chosen. *)
Lemma pca_opt_components_witness :
  pca_opt 1 train33 (Arr2d test13) target3 (Some test_target1)
          (builder false false None)
  = {| result := Raise UnboundLocalError; final := builder false false None;
       emitted := [] |}
  /\ (3 = 3 /\ 1 <= 1 < 3).
Proof.
  destruct (StageFacts.pca_opt_components 1 train33 (Arr2d test13) target3
              (Some test_target1) (builder false false None)) as [Hnone _].
  destruct (StageFacts.pca_opt_components 3 train33 (Arr2d test13) target3
              (Some test_target1) (builder false false None)) as [_ Hsome].
  split; [exact (Hnone ltac:(lia))|exact (Hsome 1%Z 1 3 eq_refl)].
Defined.


(** Ridge coefficients 1 and 2. *)
Lemma ridge_regression_ranking_witness :
  exists (b : Z) (coef : list Z),
    find_optimal_regularization train32 target3 = Ok b
    /\ RR train32 target3 b = Ok coef
    /\ Permutation [1; 0] (seq 0 (Nat.min (length coef) (length names2)))
    /\ length [2; 1]%Z = length [1; 0]
    /\ length ["f1"; "f0"] = length [1; 0]
    /\ forall p i, [1; 0] !! p = Some i ->
         [2; 1]%Z !! p = fabs <$> coef !! i
         /\ ["f1"; "f0"] !! p = names2 !! i.
Proof.
  exact (StageFacts.ridge_regression_ranking train32 target3 names2
           (Arr2d test12) (Some test_target1) (builder false false None)
           [2; 1]%Z [1; 0] ["f1"; "f0"] 226%Z eq_refl).
Defined.

Lemma ridge_regression_descending_witness :
  fltb 2%Z 1%Z = false.
Proof.
  apply (StageFacts.ridge_regression_descending train32 target3 (Some names2)
           (Arr2d test12) (Some test_target1) (builder false false None)
           [2; 1]%Z [1; 0] ["f1"; "f0"] 226%Z) with (p := 0);
    [|reflexivity..].
  intros a b Hab. apply Z.ltb_lt in Hab. apply Z.ltb_ge. lia.
Defined.

(** The names of the expanded matrix, asked for and not. *)
Lemma expand_matrix_names_witness :
  (exists given added,
      Some names2 = Some given
      /\ Some ["f0"; "f1"; "f0*f0"; "f1*f1"; "f0/f0"; "f1/f1"]
         = Some (given ++ added)
      /\ length (emitted (expand_matrix train32 (Some names2) true
                                        (builder true false None))) = 8)
  /\ (@None (list string) = None
      /\ emitted (expand_matrix train32 None false (builder true false None))
         = [FpmOperation "get_order_2"; FpmOperation "get_div_order_2";
            FpmOperation "get_order_2ab"; FpmOperation "get_ablog"]).
Proof.
  split.
  - exact (StageFacts.expand_matrix_names train32 (Some names2) true
             (builder true false None) _ _ eq_refl).
  - exact (StageFacts.expand_matrix_names train32 None false
             (builder true false None) _ _ eq_refl).
Defined.

(** The eleventh generated name. *)
Lemma default_names_distinct_witness :
  default_names 12 !! 10 = Some "f10".
Proof.
  destruct (StageFacts.default_names_distinct 12) as (_ & _ & Hat).
  exact (Hat 10 ltac:(lia)).
Defined.

(** Two widths and the regularization. *)
Lemma hyp_opt_splits_witness :
  exists (m : nat) (sigma popt : list Z),
    shape1 train32 = Ok m
    /\ length sigma = m
    /\ minimize (np_append_hyper sigma (Scalar 1%Z)) (train32, Arr2d test12)
                target3 (m + 1) = Ok popt
    /\ Vector [1; 1]%Z = Vector (all_but_last popt)
    /\ Vector [1%Z] = Vector (last_slice popt)
    /\ all_but_last popt ++ last_slice popt = popt
    /\ final (hyp_opt (train32, Arr2d test12) target3
                      (builder false false None))
       = builder false false None
    /\ emitted (hyp_opt (train32, Arr2d test12) target3
                        (builder false false None))
       = [Minimize].
Proof.
  exact (StageFacts.hyp_opt_splits (train32, Arr2d test12) target3
           (builder false false None) _ _ eq_refl).
Defined.


(** Expansion, a test matrix and [build]: two models. *)
Lemma from_matrix_builds_twice_witness :
  exists (d : nat) (tm : Matrix Z) (first : list string * Matrix Z * pyarray Z)
         (expanded expanded_test : Matrix Z)
         (expanded_names unused : option (list string)),
    shape1 train32 = Ok d
    /\ Some test12 = Some tm
    /\ result (build_model train32 target3 (Some names2) (Arr2d tm)
                           (Some test_target1)
                           (Some (if d <? shape0 train32 then d
                                  else shape0 train32))
                           (builder true false (Some 1%Z)))
       = Ok first
    /\ result (expand_matrix train32 (Some names2) true
                             (builder true false (Some 1%Z)))
       = Ok (expanded, expanded_names)
    /\ result (expand_matrix tm None false (builder true false (Some 1%Z)))
       = Ok (expanded_test, unused)
    /\ result (build_model expanded target3 expanded_names
                           (Arr2d expanded_test) (Some test_target1)
                           (Some (shape0 expanded))
                           (builder true false (Some 1%Z)))
       = Ok (["f0*f0"; "f1"; "f0"], [[10]; [30]; [50]]%Z, Arr2d [[70%Z]]).
Proof.
  exact (StageFacts.from_matrix_builds_twice train32 target3 (Some names2)
           None (Some test12) None (Some test_target1) true
           (builder true false (Some 1%Z)) _ eq_refl).
Defined.

(** The second atoms object has no identifier. *)
Lemma from_atoms_missing_id_witness :
  exists e : exn,
    from_atoms unique_id [Some "a"; None] two_features [1; 2]%Z true None
               None None (builder false false None)
    = {| result := Raise e; final := builder false false None;
         emitted := [] |}.
Proof.
  apply StageFacts.from_atoms_missing_id.
  apply Exists_cons_tl, Exists_cons_hd. reflexivity.
Defined.

End StageRuns.
